(** * Boot configuration resolution in init/util.cpp

    A shallow embedding of the command-line tokenizer, the ACPI importer,
    the device-tree file synthesizer, the Android DT directory resolver and
    the property expander of [init/util.cpp], with the properties the
    specification states about them, and of the helpers beside them
    ([ReadFile], [WriteFile], [mkdir_recursive], [bytes_to_hex] and the
    readers of the Android DT directory) with further properties of all of
    these.

    Conventions of the embedding:
    - a [std::string] is a [string]; it may contain the NUL character, and
      every [c_str()] hand-over to a C interface is written out as the
      truncation at the first NUL ([c_str]);
    - a [const char*] walking a C string is the suffix it points to;
    - the file system and the system calls the code issues are an explicit
      world ([World]) threaded through a state monad ([M]); every external
      call leaves an event in the world's trace;
    - the file system is a finite map from resolved paths to directories
      and regular files, without symbolic links and with the root as
      working directory; [.] and [..] in a path are answered only in a
      directory that exists;
    - what the system refuses for a reason outside of this tree (a name or
      a path too long, a missing permission, a full or read-only device, an
      I/O error) is told by the world ([refused], [written]) for the calls
      that change the file system, [mkdir], the creating [open] and
      [write]; a [stat] or a read that is refused is, for this code, a file
      that is not there;
    - variables a C++ lambda captures by reference are an explicit
      accumulator passed to and returned by the callback;
    - logging ([LOG], [PLOG]) has no effect on any result and is left out. *)

From Stdlib Require Import Ascii.
From Stdlib Require Strings.Byte.
From stdpp Require Import gmap strings list.

Open Scope string_scope.

(** ** C strings and [std::string] operations *)

Module Str.

Definition NUL : ascii := "000"%char.

(** [s.c_str()] read back as a C string: the bytes before the first NUL. *)
Fixpoint c_str (s : string) : string :=
  match s with
  | "" => ""
  | String a r => if Ascii.eqb a NUL then "" else String a (c_str r)
  end.

(** [*p] for a pointer into a C string: the terminator at the end. *)
Definition deref (p : string) : ascii :=
  match p with
  | "" => NUL
  | String a _ => a
  end.

(** [p + 1]. *)
Definition next (p : string) : string :=
  match p with
  | "" => ""
  | String _ r => r
  end.

(** [p + n]. *)
Fixpoint advance (n : nat) (p : string) : string :=
  match n with
  | O => p
  | S n' => advance n' (next p)
  end.

(** [strchr(p, ch)] for [ch] other than NUL: the suffix starting at the
    first [ch], or the null pointer. *)
Fixpoint strchr (p : string) (ch : ascii) : option string :=
  match p with
  | "" => None
  | String a r => if Ascii.eqb a ch then Some p else strchr r ch
  end.

(** The first [n] characters of [s]. *)
Fixpoint take (n : nat) (s : string) : string :=
  match n, s with
  | S n', String a r => String a (take n' r)
  | _, _ => ""
  end.

(** [std::string(p, q)]: the characters from [p] up to [q], two pointers
    into the same C string with [q] not before [p]. *)
Definition range (p q : string) : string :=
  take (String.length p - String.length q) p.

(** [s.substr(pos)] for [pos <= s.size()]. *)
Definition substr_from (pos : nat) (s : string) : string := advance pos s.

(** [s.substr(0, n)]. *)
Definition substr_to (n : nat) (s : string) : string := take n s.

Fixpoint starts_with (pre s : string) : bool :=
  match pre, s with
  | "", _ => true
  | String a p, String b r => Ascii.eqb a b && starts_with p r
  | _, "" => false
  end.

(** [s.find(needle)]: the position of the first occurrence, [None] for
    [std::string::npos]. *)
Fixpoint find (needle s : string) : option nat :=
  if starts_with needle s then Some 0
  else match s with
       | "" => None
       | String _ r => option_map S (find needle r)
       end.

(** [std::replace(s.begin(), s.end(), old, new)]. *)
Fixpoint replace (old new : ascii) (s : string) : string :=
  match s with
  | "" => ""
  | String a r => String (if Ascii.eqb a old then new else a) (replace old new r)
  end.

Fixpoint mem (ch : ascii) (s : string) : bool :=
  match s with
  | "" => false
  | String a r => Ascii.eqb a ch || mem ch r
  end.

Fixpoint count (ch : ascii) (s : string) : nat :=
  match s with
  | "" => 0
  | String a r => (if Ascii.eqb a ch then 1 else 0) + count ch r
  end.

(** The text before the first [ch] (all of [s] without one). *)
Fixpoint before (ch : ascii) (s : string) : string :=
  match s with
  | "" => ""
  | String a r => if Ascii.eqb a ch then "" else String a (before ch r)
  end.

(** The text after the first [ch] (empty without one). *)
Fixpoint after (ch : ascii) (s : string) : string :=
  match s with
  | "" => ""
  | String a r => if Ascii.eqb a ch then r else after ch r
  end.

(** [isspace] in the C locale. *)
Definition isspace (a : ascii) : bool :=
  let n := nat_of_ascii a in
  Nat.eqb n 32 || (Nat.leb 9 n && Nat.leb n 13).

End Str.

(** ** Helpers of libbase *)

Module Base.

(** Modelled from the spec: [android::base::Split] (libbase, not part of
    the sources at hand) splits on every occurrence of a delimiter
    character and keeps empty pieces, so a string with [n] delimiters gives
    [n + 1] pieces and the empty string gives one empty piece. *)
Fixpoint Split (s delimiters : string) : list string :=
  match s with
  | "" => [""]
  | String a r =>
      if Str.mem a delimiters then "" :: Split r delimiters
      else match Split r delimiters with
           | p :: ps => String a p :: ps
           | [] => [String a ""]
           end
  end.

Fixpoint ltrim (s : string) : string :=
  match s with
  | "" => ""
  | String a r => if Str.isspace a then ltrim r else s
  end.

Fixpoint rtrim (s : string) : string :=
  match s with
  | "" => ""
  | String a r =>
      match rtrim r with
      | "" => if Str.isspace a then "" else String a ""
      | r' => String a r'
      end
  end.

(** Modelled from the spec: [android::base::Trim] (libbase) removes the
    surrounding whitespace. *)
Definition Trim (s : string) : string := rtrim (ltrim s).

(** Modelled from the spec: [android::base::StartsWith] (libbase). *)
Definition StartsWith (s pre : string) : bool := Str.starts_with pre s.

End Base.

(** ** The world: a file system and the trace of external calls *)

Module Sys.

Inductive node : Type :=
| Dir
| File (content : string).

Inductive errno : Type :=
| ENOENT | EEXIST | ENOTDIR | EISDIR
| ENAMETOOLONG | EACCES | ENOSPC | EROFS | EIO.

(** The result of a call that returns 0 or -1 and sets [errno]. *)
Inductive res : Type :=
| Ok
| Err (e : errno).

Inductive event : Type :=
| EvRead (path : string)
| EvStat (path : string)
| EvMkdir (path : string)
| EvOpen (path : string)
| EvWrite (fd : list string) (content : string).

(** Files are keyed by their resolved components; the root directory is
    not stored, it always exists. Beside the tree the world tells what the
    system refuses: [refused e] is the error number the call [e] fails
    with when the system refuses it, and [written e] the number of bytes
    a refused write has written before it failed. *)
Record World : Type := mkWorld {
  fs : gmap (list string) node;
  trace : list event;
  refused : event -> option errno;
  written : event -> nat
}.

Definition M (A : Type) : Type := World -> A * World.

Definition ret {A : Type} (a : A) : M A := fun w => (a, w).

Definition bind {A B : Type} (m : M A) (k : A -> M B) : M B :=
  fun w => let (a, w') := m w in k a w'.

Definition emit (e : event) : M unit :=
  fun w => (tt, mkWorld (fs w) (trace w ++ [e]) (refused w) (written w)).

Definition get_fs : M (gmap (list string) node) := fun w => (fs w, w).

Definition put (cs : list string) (n : node) : M unit :=
  fun w => (tt, mkWorld (<[cs := n]> (fs w)) (trace w) (refused w) (written w)).

Definition refusal (e : event) : M (option errno) := fun w => (refused w e, w).

Definition short (e : event) : M nat := fun w => (written w e, w).

End Sys.

Import Sys.

Notation "'do' x <~ m ;; k" := (bind m (fun x => k))
  (at level 10, x name, m at level 99, k at level 200, only parsing).
Notation "m ;;; k" := (bind m (fun _ => k))
  (at level 100, k at level 200, right associativity, only parsing).

(** Monadic left fold: a [for] loop over a list whose body threads an
    accumulator. *)
Fixpoint foldM {A B : Type} (f : A -> B -> M A) (a : A) (l : list B) : M A :=
  match l with
  | [] => ret a
  | x :: r => do a' <~ f a x ;; foldM f a' r
  end.

Module Path.

Fixpoint ends_with_slash (p : string) : bool :=
  match p with
  | "" => false
  | String a "" => Ascii.eqb a "/"
  | String _ r => ends_with_slash r
  end.

(** The components of a path read from the root (the working directory
    of init) without looking at the tree: empty and [.] components
    vanish, [..] goes up and stays at the root. *)
Fixpoint norm (cs : list string) (acc : list string) : list string :=
  match cs with
  | [] => rev acc
  | c :: r =>
      if String.eqb c "" || String.eqb c "." then norm r acc
      else if String.eqb c ".." then norm r (tail acc)
      else norm r (c :: acc)
  end.

Definition node_at (f : gmap (list string) node) (cs : list string) : option node :=
  match cs with
  | [] => Some Dir
  | _ => f !! cs
  end.

Definition parent (cs : list string) : list string := removelast cs.

(** Resolution of the components of a path over the tree, from the root:
    an empty component vanishes and a name goes down; [.] stays and [..]
    goes up, staying at the root, and both are answered only in a
    directory that exists: where nothing is the error is [ENOENT], in a
    regular file it is [ENOTDIR]. *)
Fixpoint walk (f : gmap (list string) node) (cs : list string) (acc : list string)
  : errno + list string :=
  match cs with
  | [] => inr (rev acc)
  | c :: r =>
      if String.eqb c "" then walk f r acc
      else if String.eqb c "." || String.eqb c ".." then
        match node_at f (rev acc) with
        | Some Dir => walk f r (if String.eqb c "." then acc else tail acc)
        | Some (File _) => inl ENOTDIR
        | None => inl ENOENT
        end
      else walk f r (c :: acc)
  end.

(** The empty path names nothing. *)
Definition resolve (f : gmap (list string) node) (p : string) : errno + list string :=
  if String.eqb p "" then inl ENOENT else walk f (Base.Split p "/") [].

(** What a path names: nothing when it does not resolve, and nothing when
    it ends in a slash and names a regular file. *)
Definition lookup (f : gmap (list string) node) (p : string) : option node :=
  match resolve f p with
  | inl _ => None
  | inr cs =>
      match node_at f cs with
      | Some (File c) => if ends_with_slash p then None else Some (File c)
      | o => o
      end
  end.

End Path.

(** ** System calls, on C strings *)

Module Libc.

(** [stat(path, &info)]: [None] for -1. *)
Definition stat (path : string) : M (option node) :=
  emit (EvStat path) ;;;
  do f <~ get_fs ;;
  ret (Path.lookup f path).

Definition S_ISDIR (n : node) : bool :=
  match n with
  | Dir => true
  | File _ => false
  end.

(** [mkdir(path, mode)]: refused by the system, or answered from the
    tree. *)
Definition mkdir (path : string) (mode : nat) : M res :=
  emit (EvMkdir path) ;;;
  do no <~ refusal (EvMkdir path) ;;
  match no with
  | Some e => ret (Err e)
  | None =>
      do f <~ get_fs ;;
      match Path.resolve f path with
      | inl e => ret (Err e)
      | inr cs =>
          match Path.node_at f cs with
          | Some _ => ret (Err EEXIST)
          | None =>
              match Path.node_at f (Path.parent cs) with
              | Some Dir => put cs Dir ;;; ret Ok
              | Some (File _) => ret (Err ENOTDIR)
              | None => ret (Err ENOENT)
              end
          end
      end
  end.

(** [open(path, O_WRONLY | O_CREAT | O_NOFOLLOW | O_TRUNC | O_CLOEXEC, 0600)]:
    refused by the system, or answered from the tree; the descriptor is
    the file it is open on, the file is created or emptied. A path that
    ends in a slash cannot be created. *)
Definition open_wr (path : string) : M (errno + list string) :=
  emit (EvOpen path) ;;;
  do no <~ refusal (EvOpen path) ;;
  match no with
  | Some e => ret (inl e)
  | None =>
      do f <~ get_fs ;;
      match Path.resolve f path with
      | inl e => ret (inl e)
      | inr cs =>
          match Path.node_at f cs with
          | Some Dir => ret (inl EISDIR)
          | Some (File _) =>
              if Path.ends_with_slash path then ret (inl EISDIR)
              else put cs (File "") ;;; ret (inr cs)
          | None =>
              if Path.ends_with_slash path then ret (inl EISDIR)
              else match Path.node_at f (Path.parent cs) with
                   | Some Dir => put cs (File "") ;;; ret (inr cs)
                   | Some (File _) => ret (inl ENOTDIR)
                   | None => ret (inl ENOENT)
                   end
          end
      end
  end.

Definition strerror (e : errno) : string :=
  match e with
  | ENOENT => "No such file or directory"
  | EEXIST => "File exists"
  | ENOTDIR => "Not a directory"
  | EISDIR => "Is a directory"
  | ENAMETOOLONG => "File name too long"
  | EACCES => "Permission denied"
  | ENOSPC => "No space left on device"
  | EROFS => "Read-only file system"
  | EIO => "Input/output error"
  end.

(** [s] without its trailing slashes. *)
Fixpoint rstrip_slash (s : string) : string :=
  match s with
  | "" => ""
  | String a r =>
      match rstrip_slash r with
      | "" => if Ascii.eqb a "/" then "" else String a ""
      | r' => String a r'
      end
  end.

(** [s] up to its last slash, the slash included. *)
Fixpoint upto_last_slash (s : string) : string :=
  match s with
  | "" => ""
  | String a r =>
      if Str.mem "/" r then String a (upto_last_slash r)
      else if Ascii.eqb a "/" then "/" else ""
  end.

(** [dirname(path)] of POSIX. *)
Definition dirname (path : string) : string :=
  let s1 := rstrip_slash path in
  if String.eqb s1 "" then (if String.eqb path "" then "." else "/")
  else if negb (Str.mem "/" s1) then "."
  else let s2 := rstrip_slash (upto_last_slash s1) in
       if String.eqb s2 "" then "/" else s2.

End Libc.

Module BaseIO.

(** Modelled from the spec: [android::base::ReadFileToString] (libbase)
    clears the content, reads the whole file and leaves the content empty
    when the file cannot be read. *)
Definition ReadFileToString (path : string) : M (bool * string) :=
  emit (EvRead (Str.c_str path)) ;;;
  do f <~ get_fs ;;
  match Path.lookup f (Str.c_str path) with
  | Some (File c) => ret (true, c)
  | _ => ret (false, "")
  end.

(** Modelled from the spec: [android::base::WriteStringToFd] (libbase)
    writes the content to the descriptor, a file just opened and emptied,
    with [write] until nothing is left, and returns false when a [write]
    fails, with its [errno]: [Ok] stands for true. A refused write leaves
    less than the content in the file; with nothing to write no [write]
    is made and none can fail. *)
Definition WriteStringToFd (content : string) (fd : list string) : M res :=
  emit (EvWrite fd content) ;;;
  do no <~ refusal (EvWrite fd content) ;;
  match (if String.eqb content "" then None else no) with
  | Some e =>
      do n <~ short (EvWrite fd content) ;;
      put fd (File (Str.take (Nat.min n (Nat.pred (String.length content))) content)) ;;;
      ret (Err e)
  | None => put fd (File content) ;;; ret Ok
  end.

(** Modelled from the spec: [android::base::Dirname] (libbase) is
    [dirname] on the path as a C string. *)
Definition Dirname (path : string) : string := Libc.dirname (Str.c_str path).

End BaseIO.

(** ** init/util.cpp *)

Import Libc BaseIO.

Definition kDefaultAndroidDtDir : string := "/proc/device-tree/firmware/android/".

(** [WriteFile(path, content, err)]: the result and the final [*err]. *)
Definition WriteFile (path content : string) : M (bool * string) :=
  do fd <~ open_wr (Str.c_str path) ;;
  match fd with
  | inl e => ret (false, "Unable to open '" ++ path ++ "': " ++ strerror e)
  | inr fd =>
      do wr <~ WriteStringToFd content fd ;;
      match wr with
      | Err e => ret (false, "Unable to write to '" ++ path ++ "': " ++ strerror e)
      | Ok => ret (true, "")
      end
  end.

(** [make_dir(path, mode, sehandle)] with the null [sehandle] every caller
    in this file passes. *)
Definition make_dir (path : string) (mode : nat) : M res := mkdir path mode.

(** The positions of [ch] in [s], counted from [i] for its first character. *)
Fixpoint positions (ch : ascii) (i : nat) (s : string) : list nat :=
  match s with
  | "" => []
  | String a r =>
      if Ascii.eqb a ch then i :: positions ch (S i) r else positions ch (S i) r
  end.

(** The [while] loop of [mkdir_recursive] over the positions
    [path.find('/', slash + 1)] returns one after the other; [inl ret] is
    the early [return ret]. *)
Fixpoint mkdir_recursive_loop (path : string) (mode : nat) (slashes : list nat)
  : M (Z + unit) :=
  match slashes with
  | [] => ret (inr tt)
  | slash :: rest =>
      let directory := Str.substr_to slash path in
      do info <~ stat (Str.c_str directory) ;;
      match info with
      | Some _ => mkdir_recursive_loop path mode rest
      | None =>
          do r <~ make_dir (Str.c_str directory) mode ;;
          match r with
          | Ok | Err EEXIST => mkdir_recursive_loop path mode rest
          | Err _ => ret (inl (-1)%Z)
          end
      end
  end.

Definition mkdir_recursive (path : string) (mode : nat) : M Z :=
  do early <~ mkdir_recursive_loop path mode (positions "/" 1 (Str.next path)) ;;
  match early with
  | inl r => ret r
  | inr _ =>
      do r <~ make_dir (Str.c_str path) mode ;;
      match r with
      | Ok | Err EEXIST => ret 0%Z
      | Err _ => ret (-1)%Z
      end
  end.

(** [import_kernel_cmdline(in_qemu, fn)]; [env] is what [fn] captures. *)
Definition import_kernel_cmdline {A : Type} (in_qemu : bool)
    (fn : string -> string -> bool -> A -> M A) (env : A) : M A :=
  do rd <~ ReadFileToString "/proc/cmdline" ;;
  let cmdline := snd rd in
  foldM (fun env entry =>
           let pieces := Base.Split entry "=" in
           if Nat.eqb (length pieces) 2
           then fn (nth 0 pieces "") (nth 1 pieces "") in_qemu env
           else ret env)
        env (Base.Split (Base.Trim cmdline) " ").

(** [is_dir(pathname)]. *)
Definition is_dir (pathname : string) : M bool :=
  do info <~ stat pathname ;;
  match info with
  | None => ret false
  | Some n => ret (S_ISDIR n)
  end.

(** [create_dt_file_by_cmdline(key, value, for_emulator, rootdir)]. *)
Definition create_dt_file_by_cmdline (key value : string) (for_emulator : bool)
    (rootdir : string) : M unit :=
  if String.eqb key "" then ret tt
  else if Base.StartsWith key "android.fw." then
    let file_path := Str.c_str rootdir ++ "/" ++ Str.advance 11 (Str.c_str key) in
    let file_path := Str.replace "." "/" file_path in
    mkdir_recursive (Str.c_str (Dirname file_path)) 448 ;;;
    let file_content := value ++ String "010" "" in
    WriteFile (Str.c_str file_path) (Str.c_str file_content) ;;;
    ret tt
  else ret tt.

(** The loop of [get_acpi_cfg_path_from_cmdline], which returns at the
    first match. *)
Fixpoint acpi_cfg_path_of (entries : list string) : string :=
  match entries with
  | [] => "/sys/devices/system/container/ACPI0004:00/firmware_node"
  | entry :: rest =>
      let pieces := Base.Split entry "=" in
      if Nat.eqb (length pieces) 2 && String.eqb "android.acpi.cfg.root" (nth 0 pieces "")
      then nth 1 pieces ""
      else acpi_cfg_path_of rest
  end.

Definition get_acpi_cfg_path_from_cmdline : M string :=
  do rd <~ ReadFileToString "/proc/cmdline" ;;
  let cmdline := snd rd in
  ret (acpi_cfg_path_of (Base.Split (Base.Trim cmdline) " ")).

(** [import_acpi_cmdline(in_qemu, fn, rootdir)]. *)
Definition import_acpi_cmdline {A : Type} (in_qemu : bool)
    (fn : string -> string -> bool -> string -> A -> M A) (rootdir : string)
    (env : A) : M (bool * A) :=
  do acpi_cfg_path <~ get_acpi_cfg_path_from_cmdline ;;
  do rd <~ ReadFileToString (acpi_cfg_path ++ "/path") ;;
  let cmdline := snd rd in
  match Str.find "CFG0" cmdline with
  | None => ret (false, env)
  | Some found =>
      do rd <~ ReadFileToString (acpi_cfg_path ++ "/description") ;;
      let cmdline := Str.replace "010" " " (snd rd) in
      do env' <~ foldM (fun env entry =>
                          let pieces := Base.Split entry "=" in
                          if Nat.eqb (length pieces) 2
                          then fn (nth 0 pieces "") (nth 1 pieces "") in_qemu rootdir env
                          else ret env)
                       env (Base.Split (Base.Trim cmdline) " ") ;;
      ret (true, env')
  end.

(** The lambda [init_android_dt_dir] passes to the tokenizer; it captures
    [android_dt_dir] by reference. *)
Definition set_android_dt_dir (key value : string) (in_qemu : bool)
    (android_dt_dir : string) : M string :=
  if String.eqb key "androidboot.android_dt_dir" then ret value
  else ret android_dt_dir.

(** [create_dt_file_by_cmdline] as a callback: it captures nothing. *)
Definition synthesize (key value : string) (for_emulator : bool) (rootdir : string)
    (_ : unit) : M unit :=
  create_dt_file_by_cmdline key value for_emulator rootdir.

(** [init_android_dt_dir()]. *)
Definition init_android_dt_dir : M string :=
  let android_dt_dir := kDefaultAndroidDtDir in
  do d <~ is_dir (Str.c_str kDefaultAndroidDtDir) ;;
  if negb d then
    do android_dt_dir <~
      import_kernel_cmdline false set_android_dt_dir android_dt_dir ;;
    let android_dt_dir :=
      if String.eqb android_dt_dir kDefaultAndroidDtDir
      then "/dev/device-tree/firmware/android/"
      else android_dt_dir in
    do d <~ is_dir (Str.c_str android_dt_dir) ;;
    if negb d then
      import_acpi_cmdline false synthesize android_dt_dir tt ;;;
      ret android_dt_dir
    else ret android_dt_dir
  else ret android_dt_dir.


(** ** The property expander *)

(** Modelled from the spec: [android::base::GetProperty] (libbase) looks
    the key up in the property store and gives the default for a property
    that is unset or empty. The store is a function from names to values,
    empty for an unset property. *)
Definition GetProperty (props : string -> string) (key default_value : string) : string :=
  if String.eqb (props key) "" then default_value else props key.

(** The outcome of one run of the [while] loop: the value returned and the
    final content of [*dst]. *)
Definition outcome : Type := bool * string.

(** One iteration of the [while] loop of [expand_props], entered with
    [*src_ptr] not NUL; [continue_at src_ptr dst] is the rest of the loop
    after [src_ptr] and [*dst] are updated. *)
Definition expand_step (props : string -> string)
    (continue_at : string -> string -> option outcome)
    (src_ptr dst : string) : option outcome :=
  match Str.strchr src_ptr "$" with
  | None => Some (true, dst ++ src_ptr)
  | Some c =>
      let dst := dst ++ Str.range src_ptr c in
      let c := Str.next c in
      if Ascii.eqb (Str.deref c) "$" then
        continue_at (Str.next c) (dst ++ String (Str.deref c) "")
      else if Ascii.eqb (Str.deref c) Str.NUL then Some (true, dst)
      else
        let parsed :=
          if Ascii.eqb (Str.deref c) "{" then
            let c := Str.next c in
            match Str.strchr c "}" with
            | None => None
            | Some end_ =>
                let prop_name := Str.range c end_ in
                let c := Str.next end_ in
                match Str.find ":-" prop_name with
                | Some def =>
                    Some (Str.substr_to def prop_name,
                          Str.substr_from (def + 2) prop_name, c)
                | None => Some (prop_name, "", c)
                end
            end
          else
            let prop_name := c in
            Some (prop_name, "", Str.advance (String.length prop_name) c) in
        match parsed with
        | None => Some (false, dst)
        | Some (prop_name, def_val, c) =>
            if String.eqb prop_name "" then Some (false, dst)
            else
              let prop_val := GetProperty props prop_name "" in
              if String.eqb prop_val "" then
                if String.eqb def_val "" then Some (false, dst)
                else continue_at c (dst ++ def_val)
              else continue_at c (dst ++ prop_val)
        end
  end.

(** The loop itself, which ends when [*src_ptr] is NUL; [None] only when
    the fuel runs out. *)
Fixpoint expand_loop (props : string -> string) (fuel : nat)
    (src_ptr dst : string) : option outcome :=
  match fuel with
  | O => None
  | S fuel' =>
      if Ascii.eqb (Str.deref src_ptr) Str.NUL then Some (true, dst)
      else expand_step props (expand_loop props fuel') src_ptr dst
  end.

(** The loop started at [src_ptr] with enough fuel for every iteration:
    each one consumes at least one character. *)
Definition expand_from (props : string -> string) (src_ptr dst : string)
  : option outcome :=
  expand_loop props (S (String.length src_ptr)) src_ptr dst.

(** [expand_props(src, dst)]: [dst] is [None] for the null pointer and holds
    the content of the destination otherwise. *)
Definition expand_props (props : string -> string) (src : string)
    (dst : option string) : option (bool * option string) :=
  match dst with
  | None => Some (false, None)
  | Some d =>
      match expand_from props (Str.c_str src) d with
      | Some (ok, d') => Some (ok, Some d')
      | None => None
      end
  end.

(** [get_android_dt_dir()]: the function-local static [kAndroidDtDir] is
    [None] until the first call has initialised it; the calls are taken
    one after the other. *)
Definition get_android_dt_dir (kAndroidDtDir : option string)
  : M (string * option string) :=
  match kAndroidDtDir with
  | Some dir => ret (dir, Some dir)
  | None =>
      do dir <~ init_android_dt_dir ;;
      ret (dir, Some dir)
  end.

(** [s.pop_back()] for a non-empty [s]. *)
Definition pop_back (s : string) : string := Str.take (String.length s - 1) s.

(** [read_android_dt_file(sub_path, dt_content)]: the result, the final
    [*dt_content] and the static of [get_android_dt_dir]. *)
Definition read_android_dt_file (sub_path : string) (kAndroidDtDir : option string)
  : M (bool * string * option string) :=
  do r <~ get_android_dt_dir kAndroidDtDir ;;
  let file_name := fst r ++ sub_path in
  do rd <~ ReadFileToString file_name ;;
  if fst rd then
    if negb (String.eqb (snd rd) "") then ret (true, pop_back (snd rd), snd r)
    else ret (false, snd rd, snd r)
  else ret (false, snd rd, snd r).

(** ** More of init/util.cpp: reading files, expected values, hex dumps *)

(** The write bits of [<sys/stat.h>] for the group and for others. *)
Definition S_IWGRP : Z := 16.
Definition S_IWOTH : Z := 2.

Module LibcRead.

(** [open(path, O_RDONLY | O_NOFOLLOW | O_CLOEXEC)]: the descriptor is the
    path it was opened with and the file it is open on; a directory can be
    opened for reading. *)
Definition open_rd (path : string) : M (errno + string * list string) :=
  emit (EvOpen path) ;;;
  do f <~ get_fs ;;
  match Path.resolve f path with
  | inl e => ret (inl e)
  | inr cs =>
      match Path.node_at f cs with
      | Some Dir => ret (inr (path, cs))
      | Some (File _) =>
          if Path.ends_with_slash path then ret (inl ENOTDIR)
          else ret (inr (path, cs))
      | None =>
          match Path.node_at f (Path.parent cs) with
          | Some (File _) => ret (inl ENOTDIR)
          | _ => ret (inl ENOENT)
          end
      end
  end.

(** [fstat(fd, &sb)] on an open descriptor, for [sb.st_mode]; the modes
    of the files are a table beside the world. *)
Definition fstat (st_mode : list string -> Z) (fd : string * list string)
  : M (errno + Z) :=
  emit (EvStat (fst fd)) ;;;
  ret (inr (st_mode (snd fd))).

End LibcRead.

Import LibcRead.

(** Modelled from the spec: [android::base::ReadFdToString] (libbase)
    clears the content and reads the descriptor to its end; reading a
    directory fails. *)
Definition ReadFdToString (fd : string * list string) : M (errno + string) :=
  emit (EvRead (fst fd)) ;;;
  do f <~ get_fs ;;
  match Path.node_at f (snd fd) with
  | Some (File c) => ret (inr c)
  | _ => ret (inl EISDIR)
  end.

(** [ReadFile(path, content, err)]: the result, the final [*content] and
    the final [*err]. *)
Definition ReadFile (st_mode : list string -> Z) (path : string)
  : M (bool * string * string) :=
  do fd <~ open_rd (Str.c_str path) ;;
  match fd with
  | inl e => ret (false, "", "Unable to open '" ++ path ++ "': " ++ strerror e)
  | inr fd =>
      do sb <~ fstat st_mode fd ;;
      match sb with
      | inl e => ret (false, "", "fstat failed for '" ++ path ++ "': " ++ strerror e)
      | inr sb_st_mode =>
          if negb (Z.eqb (Z.land sb_st_mode (Z.lor S_IWGRP S_IWOTH)) 0)
          then ret (false, "", "Skipping insecure file '" ++ path ++ "'")
          else
            do rd <~ ReadFdToString fd ;;
            match rd with
            | inl e => ret (false, "", "Unable to read '" ++ path ++ "': " ++ strerror e)
            | inr content => ret (true, content, "")
            end
      end
  end.

(** [is_android_dt_value_expected(sub_path, expected_content)]: the result
    and the static of [get_android_dt_dir]. *)
Definition is_android_dt_value_expected (sub_path expected_content : string)
    (kAndroidDtDir : option string) : M (bool * option string) :=
  do r <~ read_android_dt_file sub_path kAndroidDtDir ;;
  let dt_content := snd (fst r) in
  if fst (fst r) then
    if String.eqb dt_content expected_content then ret (true, snd r)
    else ret (false, snd r)
  else ret (false, snd r).

(** The digit [printf] writes for a value below 16 under [%x]. *)
Definition hex_digit (n : N) : ascii :=
  match n with
  | 0%N => "0" | 1%N => "1" | 2%N => "2" | 3%N => "3"
  | 4%N => "4" | 5%N => "5" | 6%N => "6" | 7%N => "7"
  | 8%N => "8" | 9%N => "9" | 10%N => "a" | 11%N => "b"
  | 12%N => "c" | 13%N => "d" | 14%N => "e" | _ => "f"
  end%char.

(** Modelled from the spec: [android::base::StringAppendF(&hex, "%02x", b)]
    (libbase) appends what [printf] writes for [%02x]: the two lower-case
    hexadecimal digits of the byte. *)
Definition StringAppendF_02x (hex : string) (b : Byte.byte) : string :=
  hex ++ String (hex_digit (N.div (Byte.to_N b) 16))
           (String (hex_digit (N.modulo (Byte.to_N b) 16)) "").

(** [bytes_to_hex(bytes, bytes_len)], the bytes as the list of the
    [bytes_len] bytes at [bytes]. *)
Definition bytes_to_hex (bytes : list Byte.byte) : string :=
  fold_left StringAppendF_02x bytes "0x".

(** ** The tokenizer *)

(** What the specification says the tokenizer accepts: of the tokens
    between the spaces of the trimmed command line, those with exactly one
    [=], as the text before it and the text after it. *)
Definition accepted_pair (token : string) : option (string * string) :=
  if Nat.eqb (Str.count "=" token) 1
  then Some (Str.before "=" token, Str.after "=" token)
  else None.

Definition accepted_pairs (cmdline : string) : list (string * string) :=
  omap accepted_pair (Base.Split (Base.Trim cmdline) " ").

(** The content [ReadFileToString] gives for a path in a world. *)
Definition content_of (path : string) (w : World) : string :=
  snd (fst (ReadFileToString path w)).

(** A callback that only records its arguments. *)
Definition record_call (key value : string) (in_qemu : bool)
    (calls : list (string * string * bool)) : M (list (string * string * bool)) :=
  ret (calls ++ [(key, value, in_qemu)])%list.


(** What a braced reference [${body}] stands for, in the specification's
    words: the body is split at its first [:-] into the property key and a
    default; an empty key is an error; a non-empty value of the key is the
    substitution; for an empty value a non-empty default is, and nothing is
    for an empty or absent default. *)
Definition ref_key (body : string) : string :=
  match Str.find ":-" body with
  | Some i => Str.take i body
  | None => body
  end.

Definition ref_default (body : string) : string :=
  match Str.find ":-" body with
  | Some i => Str.advance (i + 2) body
  | None => ""
  end.

Definition resolve_ref (props : string -> string) (body : string) : option string :=
  if String.eqb (ref_key body) "" then None
  else if negb (String.eqb (props (ref_key body)) "") then Some (props (ref_key body))
  else if negb (String.eqb (ref_default body) "") then Some (ref_default body)
  else None.

(** The pieces of a template before a reference that fails: literal text,
    the escape [$$] and braced references. *)
Inductive item : Type :=
| Lit (text : string)
| Escape
| Ref (body : string).

Definition render (i : item) : string :=
  match i with
  | Lit text => text
  | Escape => "$$"
  | Ref body => "${" ++ body ++ "}"
  end.

Definition item_ok (i : item) : bool :=
  match i with
  | Lit text => negb (Str.mem "$" text) && negb (Str.mem Str.NUL text)
  | Escape => true
  | Ref body => negb (Str.mem "}" body) && negb (Str.mem Str.NUL body)
  end.

Definition expansion (props : string -> string) (i : item) : option string :=
  match i with
  | Lit text => Some text
  | Escape => Some "$"
  | Ref body => resolve_ref props body
  end.

Fixpoint render_all (items : list item) : string :=
  match items with
  | [] => ""
  | i :: r => render i ++ render_all r
  end.

(** The expansion of a sequence of items, when each of them has one. *)
Fixpoint expansion_all (props : string -> string) (items : list item) : option string :=
  match items with
  | [] => Some ""
  | i :: r =>
      match expansion props i, expansion_all props r with
      | Some a, Some b => Some (a ++ b)
      | _, _ => None
      end
  end.

(** A reference at which the expansion fails, with everything after it:
    an opening brace that is never closed, a braced reference without a
    substitution, or a bare name without a value. *)
Inductive failing : Type :=
| Unclosed (tail : string)
| BadRef (body rest : string)
| BareUnset (name : string).

Definition render_failing (f : failing) : string :=
  match f with
  | Unclosed tail => "${" ++ tail
  | BadRef body rest => "${" ++ body ++ "}" ++ rest
  | BareUnset name => "$" ++ name
  end.

Definition bare_start (name : string) : bool :=
  negb (Ascii.eqb (Str.deref name) "$") && negb (Ascii.eqb (Str.deref name) "{")
  && negb (Ascii.eqb (Str.deref name) Str.NUL).

Definition fails (props : string -> string) (f : failing) : bool :=
  match f with
  | Unclosed tail => negb (Str.mem "}" tail) && negb (Str.mem Str.NUL tail)
  | BadRef body rest =>
      negb (Str.mem "}" body) && negb (Str.mem Str.NUL body)
      && match resolve_ref props body with
         | None => true
         | Some _ => false
         end
  | BareUnset name =>
      bare_start name && negb (Str.mem Str.NUL name) && String.eqb (props name) ""
  end.

(** A property store with nothing set, and one with [x] set. *)
Definition no_props : string -> string := fun _ => "".

Definition x_props : string -> string :=
  fun key => if String.eqb key "x" then "VAL" else "".

(** ** Worlds as the specification talks about them *)

(** A world after further external calls that change no file. *)
Definition add_events (w : World) (evs : list event) : World :=
  mkWorld (fs w) (trace w ++ evs) (refused w) (written w).

(** The path names an existing directory. *)
Definition dir_exists (w : World) (path : string) : bool :=
  match Path.lookup (fs w) path with
  | Some Dir => true
  | _ => false
  end.

(** [s] contains [needle]. *)
Definition contains (needle s : string) : bool :=
  match Str.find needle s with
  | Some _ => true
  | None => false
  end.

Definition secondary_dt_dir : string := "/dev/device-tree/firmware/android/".

Definition is_override (kv : string * string) : bool :=
  String.eqb (fst kv) "androidboot.android_dt_dir".

(** The override the command line gives: the value of the last accepted
    pair with the override key. *)
Definition override_of (cmdline : string) : option string :=
  last (map snd (List.filter is_override (accepted_pairs cmdline))).

(** The candidate directory when the canonical one is absent: the override,
    unless there is none or it is the canonical path itself. *)
Definition candidate_of (cmdline : string) : string :=
  match override_of cmdline with
  | Some v => if String.eqb v kDefaultAndroidDtDir then secondary_dt_dir else v
  | None => secondary_dt_dir
  end.

(** The ACPI sysfs root the command line of a world gives. *)
Definition acpi_root (w : World) : string :=
  acpi_cfg_path_of (Base.Split (Base.Trim (content_of "/proc/cmdline" w)) " ").

(** The system refuses no call. *)
Definition quiet (w : World) : Prop := forall e, refused w e = None.

(** A world with the given files and directories and an empty trace, in
    which the system refuses nothing. *)
Definition world_of (entries : list (list string * node)) : World :=
  mkWorld (list_to_map entries) [] (fun _ => None) (fun _ => 0).

(** A synthesis callback that only records its arguments. *)
Definition record_acpi_call (key value : string) (in_qemu : bool) (rootdir : string)
    (calls : list (string * string * bool * string))
  : M (list (string * string * bool * string)) :=
  ret (calls ++ [(key, value, in_qemu, rootdir)])%list.

(** Sample worlds: a command line, without and with the ACPI node at its
    default place. *)
Definition cmdline_world (cmdline : string) : World :=
  world_of [(["proc"], Dir); (["proc"; "cmdline"], File cmdline)].

Definition acpi_node : list string :=
  ["sys"; "devices"; "system"; "container"; "ACPI0004:00"; "firmware_node"].

Definition acpi_world (cmdline path description : string) : World :=
  world_of [(["proc"], Dir); (["proc"; "cmdline"], File cmdline);
            (["sys"], Dir); (["sys"; "devices"], Dir);
            (["sys"; "devices"; "system"], Dir);
            (["sys"; "devices"; "system"; "container"], Dir);
            (["sys"; "devices"; "system"; "container"; "ACPI0004:00"], Dir);
            (acpi_node, Dir);
            ((acpi_node ++ ["path"])%list, File path);
            ((acpi_node ++ ["description"])%list, File description)].

(** A command line whose override is the canonical path itself, and one
    with the override given twice. *)
Definition canonical_override_world : World :=
  cmdline_world "androidboot.android_dt_dir=/proc/device-tree/firmware/android/".

Definition two_overrides_world : World :=
  cmdline_world
    "androidboot.android_dt_dir=/a androidboot.android_dt_dir=/proc/device-tree/firmware/android/".

(** A device whose command line puts the Android DT directory at a path
    with a dot, and whose ACPI node describes one firmware value. *)
Definition dotted_root_world : World :=
  acpi_world "androidboot.android_dt_dir=/tmp/dt.d/" "\_SB_.CFG0"
             ("android.fw.display.panel=oled" ++ String "010" "").

Definition newline : string := String "010" "".

(** The components a path resolves to, when it resolves. *)
Definition comps (p : string) : list string := Path.norm (Base.Split p "/") [].

Definition nonempty (c : string) : bool := negb (String.eqb c "").

(** A component that is neither [.] nor [..]. *)
Definition plain (c : string) : bool :=
  negb (String.eqb c ".") && negb (String.eqb c "..").

(** Every directory on the way to [cs], and [cs] itself, exists. *)
Definition dirs_ok (f : gmap (list string) node) (cs : list string) : Prop :=
  forall k, Path.node_at f (take k cs) = Some Dir.

(** No regular file is in the way to [cs] or at [cs]. *)
Definition no_files (f : gmap (list string) node) (cs : list string) : Prop :=
  forall k c, f !! take k cs <> Some (File c).

(** [f'] is [f] with directories added on the way to [cs]. *)
Definition grown (f f' : gmap (list string) node) (cs : list string) : Prop :=
  forall q, f' !! q = f !! q \/ (f' !! q = Some Dir /\ exists k, q = take k cs).

(** The way to the file [cs] is free: no regular file above it, and no
    directory in its place. *)
Definition clear_way (f : gmap (list string) node) (cs : list string) : bool :=
  forallb (fun k => match f !! take k cs with
                    | Some (File _) => false
                    | _ => true
                    end) (seq 0 (length cs))
  && match f !! cs with
     | Some Dir => false
     | _ => true
     end.

(** [n] slashes. *)
Fixpoint slashes (n : nat) : string :=
  match n with
  | O => ""
  | S m => String "/" (slashes m)
  end.

(** ** Words for the further properties *)

(** Every character of [s] satisfies [p]. *)
Fixpoint all_chars (p : ascii -> bool) (s : string) : bool :=
  match s with
  | "" => true
  | String a r => p a && all_chars p r
  end.

(** Only whitespace, and no whitespace at all. *)
Definition blank (s : string) : bool := all_chars Str.isspace s.

Definition no_space (s : string) : bool := all_chars (fun a => negb (Str.isspace a)) s.

(** Tokens written one after the other with one space between them. *)
Fixpoint join (ts : list string) : string :=
  match ts with
  | [] => ""
  | [t] => t
  | t :: r => t ++ " " ++ join r
  end.

(** A token of a command line: not empty and without whitespace. *)
Definition token_ok (t : string) : bool := negb (String.eqb t "") && no_space t.

Definition is_acpi_root (kv : string * string) : bool :=
  String.eqb "android.acpi.cfg.root" (fst kv).

Definition default_acpi_root : string :=
  "/sys/devices/system/container/ACPI0004:00/firmware_node".

(** An ACPI node whose description holds two assignments on two lines. *)
Definition two_lines_world : World :=
  acpi_world "quiet" "\_SB_.CFG0"
    ("android.fw.a=1" ++ String "010" "android.fw.b=2").

(** No regular file is at [cs] or above it, as a test. *)
Definition no_files_b (f : gmap (list string) node) (cs : list string) : bool :=
  forallb (fun k => match f !! take k cs with
                    | Some (File _) => false
                    | _ => true
                    end) (seq 0 (S (length cs))).

(** [cs] and everything above it exists, as a test. *)
Definition all_exist_b (f : gmap (list string) node) (cs : list string) : bool :=
  forallb (fun k => match Path.node_at f (take k cs) with
                    | Some _ => true
                    | None => false
                    end) (seq 0 (S (length cs))).

(** A world with the directories [/tmp] and [/tmp/dt], and one in which
    [/tmp/dt] is a regular file. *)
Definition tmp_dt_world : World :=
  world_of [(["tmp"], Dir); (["tmp"; "dt"], Dir)].

Definition tmp_file_world : World :=
  world_of [(["tmp"], Dir); (["tmp"; "dt"], File "x")].

(** The path names something a descriptor can be opened on. *)
Definition path_exists (w : World) (path : string) : bool :=
  match Path.lookup (fs w) path with
  | Some _ => true
  | None => false
  end.

(** The mode grants writing to the group or to others. *)
Definition insecure (mode : Z) : bool := Z.testbit mode 1 || Z.testbit mode 4.

(** A table of modes: [0644] everywhere, and [0664] everywhere. *)
Definition modes_0644 : list string -> Z := fun _ => 420%Z.
Definition modes_0664 : list string -> Z := fun _ => 436%Z.

(** An outcome of the expander with [x] before what it left in the
    destination. *)
Definition prepend (x : string) (r : option outcome) : option outcome :=
  match r with
  | Some (ok, e) => Some (ok, x ++ e)
  | None => None
  end.

(** The value of a lower-case hexadecimal digit. *)
Definition hex_value (a : ascii) : option N :=
  let n := N_of_ascii a in
  if N.leb 48 n && N.leb n 57 then Some (n - 48)%N
  else if N.leb 97 n && N.leb n 102 then Some (n - 87)%N
  else None.

(** The bytes a string of hexadecimal digits stands for, two digits a
    byte. *)
Fixpoint hex_decode (s : string) : option (list Byte.byte) :=
  match s with
  | "" => Some []
  | String h (String l r) =>
      match hex_value h, hex_value l, hex_decode r with
      | Some x, Some y, Some bs =>
          match Byte.of_N (16 * x + y) with
          | Some b => Some (b :: bs)
          | None => None
          end
      | _, _, _ => None
      end
  | String _ "" => None
  end.

(** The bytes written as [0x] and their digits. *)
Definition hex_to_bytes (s : string) : option (list Byte.byte) :=
  match s with
  | String "0" (String "x" r) => hex_decode r
  | _ => None
  end.

(** The digits of the bytes, one byte after the other. *)
Fixpoint hex_digits (bytes : list Byte.byte) : string :=
  match bytes with
  | [] => ""
  | b :: r => StringAppendF_02x "" b ++ hex_digits r
  end.

(** A regular file is at [cs]. *)
Definition is_file (f : gmap (list string) node) (cs : list string) : bool :=
  match Path.node_at f cs with
  | Some (File _) => true
  | _ => false
  end.

(** The world of [tmp_dt_world] on a full device: every write is refused
    after two bytes. *)
Definition full_disk_world : World :=
  mkWorld (fs tmp_dt_world) []
    (fun e => match e with
              | EvWrite _ _ => Some ENOSPC
              | _ => None
              end)
    (fun _ => 2).

(** [f'] is [f] with directories added, and nothing else. *)
Definition only_adds (f f' : gmap (list string) node) : Prop :=
  forall q, f' !! q = f !! q \/ (f !! q = None /\ f' !! q = Some Dir).

(** Nothing of [f] is missing in [f'] and nothing has changed its kind: a
    directory is a directory still, a regular file a regular file. *)
Definition keeps_kinds (f f' : gmap (list string) node) : Prop :=
  forall q, match f !! q with
            | Some Dir => f' !! q = Some Dir
            | Some (File _) => exists c, f' !! q = Some (File c)
            | None => True
            end.

Section SplitFacts.

Variable ch : ascii.

Lemma mem_single (a : ascii) : Str.mem a (String ch "") = Ascii.eqb a ch.
Proof. simpl. rewrite orb_false_r. apply Ascii.eqb_sym. Qed.

Lemma Split_nonempty (s dl : string) : Base.Split s dl <> [].
Proof.
  destruct s as [|a r]; simpl; [discriminate|].
  destruct (Str.mem a dl); [discriminate|].
  destruct (Base.Split r dl); discriminate.
Qed.

Lemma Split_length (s : string) :
  length (Base.Split s (String ch "")) = S (Str.count ch s).
Proof.
  induction s as [|a r IH]; [reflexivity|].
  cbn [Base.Split Str.count]. rewrite mem_single.
  destruct (Ascii.eqb a ch); simpl.
  - now rewrite IH.
  - destruct (Base.Split r (String ch "")) eqn:E; simpl in *; [discriminate|assumption].
Qed.

Lemma Split_no_delimiter (s : string) :
  Str.count ch s = 0 -> Base.Split s (String ch "") = [s].
Proof.
  induction s as [|a r IH]; [reflexivity|].
  cbn [Base.Split Str.count]. rewrite mem_single.
  destruct (Ascii.eqb a ch); simpl; [discriminate|].
  intros H. now rewrite (IH H).
Qed.

Lemma Split_one_delimiter (s : string) :
  Str.count ch s = 1 ->
  Base.Split s (String ch "") = [Str.before ch s; Str.after ch s].
Proof.
  induction s as [|a r IH]; [discriminate|].
  cbn [Base.Split Str.count Str.before Str.after]. rewrite mem_single.
  destruct (Ascii.eqb a ch); simpl; intros H.
  - f_equal. apply Split_no_delimiter. lia.
  - now rewrite (IH H).
Qed.

End SplitFacts.

(** One round of the tokenizing loops, against the specification's rule. *)
Lemma entry_accepted (entry : string) :
  let pieces := Base.Split entry "=" in
  (if Nat.eqb (length pieces) 2 then Some (nth 0 pieces "", nth 1 pieces "") else None)
  = accepted_pair entry.
Proof.
  cbv zeta. unfold accepted_pair.
  rewrite (Split_length "="%char entry). simpl Nat.eqb.
  destruct (Nat.eqb (Str.count "=" entry) 1) eqn:E; [|reflexivity].
  apply Nat.eqb_eq in E.
  now rewrite (Split_one_delimiter "="%char entry E).
Qed.

Lemma foldM_entries {A : Type} (g : string -> string -> A -> M A)
    (entries : list string) (env : A) (w : World) :
  foldM (fun env entry =>
           let pieces := Base.Split entry "=" in
           if Nat.eqb (length pieces) 2
           then g (nth 0 pieces "") (nth 1 pieces "") env
           else ret env) env entries w
  = foldM (fun env kv => g (fst kv) (snd kv) env) env (omap accepted_pair entries) w.
Proof.
  revert env w. induction entries as [|e es IH]; intros env w; [reflexivity|].
  simpl. pose proof (entry_accepted e) as He. cbv zeta in He.
  destruct (accepted_pair e) as [[k v]|] eqn:Ea.
  - destruct (Nat.eqb (length (Base.Split e "=")) 2); [|discriminate].
    injection He as -> ->. simpl. unfold bind.
    destruct (g k v env w) as [env' w']. apply IH.
  - destruct (Nat.eqb (length (Base.Split e "=")) 2); [discriminate|].
    unfold bind, ret. apply IH.
Qed.

Lemma foldM_record (in_qemu : bool) (kvs : list (string * string))
    (calls : list (string * string * bool)) (w : World) :
  foldM (fun env kv => record_call (fst kv) (snd kv) in_qemu env) calls kvs w
  = ((calls ++ map (fun kv => (fst kv, snd kv, in_qemu)) kvs)%list, w).
Proof.
  revert calls. induction kvs as [|kv r IH]; intros calls; simpl.
  - now rewrite app_nil_r.
  - unfold bind, record_call, ret. rewrite IH. now rewrite <- app_assoc.
Qed.

(** The tokenizer run: one read of the command line, then the callback on
    the accepted pairs in their order. *)
Lemma import_kernel_cmdline_run {A : Type} (in_qemu : bool)
    (fn : string -> string -> bool -> A -> M A) (env : A) (w : World) :
  import_kernel_cmdline in_qemu fn env w
  = (do rd <~ ReadFileToString "/proc/cmdline" ;;
     foldM (fun env kv => fn (fst kv) (snd kv) in_qemu env) env
           (accepted_pairs (snd rd))) w.
Proof.
  unfold import_kernel_cmdline, bind.
  destruct (ReadFileToString "/proc/cmdline" w) as [rd w'].
  apply (foldM_entries (fun k v => fn k v in_qemu)).
Qed.

(** C4. [import_kernel_cmdline] reads the command line, trims it, splits
    it on spaces and calls the callback once for each token with exactly
    one [=], in the order of the tokens, with the text before and after
    the [=]; all other tokens are skipped. A callback that records its
    calls therefore ends with exactly the accepted pairs, and the command
    line [a=1 b=2=3 c=4] gives the pairs (a,1) and (c,4). *)
Theorem import_kernel_cmdline_accepted_pairs :
  (forall (A : Type) (in_qemu : bool) (fn : string -> string -> bool -> A -> M A)
          (env : A) (w : World),
      import_kernel_cmdline in_qemu fn env w
      = (do rd <~ ReadFileToString "/proc/cmdline" ;;
         foldM (fun env kv => fn (fst kv) (snd kv) in_qemu env) env
               (accepted_pairs (snd rd))) w)
  /\ (forall (in_qemu : bool) (w : World),
      fst (import_kernel_cmdline in_qemu record_call [] w)
      = map (fun kv => (fst kv, snd kv, in_qemu))
            (accepted_pairs (content_of "/proc/cmdline" w)))
  /\ accepted_pairs "a=1 b=2=3 c=4" = [("a", "1"); ("c", "4")].
Proof.
  split; [intros; apply import_kernel_cmdline_run|]. split; [|reflexivity].
  intros in_qemu w. rewrite import_kernel_cmdline_run. unfold bind, content_of.
  destruct (ReadFileToString "/proc/cmdline" w) as [rd w']. simpl.
  now rewrite foldM_record.
Qed.

(** ** Facts about C strings *)

Section StringFacts.

Lemma append_nil_l (s : string) : "" ++ s = s.
Proof. reflexivity. Qed.

Lemma append_cons (a : ascii) (r s : string) : String a r ++ s = String a (r ++ s).
Proof. reflexivity. Qed.

Lemma append_nil_r (s : string) : s ++ "" = s.
Proof.
  induction s as [|a r IH]; [reflexivity|].
  now rewrite append_cons, IH.
Qed.

Lemma append_assoc (a b c : string) : (a ++ b) ++ c = a ++ b ++ c.
Proof.
  induction a as [|x r IH]; [reflexivity|].
  now rewrite !append_cons, IH.
Qed.

Lemma length_append (a b : string) :
  String.length (a ++ b) = String.length a + String.length b.
Proof.
  induction a as [|x r IH]; [reflexivity|].
  rewrite append_cons. simpl. now rewrite IH.
Qed.

Lemma take_append (a b : string) : Str.take (String.length a) (a ++ b) = a.
Proof.
  induction a as [|x r IH]; [now destruct b|].
  rewrite append_cons. simpl. now rewrite IH.
Qed.

Lemma advance_append (a b : string) : Str.advance (String.length a) (a ++ b) = b.
Proof.
  induction a as [|x r IH]; [reflexivity|].
  rewrite append_cons. simpl. exact IH.
Qed.

Lemma advance_all (a : string) : Str.advance (String.length a) a = "".
Proof. rewrite <- (append_nil_r a) at 2. apply advance_append. Qed.

Lemma range_append (a b : string) : Str.range (a ++ b) b = a.
Proof.
  unfold Str.range. rewrite length_append.
  replace (String.length a + String.length b - String.length b)
    with (String.length a) by lia.
  apply take_append.
Qed.

Lemma mem_append (ch : ascii) (a b : string) :
  Str.mem ch (a ++ b) = Str.mem ch a || Str.mem ch b.
Proof.
  induction a as [|x r IH]; [reflexivity|].
  rewrite append_cons. simpl. rewrite IH. now rewrite orb_assoc.
Qed.

Lemma c_str_id (s : string) : Str.mem Str.NUL s = false -> Str.c_str s = s.
Proof.
  induction s as [|a r IH]; simpl; [reflexivity|].
  destruct (Ascii.eqb a Str.NUL); simpl; [discriminate|].
  intros H. now rewrite (IH H).
Qed.

Lemma strchr_none (ch : ascii) (s : string) :
  Str.mem ch s = false -> Str.strchr s ch = None.
Proof.
  induction s as [|a r IH]; simpl; [reflexivity|].
  destruct (Ascii.eqb a ch); simpl; [discriminate|exact IH].
Qed.

Lemma strchr_append (ch : ascii) (a b : string) :
  Str.mem ch a = false -> Str.strchr (a ++ b) ch = Str.strchr b ch.
Proof.
  induction a as [|x r IH]; [reflexivity|].
  rewrite append_cons. simpl.
  destruct (Ascii.eqb x ch); simpl; [discriminate|exact IH].
Qed.

Lemma strchr_here (ch : ascii) (r : string) :
  Str.strchr (String ch r) ch = Some (String ch r).
Proof. simpl. now rewrite Ascii.eqb_refl. Qed.

(** A pointer [strchr] returns points at [ch], into the string searched. *)
Lemma strchr_some (ch : ascii) (s c : string) :
  Str.strchr s ch = Some c ->
  exists pre r, s = pre ++ c /\ c = String ch r /\ Str.mem ch pre = false.
Proof.
  induction s as [|a r IH]; simpl; [discriminate|].
  destruct (Ascii.eqb a ch) eqn:E.
  - intros [= <-]. apply Ascii.eqb_eq in E as ->.
    now exists "", r.
  - intros H. destruct (IH H) as (pre & r' & -> & -> & Hm).
    exists (String a pre), r'. simpl. now rewrite E.
Qed.

End StringFacts.

Section FindFacts.

Variables c1 c2 : ascii.
Hypothesis c1_c2 : Ascii.eqb c1 c2 = false.

Lemma starts_with_pair (s : string) :
  Str.starts_with (String c1 (String c2 "")) s
  = match s with
    | String x (String y _) => Ascii.eqb c1 x && Ascii.eqb c2 y
    | _ => false
    end.
Proof.
  destruct s as [|x [|y r]]; simpl; try reflexivity.
  - now rewrite andb_false_r.
  - now rewrite andb_true_r.
Qed.

Lemma find_step (s : string) :
  Str.find (String c1 (String c2 "")) s
  = if Str.starts_with (String c1 (String c2 "")) s then Some 0
    else match s with
         | "" => None
         | String _ r => option_map S (Str.find (String c1 (String c2 "")) r)
         end.
Proof. destruct s; reflexivity. Qed.

(** The first occurrence of a pair of distinct characters in a name
    followed by the pair is the one written, when the name has none. *)
Lemma find_written (name rest : string) :
  Str.find (String c1 (String c2 "")) name = None ->
  Str.find (String c1 (String c2 "")) (name ++ String c1 (String c2 "") ++ rest)
  = Some (String.length name).
Proof.
  induction name as [|a r IH].
  - intros _. rewrite append_nil_l, find_step, starts_with_pair.
    rewrite !append_cons, !Ascii.eqb_refl. reflexivity.
  - rewrite find_step, starts_with_pair. intros H.
    assert (Hr : Str.find (String c1 (String c2 "")) r = None).
    { destruct r as [|y r'].
      - reflexivity.
      - destruct (Ascii.eqb c1 a && Ascii.eqb c2 y); [discriminate|].
        now destruct (Str.find (String c1 (String c2 "")) (String y r')). }
    rewrite append_cons, find_step, starts_with_pair, (IH Hr).
    destruct r as [|y r'].
    + rewrite append_nil_l. rewrite append_cons.
      destruct (Ascii.eqb c1 a) eqn:E1; [|reflexivity].
      apply Ascii.eqb_eq in E1 as <-.
      now rewrite (Ascii.eqb_sym c2 c1), c1_c2.
    + rewrite append_cons.
      destruct (Ascii.eqb c1 a && Ascii.eqb c2 y); [discriminate|reflexivity].
Qed.

End FindFacts.

Lemma find_default (name def : string) :
  Str.find ":-" name = None ->
  Str.find ":-" (name ++ ":-" ++ def) = Some (String.length name).
Proof. apply (find_written ":" "-"). reflexivity. Qed.

(** ** The loop of [expand_props] *)

Section ExpandLoop.

Variable props : string -> string.

Lemma length_next (p : string) : String.length (Str.next p) <= String.length p.
Proof. destruct p; simpl; lia. Qed.

(** An iteration either ends the loop with an outcome or continues at a
    pointer further on in the string. *)
Lemma expand_step_cases (p d : string) :
  (exists r, forall f, expand_step props f p d = Some r)
  \/ (exists q d', String.length q < String.length p
                   /\ forall f, expand_step props f p d = f q d').
Proof.
  unfold expand_step.
  destruct (Str.strchr p "$") as [c|] eqn:Hc; [|left; eauto].
  apply strchr_some in Hc as (pre & r & -> & -> & _).
  cbv zeta. cbn [Str.next].
  assert (Hlen : String.length r < String.length (pre ++ String "$" r)).
  { rewrite length_append. simpl. lia. }
  pose proof (length_next r) as Hn.
  destruct (Ascii.eqb (Str.deref r) "$").
  { right. eexists _, _. split; [|reflexivity]. lia. }
  destruct (Ascii.eqb (Str.deref r) Str.NUL); [left; eauto|].
  destruct (Ascii.eqb (Str.deref r) "{").
  - destruct (Str.strchr (Str.next r) "}") as [e|] eqn:He; [|left; eauto].
    apply strchr_some in He as (body & r2 & Hr & -> & _).
    assert (Hlen2 : String.length r2 < String.length (Str.next r)).
    { rewrite Hr, length_append. simpl. lia. }
    rewrite Hr, range_append. cbn [Str.next].
    destruct (Str.find ":-" body) as [def|].
    + destruct (String.eqb (Str.substr_to def body) ""); [left; eauto|].
      destruct (String.eqb (GetProperty props (Str.substr_to def body) "") "").
      * destruct (String.eqb (Str.substr_from (def + 2) body) ""); [left; eauto|].
        right. eexists _, _. split; [|reflexivity]. lia.
      * right. eexists _, _. split; [|reflexivity]. lia.
    + destruct (String.eqb body ""); [left; eauto|].
      destruct (String.eqb (GetProperty props body "") "").
      * left; eauto.
      * right. eexists _, _. split; [|reflexivity]. lia.
  - rewrite advance_all.
    destruct (String.eqb r ""); [left; eauto|].
    destruct (String.eqb (GetProperty props r "") "").
    + left; eauto.
    + right. eexists _, _. split; [|reflexivity]. simpl. lia.
Qed.

(** More fuel than the length of the string changes nothing. *)
Lemma expand_loop_fuel (n m : nat) (p d : string) :
  String.length p < n -> String.length p < m ->
  expand_loop props n p d = expand_loop props m p d.
Proof.
  revert m p d. induction n as [|n IH]; intros m p d Hn Hm; [lia|].
  destruct m as [|m]; [lia|]. simpl.
  destruct (Ascii.eqb (Str.deref p) Str.NUL); [reflexivity|].
  destruct (expand_step_cases p d) as [(r & Hr)|(q & d' & Hq & Hs)].
  - now rewrite !Hr.
  - rewrite !Hs. apply IH; lia.
Qed.

(** The loop as an equation, without fuel. *)
Lemma expand_from_eq (p d : string) :
  expand_from props p d
  = if Ascii.eqb (Str.deref p) Str.NUL then Some (true, d)
    else expand_step props (expand_from props) p d.
Proof.
  unfold expand_from at 1. simpl.
  destruct (Ascii.eqb (Str.deref p) Str.NUL); [reflexivity|].
  destruct (expand_step_cases p d) as [(r & Hr)|(q & d' & Hq & Hs)].
  - now rewrite !Hr.
  - rewrite !Hs. unfold expand_from. apply expand_loop_fuel; lia.
Qed.

(** The loop terminates with an outcome from every pointer. *)
Lemma expand_loop_total (n : nat) (p d : string) :
  String.length p < n -> exists r, expand_loop props n p d = Some r.
Proof.
  revert p d. induction n as [|n IH]; intros p d Hn; [lia|]. simpl.
  destruct (Ascii.eqb (Str.deref p) Str.NUL); [eauto|].
  destruct (expand_step_cases p d) as [(r & Hr)|(q & d' & Hq & Hs)].
  - rewrite Hr. eauto.
  - rewrite Hs. apply IH. lia.
Qed.

Lemma expand_from_total (p d : string) : exists r, expand_from props p d = Some r.
Proof. apply expand_loop_total. lia. Qed.

Lemma expand_from_empty (d : string) : expand_from props "" d = Some (true, d).
Proof. reflexivity. Qed.

End ExpandLoop.

Section ExpandSegments.

Variable props : string -> string.

Lemma range_self (p : string) : Str.range p p = "".
Proof. unfold Str.range. rewrite Nat.sub_diag. now destruct p. Qed.

Lemma deref_not_nul (a : ascii) (r : string) :
  Str.mem Str.NUL (String a r) = false -> Ascii.eqb a Str.NUL = false.
Proof. simpl. now destruct (Ascii.eqb a Str.NUL). Qed.

Lemma c_str_append (a b : string) :
  Str.mem Str.NUL a = false -> Str.c_str (a ++ b) = a ++ Str.c_str b.
Proof.
  induction a as [|x r IH]; [reflexivity|].
  rewrite !append_cons. simpl.
  destruct (Ascii.eqb x Str.NUL); simpl; [discriminate|].
  intros H. now rewrite (IH H).
Qed.

Lemma c_str_no_nul (s : string) : Str.mem Str.NUL (Str.c_str s) = false.
Proof.
  induction s as [|a r IH]; [reflexivity|]. simpl.
  destruct (Ascii.eqb a Str.NUL) eqn:E; [reflexivity|].
  simpl. now rewrite E.
Qed.

(** Literal text before the next reference is copied. *)
Lemma expand_literal (t q d : string) :
  Str.mem "$" t = false -> Str.mem Str.NUL t = false ->
  Str.mem Str.NUL q = false ->
  expand_from props (t ++ q) d = expand_from props q (d ++ t).
Proof.
  intros Ht Hn Hq. destruct t as [|a t'].
  { now rewrite append_nil_l, append_nil_r. }
  rewrite expand_from_eq, append_cons. cbn [Str.deref].
  rewrite (deref_not_nul _ _ Hn), <- append_cons.
  unfold expand_step at 1. rewrite (strchr_append "$" _ q Ht).
  destruct (Str.strchr q "$") as [c|] eqn:Hc.
  - destruct (strchr_some _ _ _ Hc) as (pre & r & -> & -> & _).
    rewrite (expand_from_eq props (pre ++ String "$" r)).
    assert (Hh : Ascii.eqb (Str.deref (pre ++ String "$" r)) Str.NUL = false).
    { destruct pre as [|x pre']; [reflexivity|].
      rewrite append_cons in Hq |- *. exact (deref_not_nul _ _ Hq). }
    rewrite Hh. unfold expand_step. rewrite Hc. cbv zeta.
    rewrite <- (append_assoc (String a t') pre), !range_append.
    now rewrite (append_assoc d (String a t') pre).
  - rewrite expand_from_eq. destruct q as [|x q'].
    + cbn [Str.deref]. rewrite Ascii.eqb_refl. now rewrite append_nil_r.
    + cbn [Str.deref]. rewrite (deref_not_nul _ _ Hq).
      unfold expand_step. rewrite Hc. now rewrite append_assoc.
Qed.

(** [$$] gives one [$]. *)
Lemma expand_escape (q d : string) :
  expand_from props ("$$" ++ q) d = expand_from props q (d ++ "$").
Proof.
  change ("$$" ++ q) with (String "$" (String "$" q)).
  rewrite expand_from_eq. cbn [Str.deref].
  change (Ascii.eqb "$" Str.NUL) with false. cbv iota.
  unfold expand_step. rewrite strchr_here. cbv zeta. cbn [Str.next Str.deref].
  rewrite Ascii.eqb_refl, range_self, append_nil_r. reflexivity.
Qed.

(** A braced reference is replaced by what it stands for, or fails. *)
Lemma expand_ref (body q d : string) :
  Str.mem "}" body = false ->
  expand_from props ("${" ++ body ++ "}" ++ q) d
  = match resolve_ref props body with
    | Some v => expand_from props q (d ++ v)
    | None => Some (false, d)
    end.
Proof.
  intros Hb.
  change ("${" ++ body ++ "}" ++ q) with (String "$" (String "{" (body ++ String "}" q))).
  rewrite expand_from_eq. cbn [Str.deref].
  change (Ascii.eqb "$" Str.NUL) with false. cbv iota.
  unfold expand_step. rewrite strchr_here. cbv zeta. cbn [Str.next Str.deref].
  change (Ascii.eqb "{" "$") with false.
  change (Ascii.eqb "{" Str.NUL) with false.
  change (Ascii.eqb "{" "{") with true. cbv iota.
  rewrite (strchr_append "}" body _ Hb), strchr_here, range_append, range_self.
  rewrite append_nil_r. cbn [Str.next].
  unfold resolve_ref, ref_key, ref_default, GetProperty, Str.substr_to, Str.substr_from.
  destruct (Str.find ":-" body) as [def|].
  - destruct (String.eqb (Str.take def body) ""); [reflexivity|].
    destruct (String.eqb (props (Str.take def body)) "") eqn:Ev; simpl.
    + now destruct (String.eqb (Str.advance (def + 2) body) "").
    + now rewrite Ev.
  - destruct (String.eqb body ""); [reflexivity|].
    destruct (String.eqb (props body) "") eqn:Ev; simpl.
    + reflexivity.
    + now rewrite Ev.
Qed.

(** An opening brace that is never closed fails. *)
Lemma expand_unclosed (tail d : string) :
  Str.mem "}" tail = false ->
  expand_from props ("${" ++ tail) d = Some (false, d).
Proof.
  intros Ht.
  change ("${" ++ tail) with (String "$" (String "{" tail)).
  rewrite expand_from_eq. cbn [Str.deref].
  change (Ascii.eqb "$" Str.NUL) with false. cbv iota.
  unfold expand_step. rewrite strchr_here. cbv zeta. cbn [Str.next Str.deref].
  change (Ascii.eqb "{" "$") with false.
  change (Ascii.eqb "{" Str.NUL) with false.
  change (Ascii.eqb "{" "{") with true. cbv iota.
  rewrite (strchr_none "}" tail Ht), range_self, append_nil_r. reflexivity.
Qed.

(** The bare form looks up everything after the [$]. *)
Lemma expand_bare (name d : string) :
  bare_start name = true ->
  expand_from props ("$" ++ name) d
  = if String.eqb (props name) "" then Some (false, d)
    else Some (true, d ++ props name).
Proof.
  unfold bare_start. intros H.
  apply andb_prop in H as [H H3]. apply andb_prop in H as [H1 H2].
  apply negb_true_iff in H1, H2, H3.
  change ("$" ++ name) with (String "$" name).
  rewrite expand_from_eq. cbn [Str.deref].
  change (Ascii.eqb "$" Str.NUL) with false. cbv iota.
  unfold expand_step. rewrite strchr_here. cbv zeta. cbn [Str.next].
  rewrite H1, H2, H3, range_self, append_nil_r, advance_all.
  assert (Hne : String.eqb name "" = false).
  { destruct name; [discriminate H3|reflexivity]. }
  rewrite Hne. unfold GetProperty.
  destruct (String.eqb (props name) "") eqn:Ev; simpl.
  - reflexivity.
  - now rewrite Ev.
Qed.

(** A [$] at the very end ends the expansion. *)
Lemma expand_dollar_end (d : string) : expand_from props "$" d = Some (true, d).
Proof.
  rewrite expand_from_eq. cbn [Str.deref].
  change (Ascii.eqb "$" Str.NUL) with false. cbv iota.
  unfold expand_step. rewrite strchr_here. cbv zeta. cbn [Str.next Str.deref].
  change (Ascii.eqb Str.NUL "$") with false.
  change (Ascii.eqb Str.NUL Str.NUL) with true. cbv iota.
  now rewrite range_self, append_nil_r.
Qed.

Lemma render_no_nul (i : item) :
  item_ok i = true -> Str.mem Str.NUL (render i) = false.
Proof.
  destruct i as [t| |b]; simpl; [|reflexivity|].
  - intros H. apply andb_prop in H as [_ H]. now apply negb_true_iff in H.
  - intros H. apply andb_prop in H as [_ H]. apply negb_true_iff in H.
    rewrite append_nil_l, mem_append, H. reflexivity.
Qed.

Lemma render_all_no_nul (items : list item) :
  forallb item_ok items = true -> Str.mem Str.NUL (render_all items) = false.
Proof.
  induction items as [|i r IH]; [reflexivity|]. simpl.
  intros H. apply andb_prop in H as [Hi Hr].
  now rewrite mem_append, (render_no_nul i Hi), (IH Hr).
Qed.

(** The items before a reference expand one after the other. *)
Lemma expand_items (items : list item) (e q d : string) :
  forallb item_ok items = true ->
  expansion_all props items = Some e ->
  Str.mem Str.NUL q = false ->
  expand_from props (render_all items ++ q) d = expand_from props q (d ++ e).
Proof.
  revert e d. induction items as [|i r IH]; intros e d Hok He Hq.
  - injection He as <-. now rewrite append_nil_l, append_nil_r.
  - simpl in Hok. apply andb_prop in Hok as [Hi Hr].
    cbn [render_all expansion_all] in *.
    destruct (expansion props i) as [a|] eqn:Ea; [|discriminate].
    destruct (expansion_all props r) as [b|] eqn:Eb; [|discriminate].
    injection He as <-.
    assert (Hq' : Str.mem Str.NUL (render_all r ++ q) = false).
    { now rewrite mem_append, (render_all_no_nul r Hr), Hq. }
    rewrite append_assoc, <- (append_assoc d).
    rewrite <- (IH b (d ++ a) Hr eq_refl Hq).
    destruct i as [t| |body]; cbn [render expansion item_ok] in *.
    + injection Ea as <-. apply andb_prop in Hi as [H1 H2].
      apply negb_true_iff in H1, H2. now apply expand_literal.
    + injection Ea as <-. apply expand_escape.
    + apply andb_prop in Hi as [H1 _]. apply negb_true_iff in H1.
      rewrite !append_assoc. rewrite (expand_ref body _ d H1), Ea. reflexivity.
Qed.

End ExpandSegments.

(** ** [expand_props] on whole templates *)

Section ExpandProps.

Variable props : string -> string.

Lemma append_eq_self (d e : string) : d ++ e = d -> e = "".
Proof.
  intros H. apply (f_equal String.length) in H. rewrite length_append in H.
  destruct e; [reflexivity|simpl in H; lia].
Qed.

Lemma append_cancel_l (d a b : string) : d ++ a = d ++ b -> a = b.
Proof.
  induction d as [|x r IH]; [trivial|].
  rewrite !append_cons. intros [= H]. auto.
Qed.

Lemma advance_add (n m : nat) (s : string) :
  Str.advance (n + m) s = Str.advance m (Str.advance n s).
Proof. revert s. induction n as [|n IH]; intros s; simpl; [reflexivity|apply IH]. Qed.

Lemma expand_props_total (src : string) (dst : option string) :
  exists r, expand_props props src dst = Some r.
Proof.
  destruct dst as [d|]; simpl; [|eauto].
  destruct (expand_from_total props (Str.c_str src) d) as [[ok d'] ->]. eauto.
Qed.

(** The items of a template up to a braced reference, the reference, and
    the rest of the template. *)
Lemma expand_props_ref (items : list item) (e body rest d : string) :
  forallb item_ok items = true ->
  expansion_all props items = Some e ->
  Str.mem "}" body = false -> Str.mem Str.NUL body = false ->
  expand_props props (render_all items ++ "${" ++ body ++ "}" ++ rest) (Some d)
  = match resolve_ref props body with
    | Some v => expand_props props rest (Some (d ++ e ++ v))
    | None => Some (false, Some (d ++ e))
    end.
Proof.
  intros Hok He Hb Hn. unfold expand_props.
  rewrite (c_str_append _ _ (render_all_no_nul items Hok)).
  rewrite <- (append_assoc body "}" rest), <- (append_assoc "${" (body ++ "}") rest).
  rewrite (c_str_append ("${" ++ body ++ "}")).
  2:{ rewrite !mem_append, Hn. reflexivity. }
  rewrite (append_assoc "${" (body ++ "}")), (append_assoc body "}").
  rewrite (expand_items props items e _ d Hok He).
  2:{ rewrite !mem_append, Hn, c_str_no_nul. reflexivity. }
  rewrite (expand_ref props body _ _ Hb).
  destruct (resolve_ref props body) as [v|]; [|reflexivity].
  now rewrite append_assoc.
Qed.

(** The items of a template up to a bare reference, which is the rest. *)
Lemma expand_props_bare (items : list item) (e name d : string) :
  forallb item_ok items = true ->
  expansion_all props items = Some e ->
  bare_start name = true -> Str.mem Str.NUL name = false ->
  expand_props props (render_all items ++ "$" ++ name) (Some d)
  = if String.eqb (props name) "" then Some (false, Some (d ++ e))
    else Some (true, Some (d ++ e ++ props name)).
Proof.
  intros Hok He Hs Hn. unfold expand_props.
  rewrite (c_str_append _ _ (render_all_no_nul items Hok)).
  rewrite (c_str_id ("$" ++ name)) by exact Hn.
  rewrite (expand_items props items e _ d Hok He) by exact Hn.
  rewrite (expand_bare props name _ Hs).
  destruct (String.eqb (props name) ""); [reflexivity|].
  now rewrite append_assoc.
Qed.

Lemma expand_props_unclosed (items : list item) (e tail d : string) :
  forallb item_ok items = true ->
  expansion_all props items = Some e ->
  Str.mem "}" tail = false -> Str.mem Str.NUL tail = false ->
  expand_props props (render_all items ++ "${" ++ tail) (Some d)
  = Some (false, Some (d ++ e)).
Proof.
  intros Hok He Ht Hn. unfold expand_props.
  rewrite (c_str_append _ _ (render_all_no_nul items Hok)).
  rewrite (c_str_id ("${" ++ tail)) by exact Hn.
  rewrite (expand_items props items e _ d Hok He) by exact Hn.
  now rewrite (expand_unclosed props tail _ Ht).
Qed.

Lemma expand_props_plain (t d : string) :
  Str.mem "$" t = false -> Str.mem Str.NUL t = false ->
  expand_props props t (Some d) = Some (true, Some (d ++ t)).
Proof.
  intros Ht Hn. unfold expand_props. rewrite (c_str_id t Hn).
  rewrite <- (append_nil_r t) at 1.
  now rewrite (expand_literal props t "" d Ht Hn eq_refl).
Qed.

Lemma eqb_empty_false (s : string) : s <> "" -> String.eqb s "" = false.
Proof. intros H. now apply String.eqb_neq. Qed.

(** The key and the default of a reference written with a default. *)
Lemma resolve_with_default (name def : string) :
  name <> "" -> Str.find ":-" name = None ->
  resolve_ref props (name ++ ":-" ++ def)
  = if negb (String.eqb (props name) "") then Some (props name)
    else if negb (String.eqb def "") then Some def else None.
Proof.
  intros Hne Hf. unfold resolve_ref, ref_key, ref_default.
  rewrite (find_default name def Hf), take_append, advance_add, advance_append.
  now rewrite (eqb_empty_false name Hne).
Qed.

Lemma resolve_without_default (name : string) :
  name <> "" -> Str.find ":-" name = None ->
  resolve_ref props name
  = if negb (String.eqb (props name) "") then Some (props name) else None.
Proof.
  intros Hne Hf. unfold resolve_ref, ref_key, ref_default. rewrite Hf.
  now rewrite (eqb_empty_false name Hne).
Qed.

End ExpandProps.

(** ** [find] and occurrences of a substring *)

Section Occurrences.

Lemma starts_with_append (pre b : string) : Str.starts_with pre (pre ++ b) = true.
Proof.
  induction pre as [|x r IH]; [reflexivity|].
  rewrite append_cons. simpl. now rewrite Ascii.eqb_refl.
Qed.

Lemma starts_with_prefix (pre s : string) :
  Str.starts_with pre s = true -> exists b, s = pre ++ b.
Proof.
  revert s. induction pre as [|x r IH]; intros s; [now exists s|].
  destruct s as [|y s']; simpl; [discriminate|].
  destruct (Ascii.eqb x y) eqn:E; simpl; [|discriminate].
  apply Ascii.eqb_eq in E as <-. intros H.
  destruct (IH s' H) as [b ->]. now exists b.
Qed.

Lemma find_unfold (needle s : string) :
  Str.find needle s
  = if Str.starts_with needle s then Some 0
    else match s with
         | "" => None
         | String _ r => option_map S (Str.find needle r)
         end.
Proof. destruct s; reflexivity. Qed.

(** [find] gives the place of an occurrence. *)
Lemma find_some_occurrence (needle s : string) (i : nat) :
  Str.find needle s = Some i ->
  exists a b, s = a ++ needle ++ b /\ String.length a = i.
Proof.
  revert i. induction s as [|x r IH]; intros i; rewrite find_unfold.
  - destruct (Str.starts_with needle "") eqn:E; [|discriminate].
    intros [= <-]. destruct (starts_with_prefix _ _ E) as [b Hb].
    now exists "", b.
  - destruct (Str.starts_with needle (String x r)) eqn:E.
    + intros [= <-]. destruct (starts_with_prefix _ _ E) as [b Hb].
      now exists "", b.
    + destruct (Str.find needle r) as [j|]; [|discriminate].
      intros [= <-]. destruct (IH j eq_refl) as (a & b & -> & <-).
      now exists (String x a), b.
Qed.

(** [find] misses no occurrence. *)
Lemma find_none_no_occurrence (needle s : string) :
  Str.find needle s = None -> forall a b, s <> a ++ needle ++ b.
Proof.
  induction s as [|x r IH]; rewrite find_unfold; intros H a b Hs.
  - destruct a; [|discriminate Hs]. rewrite append_nil_l in Hs.
    rewrite Hs, starts_with_append in H. discriminate.
  - destruct a as [|y a'].
    + rewrite append_nil_l in Hs. rewrite Hs, starts_with_append in H. discriminate.
    + rewrite append_cons in Hs. injection Hs as _ Hr.
      destruct (Str.starts_with needle (String x r)); [discriminate|].
      destruct (Str.find needle r); [discriminate|].
      exact (IH eq_refl a' b Hr).
Qed.

(** [contains] is the presence of the substring. *)
Lemma contains_occurrence (needle s : string) :
  contains needle s = true <-> exists a b, s = a ++ needle ++ b.
Proof.
  unfold contains. split.
  - destruct (Str.find needle s) as [i|] eqn:E; [|discriminate].
    intros _. destruct (find_some_occurrence _ _ _ E) as (a & b & H & _). eauto.
  - intros (a & b & H). destruct (Str.find needle s) eqn:E; [reflexivity|].
    now destruct (find_none_no_occurrence _ _ E a b).
Qed.

End Occurrences.

(** ** The claims about [expand_props] *)

(** C1, as the specification states it, fails: with [x] unset the template
    [${x:-}] does not expand to the empty substitution, [expand_props]
    returns false. *)
Lemma empty_default_is_a_failure :
  expand_props no_props "${x:-}" (Some "") = Some (false, Some "")
  /\ expand_props no_props "${x:-}" (Some "") <> Some (true, Some "").
Proof. split; [reflexivity|discriminate]. Qed.

(** C1, amended. For a braced reference with a default, [${name:-default}],
    after any successfully expanded items: a non-empty value of [name] is
    substituted; for an empty value a non-empty default is substituted
    verbatim and the expansion goes on with the rest; for an empty value
    and an empty default [expand_props] fails, with the destination holding
    the expansion so far. The reference without a default, [${name}], fails
    exactly when the value is empty. So the failure for an unresolved
    property occurs when the value is empty and the default is empty or
    absent. *)
Theorem default_substituted_unless_empty
    (props : string -> string) (items : list item) (e name def rest d : string) :
  forallb item_ok items = true ->
  expansion_all props items = Some e ->
  String.eqb name "" = false ->
  Str.find ":-" name = None ->
  Str.mem "}" name = false -> Str.mem Str.NUL name = false ->
  Str.mem "}" def = false -> Str.mem Str.NUL def = false ->
  expand_props props (render_all items ++ "${" ++ name ++ ":-" ++ def ++ "}" ++ rest)
               (Some d)
  = (if negb (String.eqb (props name) "")
     then expand_props props rest (Some (d ++ e ++ props name))
     else if negb (String.eqb def "")
          then expand_props props rest (Some (d ++ e ++ def))
          else Some (false, Some (d ++ e)))
  /\ expand_props props (render_all items ++ "${" ++ name ++ "}" ++ rest) (Some d)
     = (if negb (String.eqb (props name) "")
        then expand_props props rest (Some (d ++ e ++ props name))
        else Some (false, Some (d ++ e))).
Proof.
  intros Hok He Hne Hf Hb Hn Hdb Hdn.
  apply String.eqb_neq in Hne.
  split.
  - rewrite <- (append_assoc ":-" def ("}" ++ rest)).
    rewrite <- (append_assoc name (":-" ++ def) ("}" ++ rest)).
    rewrite (expand_props_ref props items e (name ++ ":-" ++ def) rest d Hok He).
    + rewrite (resolve_with_default props name def Hne Hf).
      destruct (String.eqb (props name) ""); simpl; [|reflexivity].
      now destruct (String.eqb def "").
    + rewrite !mem_append, Hb, Hdb. reflexivity.
    + rewrite !mem_append, Hn, Hdn. reflexivity.
  - rewrite (expand_props_ref props items e name rest d Hok He Hb Hn).
    rewrite (resolve_without_default props name Hne Hf).
    now destruct (String.eqb (props name) "").
Qed.

Lemma default_substituted_unless_empty_witness :
  expand_props no_props ("a" ++ "${" ++ "x" ++ ":-" ++ "def" ++ "}" ++ "-z") (Some "")
  = expand_props no_props "-z" (Some "adef")
  /\ expand_props no_props ("a" ++ "${" ++ "x" ++ "}" ++ "-z") (Some "")
     = Some (false, Some "a").
Proof.
  exact (default_substituted_unless_empty no_props [Lit "a"] "a" "x" "def" "-z" ""
           eq_refl eq_refl eq_refl eq_refl eq_refl eq_refl eq_refl eq_refl).
Defined.

(** C8, as the specification states it, fails: the bare form with
    trailing text need not give another result than the braced form with
    the same text. With no property set, [a$x tail] and [a${x} tail] both
    return false and leave the same destination. *)
Lemma bare_and_braced_fail_alike :
  bare_start "x tail" = true
  /\ expand_props no_props ("a" ++ "$" ++ "x tail") (Some "D")
     = Some (false, Some "Da")
  /\ expand_props no_props ("a" ++ "${" ++ "x" ++ "}" ++ " tail") (Some "D")
     = expand_props no_props ("a" ++ "$" ++ "x tail") (Some "D").
Proof. repeat split. Qed.

(** C8, amended. When a [$] that starts a reference is followed by a
    character other than [$], [{] and the end of the string, everything up
    to the end of the input is the property name: the result is the
    expansion so far followed by the value of that name, with nothing
    after it, or a failure when the name has no value. So for a name
    followed by literal trailing text the bare form looks up the name with
    the text, where the braced form looks up the name and copies the
    text. The two results are the same in two cases only: when both fail,
    neither the name nor the name with the text having a value, and when
    the name has a value and the name with the text has that value
    followed by the text; in every other case they differ. *)
Theorem bare_reference_takes_the_rest
    (props : string -> string) (items : list item) (e rest d : string) :
  forallb item_ok items = true ->
  expansion_all props items = Some e ->
  bare_start rest = true ->
  Str.mem Str.NUL rest = false ->
  expand_props props (render_all items ++ "$" ++ rest) (Some d)
  = (if String.eqb (props rest) "" then Some (false, Some (d ++ e))
     else Some (true, Some (d ++ e ++ props rest)))
  /\ forall name tail : string,
      rest = name ++ tail ->
      String.eqb name "" = false ->
      Str.find ":-" name = None ->
      Str.mem "}" name = false ->
      Str.mem "$" tail = false ->
      expand_props props (render_all items ++ "${" ++ name ++ "}" ++ tail) (Some d)
      = (if String.eqb (props name) "" then Some (false, Some (d ++ e))
         else Some (true, Some (d ++ e ++ props name ++ tail)))
      /\ (expand_props props (render_all items ++ "$" ++ rest) (Some d)
          = expand_props props (render_all items ++ "${" ++ name ++ "}" ++ tail) (Some d)
          <-> (props rest = "" /\ props name = "")
              \/ (props name <> "" /\ props rest = props name ++ tail)).
Proof.
  intros Hok He Hs Hn.
  assert (Hbare := expand_props_bare props items e rest d Hok He Hs Hn).
  split; [exact Hbare|].
  intros name tail -> Hne Hf Hb Ht.
  rewrite mem_append in Hn. apply orb_false_elim in Hn as [Hn1 Hn2].
  apply String.eqb_neq in Hne.
  assert (Hbraced :
    expand_props props (render_all items ++ "${" ++ name ++ "}" ++ tail) (Some d)
    = (if String.eqb (props name) "" then Some (false, Some (d ++ e))
       else Some (true, Some (d ++ e ++ props name ++ tail)))).
  { rewrite (expand_props_ref props items e name tail d Hok He Hb Hn1).
    rewrite (resolve_without_default props name Hne Hf).
    destruct (String.eqb (props name) ""); cbn [negb]; [reflexivity|].
    rewrite (expand_props_plain props tail _ Ht Hn2).
    now rewrite !append_assoc. }
  split; [exact Hbraced|].
  rewrite Hbare, Hbraced.
  destruct (String.eqb (props (name ++ tail)) "") eqn:Er;
    destruct (String.eqb (props name) "") eqn:Ev.
  - apply String.eqb_eq in Er, Ev. split; [now left|reflexivity].
  - apply String.eqb_eq in Er. apply String.eqb_neq in Ev. split; [discriminate|].
    intros [[_ H]|[_ H]]; [contradiction|].
    rewrite Er in H. destruct (props name); [now destruct Ev|discriminate H].
  - apply String.eqb_neq in Er. apply String.eqb_eq in Ev. split; [discriminate|].
    intros [[H _]|[H _]]; contradiction.
  - apply String.eqb_neq in Ev. split.
    + intros [= H]. apply append_cancel_l, append_cancel_l in H. now right.
    + intros [[_ H]|[_ H]]; [contradiction|]. now rewrite H.
Qed.

Lemma bare_reference_takes_the_rest_witness :
  expand_props x_props ("a" ++ "$" ++ "x tail") (Some "") = Some (false, Some "a")
  /\ expand_props x_props ("a" ++ "${" ++ "x" ++ "}" ++ " tail") (Some "")
     = Some (true, Some "aVAL tail").
Proof.
  destruct (bare_reference_takes_the_rest x_props [Lit "a"] "a" "x tail" ""
              eq_refl eq_refl eq_refl eq_refl) as [H1 H2].
  split; [exact H1|].
  exact (proj1 (H2 "x" " tail" eq_refl eq_refl eq_refl eq_refl eq_refl)).
Defined.

(** C9. When the expansion fails at a reference (an opening brace never
    closed, a braced reference with an empty name or without a value and
    default, a bare name without a value) that comes after literal text,
    [$$] escapes and successful references, [expand_props] returns false
    and the destination holds its former content followed by the expansion
    of everything before the failing reference: when that expansion is not
    empty the destination is neither unchanged nor empty. *)
Theorem failure_keeps_expanded_prefix
    (props : string -> string) (items : list item) (f : failing) (e d : string) :
  forallb item_ok items = true ->
  expansion_all props items = Some e ->
  fails props f = true ->
  expand_props props (render_all items ++ render_failing f) (Some d)
  = Some (false, Some (d ++ e))
  /\ (e <> "" -> d ++ e <> d /\ d ++ e <> "").
Proof.
  intros Hok He Hf. split.
  - destruct f as [tail|body rest|name]; cbn [fails render_failing] in *.
    + apply andb_prop in Hf as [H1 H2]. apply negb_true_iff in H1, H2.
      now apply expand_props_unclosed.
    + apply andb_prop in Hf as [Hf H3]. apply andb_prop in Hf as [H1 H2].
      apply negb_true_iff in H1, H2.
      rewrite (expand_props_ref props items e body rest d Hok He H1 H2).
      now destruct (resolve_ref props body).
    + apply andb_prop in Hf as [Hf H3]. apply andb_prop in Hf as [H1 H2].
      apply negb_true_iff in H2.
      rewrite (expand_props_bare props items e name d Hok He H1 H2).
      now rewrite H3.
  - intros Hne. split; intros H.
    + now apply append_eq_self in H.
    + apply (f_equal String.length) in H. rewrite length_append in H.
      destruct e; [contradiction|simpl in H; lia].
Qed.

Lemma failure_keeps_expanded_prefix_witness :
  expand_props x_props ("pre-" ++ "$$" ++ "${x}" ++ "${nope}zzz") (Some "D:")
  = Some (false, Some "D:pre-$VAL")
  /\ "D:" ++ "pre-$VAL" <> "D:" /\ "D:" ++ "pre-$VAL" <> "".
Proof.
  destruct (failure_keeps_expanded_prefix x_props [Lit "pre-"; Escape; Ref "x"]
              (BadRef "nope" "zzz") "pre-$VAL" "D:" eq_refl eq_refl eq_refl)
    as [H1 H2].
  split; [exact H1|]. apply H2. discriminate.
Defined.

(** ** Runs of the external calls *)

Section Runs.

Lemma add_events_app (w : World) (a b : list event) :
  add_events (add_events w a) b = add_events w (a ++ b).
Proof. unfold add_events. simpl. now rewrite <- app_assoc. Qed.

Lemma dir_exists_add_events (w : World) (evs : list event) (p : string) :
  dir_exists (add_events w evs) p = dir_exists w p.
Proof. reflexivity. Qed.

Lemma is_dir_run (p : string) (w : World) :
  is_dir p w = (dir_exists w p, add_events w [EvStat p]).
Proof.
  unfold is_dir, dir_exists, stat, bind, emit, get_fs, ret, add_events. simpl.
  now destruct (Path.lookup (fs w) p) as [[|c]|].
Qed.

Lemma ReadFileToString_run (p : string) (w : World) :
  ReadFileToString p w
  = (fst (ReadFileToString p w), add_events w [EvRead (Str.c_str p)]).
Proof.
  unfold ReadFileToString, bind, emit, get_fs, ret, add_events. simpl.
  now destruct (Path.lookup (fs w) (Str.c_str p)) as [[|c]|].
Qed.

Lemma content_of_add_events (p : string) (w : World) (evs : list event) :
  content_of p (add_events w evs) = content_of p w.
Proof.
  unfold content_of, ReadFileToString, bind, emit, get_fs, ret, add_events. simpl.
  now destruct (Path.lookup (fs w) (Str.c_str p)) as [[|c]|].
Qed.

Lemma foldM_nil {A B : Type} (f : A -> B -> M A) (a : A) (w : World) :
  foldM f a [] w = (a, w).
Proof. reflexivity. Qed.

End Runs.

(** ** The ACPI importer *)

Section Acpi.

Lemma get_acpi_cfg_path_run (w : World) :
  get_acpi_cfg_path_from_cmdline w
  = (acpi_root w, add_events w [EvRead "/proc/cmdline"]).
Proof.
  unfold get_acpi_cfg_path_from_cmdline, bind.
  rewrite ReadFileToString_run. reflexivity.
Qed.

(** The importer run: the reads it makes, and the callback on the accepted
    pairs of the description when the device name is there. *)
Lemma import_acpi_cmdline_run {A : Type} (in_qemu : bool)
    (fn : string -> string -> bool -> string -> A -> M A) (rootdir : string)
    (env : A) (w : World) :
  import_acpi_cmdline in_qemu fn rootdir env w
  = let root := acpi_root w in
    let w1 := add_events w [EvRead "/proc/cmdline"; EvRead (Str.c_str (root ++ "/path"))] in
    if contains "CFG0" (content_of (root ++ "/path") w) then
      let r := foldM (fun env kv => fn (fst kv) (snd kv) in_qemu rootdir env) env
                 (accepted_pairs
                    (Str.replace "010" " " (content_of (root ++ "/description") w)))
                 (add_events w1 [EvRead (Str.c_str (root ++ "/description"))]) in
      ((true, fst r), snd r)
    else ((false, env), w1).
Proof.
  unfold import_acpi_cmdline. unfold bind at 1. rewrite get_acpi_cfg_path_run.
  unfold bind at 1. rewrite ReadFileToString_run.
  fold (content_of (acpi_root w ++ "/path") (add_events w [EvRead "/proc/cmdline"])).
  rewrite content_of_add_events, add_events_app. cbv zeta. unfold contains.
  destruct (Str.find "CFG0" (content_of (acpi_root w ++ "/path") w)); [|reflexivity].
  unfold bind at 1. rewrite ReadFileToString_run.
  fold (content_of (acpi_root w ++ "/description")
          (add_events w ([EvRead "/proc/cmdline"]
                         ++ [EvRead (Str.c_str (acpi_root w ++ "/path"))]))).
  rewrite content_of_add_events. unfold bind, ret.
  rewrite (foldM_entries (fun k v => fn k v in_qemu rootdir)).
  unfold accepted_pairs. simpl app.
  now destruct (foldM _ _ _ _).
Qed.

End Acpi.

(** C6. When the content of the [path] attribute under the resolved ACPI
    root does not contain [CFG0] (an unreadable attribute has empty
    content), [import_acpi_cmdline] returns false; what the callback
    captures is unchanged whatever the callback is, a callback that records
    its calls has recorded none, no file is created or changed, and the
    only external calls are the read of the command line and the read of
    [path]: the [description] attribute is not read. *)
Theorem acpi_import_without_device_name {A : Type} (in_qemu : bool)
    (fn : string -> string -> bool -> string -> A -> M A) (rootdir : string)
    (env : A) (w : World) :
  contains "CFG0" (content_of (acpi_root w ++ "/path") w) = false ->
  import_acpi_cmdline in_qemu fn rootdir env w
  = ((false, env),
     add_events w [EvRead "/proc/cmdline"; EvRead (Str.c_str (acpi_root w ++ "/path"))])
  /\ fst (import_acpi_cmdline in_qemu record_acpi_call rootdir [] w) = (false, [])
  /\ fs (snd (import_acpi_cmdline in_qemu fn rootdir env w)) = fs w.
Proof.
  intros H. rewrite !import_acpi_cmdline_run. cbv zeta. rewrite H. auto.
Qed.

Lemma acpi_import_without_device_name_witness :
  import_acpi_cmdline false synthesize "/tmp/dt" tt
    (acpi_world "quiet" "\_SB_.PCI0" "android.fw.display.panel=oled")
  = ((false, tt),
     add_events (acpi_world "quiet" "\_SB_.PCI0" "android.fw.display.panel=oled")
       [EvRead "/proc/cmdline";
        EvRead "/sys/devices/system/container/ACPI0004:00/firmware_node/path"]).
Proof.
  apply (acpi_import_without_device_name false synthesize "/tmp/dt" tt
           (acpi_world "quiet" "\_SB_.PCI0" "android.fw.display.panel=oled")).
  vm_compute. reflexivity.
Defined.

(** C7. When the [path] attribute contains [CFG0] and the description,
    with its newlines turned into spaces, gives no accepted pair (the
    empty description is one such), [import_acpi_cmdline] returns true
    and the callback is not called: what it captures is unchanged, a
    recording callback has recorded nothing, and no file is changed. *)
Theorem acpi_import_without_pairs {A : Type} (in_qemu : bool)
    (fn : string -> string -> bool -> string -> A -> M A) (rootdir : string)
    (env : A) (w : World) :
  contains "CFG0" (content_of (acpi_root w ++ "/path") w) = true ->
  accepted_pairs (Str.replace "010" " " (content_of (acpi_root w ++ "/description") w))
  = [] ->
  import_acpi_cmdline in_qemu fn rootdir env w
  = ((true, env),
     add_events w [EvRead "/proc/cmdline";
                   EvRead (Str.c_str (acpi_root w ++ "/path"));
                   EvRead (Str.c_str (acpi_root w ++ "/description"))])
  /\ fst (import_acpi_cmdline in_qemu record_acpi_call rootdir [] w) = (true, [])
  /\ accepted_pairs (Str.replace "010" " " "") = [].
Proof.
  intros H1 H2. rewrite !import_acpi_cmdline_run. cbv zeta. rewrite H1, H2.
  rewrite !foldM_nil, add_events_app. auto.
Qed.

Lemma acpi_import_without_pairs_witness :
  import_acpi_cmdline false synthesize "/tmp/dt" tt (acpi_world "quiet" "\_SB_.CFG0" "")
  = ((true, tt),
     add_events (acpi_world "quiet" "\_SB_.CFG0" "")
       [EvRead "/proc/cmdline";
        EvRead "/sys/devices/system/container/ACPI0004:00/firmware_node/path";
        EvRead "/sys/devices/system/container/ACPI0004:00/firmware_node/description"]).
Proof.
  apply (acpi_import_without_pairs false synthesize "/tmp/dt" tt
           (acpi_world "quiet" "\_SB_.CFG0" "")).
  - vm_compute. reflexivity.
  - vm_compute. reflexivity.
Defined.

(** ** The directory resolver *)

Section Resolver.

Lemma foldM_set_android_dt_dir (pairs : list (string * string)) (init : string)
    (w : World) :
  foldM (fun env kv => set_android_dt_dir (fst kv) (snd kv) false env) init pairs w
  = (match last (map snd (List.filter is_override pairs)) with
     | Some v => v
     | None => init
     end, w).
Proof.
  revert init. induction pairs as [|kv r IH]; intros init; [reflexivity|].
  cbn [foldM List.filter]. unfold bind, set_android_dt_dir at 1, is_override at 1.
  destruct (String.eqb (fst kv) "androidboot.android_dt_dir"); unfold ret at 1.
  - rewrite IH. cbn [map]. rewrite last_cons.
    now destruct (last (map snd (List.filter is_override r))).
  - apply IH.
Qed.

Lemma c_str_kDefaultAndroidDtDir : Str.c_str kDefaultAndroidDtDir = kDefaultAndroidDtDir.
Proof. reflexivity. Qed.

(** The resolver run. *)
Lemma init_android_dt_dir_run (w : World) :
  init_android_dt_dir w
  = if dir_exists w kDefaultAndroidDtDir
    then (kDefaultAndroidDtDir, add_events w [EvStat kDefaultAndroidDtDir])
    else
      let candidate := candidate_of (content_of "/proc/cmdline" w) in
      let w' := add_events w [EvStat kDefaultAndroidDtDir; EvRead "/proc/cmdline";
                              EvStat (Str.c_str candidate)] in
      if dir_exists w (Str.c_str candidate) then (candidate, w')
      else (candidate, snd (import_acpi_cmdline false synthesize candidate tt w')).
Proof.
  unfold init_android_dt_dir. unfold bind at 1.
  rewrite is_dir_run, c_str_kDefaultAndroidDtDir.
  destruct (dir_exists w kDefaultAndroidDtDir); [reflexivity|].
  cbn [negb]. unfold bind at 1.
  rewrite import_kernel_cmdline_run. unfold bind at 1.
  rewrite ReadFileToString_run.
  fold (content_of "/proc/cmdline" (add_events w [EvStat kDefaultAndroidDtDir])).
  rewrite content_of_add_events, add_events_app.
  rewrite foldM_set_android_dt_dir.
  cbv zeta.
  assert (Hc : (if String.eqb
                     match last (map snd (List.filter is_override
                             (accepted_pairs (content_of "/proc/cmdline" w)))) with
                     | Some v => v
                     | None => kDefaultAndroidDtDir
                     end kDefaultAndroidDtDir
                then "/dev/device-tree/firmware/android/"
                else match last (map snd (List.filter is_override
                             (accepted_pairs (content_of "/proc/cmdline" w)))) with
                     | Some v => v
                     | None => kDefaultAndroidDtDir
                     end)
               = candidate_of (content_of "/proc/cmdline" w)).
  { unfold candidate_of, override_of.
    now destruct (last (map snd (List.filter is_override
                    (accepted_pairs (content_of "/proc/cmdline" w))))). }
  rewrite Hc. unfold bind at 1. rewrite is_dir_run, dir_exists_add_events, add_events_app.
  destruct (dir_exists w (Str.c_str (candidate_of (content_of "/proc/cmdline" w))));
    [reflexivity|].
  cbn [negb]. unfold bind, ret.
  now destruct (import_acpi_cmdline false synthesize _ tt _).
Qed.

Lemma filter_override_none (l : list (string * string)) :
  forallb (fun kv => negb (is_override kv)) l = true ->
  List.filter is_override l = [].
Proof.
  induction l as [|kv r IH]; [reflexivity|]. simpl. intros Ha.
  apply andb_prop in Ha as [H1 H2]. apply negb_true_iff in H1.
  rewrite H1. auto.
Qed.

(** The override is the value of the last pair with the override key. *)
Lemma override_of_last (cmdline : string) (before after : list (string * string))
    (v : string) :
  accepted_pairs cmdline = (before ++ ("androidboot.android_dt_dir", v) :: after)%list ->
  forallb (fun kv => negb (is_override kv)) after = true ->
  override_of cmdline = Some v.
Proof.
  intros Hp Ha. unfold override_of. rewrite Hp, List.filter_app.
  cbn [List.filter]. unfold is_override at 2. cbn [fst]. rewrite String.eqb_refl.
  rewrite (filter_override_none after Ha), map_app. cbn [map snd].
  now rewrite last_snoc.
Qed.

Lemma override_of_none (cmdline : string) :
  forallb (fun kv => negb (is_override kv)) (accepted_pairs cmdline) = true ->
  override_of cmdline = None.
Proof.
  intros Ha. unfold override_of. now rewrite (filter_override_none _ Ha).
Qed.

End Resolver.

(** ** The memoized directory, for calls one after the other *)

(** The first call runs the resolver and fills the static; every later
    call returns the stored directory and does nothing else. (The guard
    that the C++ runtime puts around the initialisation of the static for
    callers on several threads is not part of this model.) *)
Lemma get_android_dt_dir_first (w : World) :
  get_android_dt_dir None w
  = ((fst (init_android_dt_dir w), Some (fst (init_android_dt_dir w))),
     snd (init_android_dt_dir w)).
Proof.
  unfold get_android_dt_dir, bind, ret. now destruct (init_android_dt_dir w).
Qed.

Lemma get_android_dt_dir_later (dir : string) (w : World) :
  get_android_dt_dir (Some dir) w = ((dir, Some dir), w).
Proof. reflexivity. Qed.

(** Any number of calls after the first: the same directory, the static
    and the world as the first call left them. *)
Lemma get_android_dt_dir_repeated (n : nat) (w : World) :
  let first := get_android_dt_dir None w in
  Nat.iter n (fun r => get_android_dt_dir (snd (fst r)) (snd r)) first = first.
Proof.
  cbv zeta. rewrite get_android_dt_dir_first.
  induction n as [|n IH]; [reflexivity|]. simpl. now rewrite IH.
Qed.

(** ** Paths without dots and their components *)

Section PlainPaths.

Lemma Split_app_slash (a b : string) :
  Base.Split (a ++ String "/" b) "/" = (Base.Split a "/" ++ Base.Split b "/")%list.
Proof.
  induction a as [|x r IH].
  - rewrite append_nil_l. cbn [Base.Split]. rewrite mem_single, Ascii.eqb_refl.
    reflexivity.
  - rewrite append_cons. cbn [Base.Split]. rewrite mem_single, IH.
    destruct (Ascii.eqb x "/"); [reflexivity|].
    destruct (Base.Split r "/") as [|p ps] eqn:E; [|reflexivity].
    now destruct (Split_nonempty r "/").
Qed.

Lemma Split_no_slash (c : string) : Str.mem "/" c = false -> Base.Split c "/" = [c].
Proof.
  induction c as [|x r IH]; [reflexivity|]. simpl Str.mem.
  intros H. apply orb_false_elim in H as [H1 H2].
  cbn [Base.Split]. rewrite mem_single, H1, (IH H2). reflexivity.
Qed.

Lemma norm_plain (l acc : list string) :
  forallb plain l = true ->
  Path.norm l acc = (rev acc ++ List.filter nonempty l)%list.
Proof.
  revert acc. induction l as [|c r IH]; intros acc H.
  - simpl. now rewrite app_nil_r.
  - simpl in H. apply andb_prop in H as [Hc Hr].
    unfold plain in Hc. apply andb_prop in Hc as [H1 H2].
    apply negb_true_iff in H1, H2.
    cbn [Path.norm List.filter]. unfold nonempty at 1. rewrite H1, H2, orb_false_r.
    destruct (String.eqb c ""); cbn [negb].
    + now apply IH.
    + rewrite (IH _ Hr). simpl. now rewrite <- app_assoc.
Qed.

(** Resolution over the tree gives the components read without it, when
    it gives any; and it gives them for components without [.] and
    [..]. *)
Lemma walk_norm (f : gmap (list string) node) (l acc x : list string) :
  Path.walk f l acc = inr x -> x = Path.norm l acc.
Proof.
  revert acc. induction l as [|c r IH]; intros acc; cbn [Path.walk Path.norm].
  - now intros [= <-].
  - destruct (String.eqb c ""); cbn [orb]; [apply IH|].
    destruct (String.eqb c ".") eqn:E1; cbn [orb].
    + destruct (Path.node_at f (rev acc)) as [[|c0]|]; [apply IH|discriminate..].
    + destruct (String.eqb c ".."); [|apply IH].
      destruct (Path.node_at f (rev acc)) as [[|c0]|]; [apply IH|discriminate..].
Qed.

Lemma walk_plain (f : gmap (list string) node) (l acc : list string) :
  forallb plain l = true -> Path.walk f l acc = inr (Path.norm l acc).
Proof.
  revert acc. induction l as [|c r IH]; intros acc H; [reflexivity|].
  simpl in H. apply andb_prop in H as [Hc Hr].
  unfold plain in Hc. apply andb_prop in Hc as [H1 H2].
  apply negb_true_iff in H1, H2.
  cbn [Path.walk Path.norm]. rewrite H1, H2. cbn [orb].
  destruct (String.eqb c ""); cbn [orb]; now apply IH.
Qed.

Lemma plain_first (a : ascii) (c : string) :
  Ascii.eqb a "." = false -> plain (String a c) = true.
Proof.
  intros H. unfold plain.
  assert (E : forall t, String.eqb (String a c) (String "." t) = false).
  { intros t. simpl. now rewrite H. }
  now rewrite (E ""), (E ".").
Qed.

Lemma Split_plain (p : string) :
  Str.mem "." p = false -> forallb plain (Base.Split p "/") = true.
Proof.
  induction p as [|x r IH]; [reflexivity|]. simpl Str.mem.
  intros H. apply orb_false_elim in H as [H1 H2]. specialize (IH H2).
  cbn [Base.Split]. destruct (Str.mem x "/"); [exact IH|].
  destruct (Base.Split r "/") as [|c cs]; simpl.
  - now rewrite (plain_first x "" H1).
  - simpl in IH. apply andb_prop in IH as [_ IH].
    now rewrite (plain_first x c H1), IH.
Qed.

Lemma comps_plain (p : string) :
  Str.mem "." p = false -> comps p = List.filter nonempty (Base.Split p "/").
Proof. intros H. unfold comps. now rewrite (norm_plain _ [] (Split_plain p H)). Qed.

Lemma comps_app_slash (a b : string) :
  Str.mem "." a = false -> Str.mem "." b = false ->
  comps (a ++ String "/" b) = (comps a ++ comps b)%list.
Proof.
  intros Ha Hb. rewrite !comps_plain; trivial.
  - now rewrite Split_app_slash, List.filter_app.
  - rewrite mem_append, Ha. simpl. exact Hb.
Qed.

Lemma comps_component (c : string) :
  Str.mem "/" c = false -> Str.mem "." c = false ->
  comps c = if String.eqb c "" then [] else [c].
Proof.
  intros Hs Hd. rewrite (comps_plain c Hd), (Split_no_slash c Hs).
  simpl. unfold nonempty. now destruct (String.eqb c "").
Qed.

End PlainPaths.

(** ** Directories made by [mkdir_recursive] *)

Section MkdirRecursive.

Lemma stat_run (p : string) (w : World) :
  stat p w = (Path.lookup (fs w) p, add_events w [EvStat p]).
Proof. reflexivity. Qed.

Lemma grown_refl (f : gmap (list string) node) (cs : list string) : grown f f cs.
Proof. intros q. now left. Qed.

Lemma grown_trans (f f' f'' : gmap (list string) node) (cs : list string) :
  grown f f' cs -> grown f' f'' cs -> grown f f'' cs.
Proof.
  intros H1 H2 q. destruct (H2 q) as [E|E]; [|now right].
  rewrite E. apply H1.
Qed.

Lemma grown_insert (f : gmap (list string) node) (cs : list string) (k : nat) :
  grown f (<[take k cs := Dir]> f) cs.
Proof.
  intros q. destruct (decide (take k cs = q)) as [<-|Hne].
  - right. rewrite lookup_insert_eq. eauto.
  - left. now rewrite lookup_insert_ne.
Qed.

Lemma no_files_grown (f f' : gmap (list string) node) (cs : list string) :
  no_files f cs -> grown f f' cs -> no_files f' cs.
Proof.
  intros Hn Hg k c. destruct (Hg (take k cs)) as [E|[E _]]; rewrite E.
  - apply Hn.
  - discriminate.
Qed.

Lemma node_at_grown (f f' : gmap (list string) node) (cs q : list string) :
  grown f f' cs -> Path.node_at f q = Some Dir -> Path.node_at f' q = Some Dir.
Proof.
  intros Hg. destruct q as [|x q']; [trivial|]. simpl.
  destruct (Hg (x :: q')) as [E|[E _]]; rewrite E; trivial.
Qed.

Lemma dirs_ok_grown (f f' : gmap (list string) node) (cs a : list string) :
  grown f f' cs -> dirs_ok f a -> dirs_ok f' a.
Proof. intros Hg Ha k. eapply node_at_grown; eauto. Qed.

Lemma resolve_comps (f : gmap (list string) node) (p : string) :
  String.eqb p "" = false -> Str.mem "." p = false ->
  Path.resolve f p = inr (comps p).
Proof.
  intros H Hd. unfold Path.resolve. rewrite H.
  apply walk_plain. now apply Split_plain.
Qed.

Lemma resolve_inr (f : gmap (list string) node) (p : string) (cs : list string) :
  Path.resolve f p = inr cs -> cs = comps p /\ String.eqb p "" = false.
Proof.
  unfold Path.resolve. destruct (String.eqb p ""); [discriminate|].
  intros H. split; [|reflexivity]. now apply walk_norm in H.
Qed.

Lemma node_at_insert (f : gmap (list string) node) (cs : list string) (n : node) :
  Path.node_at f cs = None -> Path.node_at (<[cs := n]> f) cs = Some n.
Proof.
  destruct cs as [|x r]; [discriminate|]. intros _. simpl. apply lookup_insert_eq.
Qed.

(** [mkdir] on a path whose parent is a directory leaves a directory. *)
Lemma mkdir_ensures (p : string) (mode : nat) (w : World) :
  quiet w ->
  String.eqb p "" = false -> Str.mem "." p = false ->
  (forall c, Path.node_at (fs w) (comps p) <> Some (File c)) ->
  Path.node_at (fs w) (comps p) = Some Dir
  \/ Path.node_at (fs w) (Path.parent (comps p)) = Some Dir ->
  exists r w',
    mkdir p mode w = (r, w')
    /\ (r = Ok \/ r = Err EEXIST)
    /\ Path.node_at (fs w') (comps p) = Some Dir
    /\ (fs w' = fs w \/ fs w' = <[comps p := Dir]> (fs w))
    /\ refused w' = refused w.
Proof.
  intros Hq Hp Hpd Hf Hd. unfold mkdir, bind, emit, refusal, get_fs, ret.
  cbn [fs trace refused written]. rewrite (Hq (EvMkdir p)).
  cbn [fs trace refused written]. rewrite (resolve_comps _ p Hp Hpd).
  destruct (Path.node_at (fs w) (comps p)) as [[|c]|] eqn:E.
  - eexists _, _. split; [reflexivity|]. cbn [fs refused]. auto.
  - now destruct (Hf c).
  - destruct Hd as [Hd|Hd]; [discriminate|]. rewrite Hd.
    unfold put. cbn [fs trace refused written].
    eexists _, _. split; [reflexivity|]. cbn [fs refused].
    split; [auto|]. split; [now apply node_at_insert|auto].
Qed.

(** One round of the loop on a directory whose parent is there. *)
Lemma mkdir_loop_round (path : string) (mode slash : nat) (rest : list nat) (w : World) :
  let directory := Str.substr_to slash path in
  quiet w ->
  Str.mem Str.NUL directory = false ->
  String.eqb directory "" = false -> Str.mem "." directory = false ->
  (forall c, Path.node_at (fs w) (comps directory) <> Some (File c)) ->
  Path.node_at (fs w) (comps directory) = Some Dir
  \/ Path.node_at (fs w) (Path.parent (comps directory)) = Some Dir ->
  exists w',
    mkdir_recursive_loop path mode (slash :: rest) w
    = mkdir_recursive_loop path mode rest w'
    /\ Path.node_at (fs w') (comps directory) = Some Dir
    /\ (fs w' = fs w \/ fs w' = <[comps directory := Dir]> (fs w))
    /\ quiet w'.
Proof.
  intros directory Hq Hn He Hdd Hf Hd. cbn [mkdir_recursive_loop]. fold directory.
  rewrite (c_str_id directory Hn). unfold bind at 1. rewrite stat_run.
  unfold Path.lookup. rewrite (resolve_comps _ directory He Hdd).
  destruct (Path.node_at (fs w) (comps directory)) as [[|c]|] eqn:E.
  - eexists. split; [reflexivity|]. cbn [add_events fs]. auto.
  - now destruct (Hf c).
  - unfold bind, make_dir.
    destruct (mkdir_ensures directory mode (add_events w [EvStat directory]) Hq He Hdd)
      as (r & w' & Hm & Hr & Hnode & Hfs & Hrf).
    + cbn [add_events fs]. now rewrite E.
    + cbn [add_events fs]. now rewrite E.
    + rewrite Hm. exists w'. split.
      * now destruct Hr as [-> | ->].
      * split; [exact Hnode|]. split; [exact Hfs|].
        intros e. rewrite Hrf. apply Hq.
Qed.

(** A character that is no slash extends the last piece. *)
Lemma Split_snoc (pre : string) (x : ascii) (A : list string) (c : string) :
  Ascii.eqb x "/" = false ->
  Base.Split pre "/" = (A ++ [c])%list ->
  Base.Split (pre ++ String x "") "/" = (A ++ [(c ++ String x "")%string])%list.
Proof.
  intros Hx. revert A c. induction pre as [|y r IH]; intros A c H.
  - simpl in H. destruct A as [|a A']; [|destruct A'; discriminate H].
    injection H as <-. rewrite append_nil_l. cbn [Base.Split].
    now rewrite mem_single, Hx.
  - rewrite append_cons. cbn [Base.Split] in *. rewrite mem_single in *.
    destruct (Ascii.eqb y "/").
    + destruct A as [|a A'].
      * injection H as _ H. now destruct (Split_nonempty r "/").
      * injection H as <- H. now rewrite (IH A' c H).
    + destruct (Base.Split r "/") as [|p ps] eqn:E; [now destruct (Split_nonempty r "/")|].
      destruct A as [|a A'].
      * injection H as <- ->. now rewrite (IH [] p eq_refl).
      * injection H as <- ->. now rewrite (IH (p :: A') c eq_refl).
Qed.

Lemma Split_slash_end (pre : string) :
  Base.Split (pre ++ "/") "/" = (Base.Split pre "/" ++ [""])%list.
Proof. apply (Split_app_slash pre ""). Qed.

Lemma filter_nonempty_last (A : list string) (c : string) :
  List.filter nonempty (A ++ [c])
  = (List.filter nonempty A ++ if String.eqb c "" then [] else [c])%list.
Proof.
  rewrite List.filter_app. simpl. unfold nonempty at 2.
  now destruct (String.eqb c "").
Qed.

Lemma take_app_length {X : Type} (a b : list X) : take (length a) (a ++ b) = a.
Proof. induction a as [|x r IH]; simpl; [now destruct b|now rewrite IH]. Qed.

Lemma take_take_app {X : Type} (k : nat) (a b : list X) :
  take k a = take (Nat.min k (length a)) (a ++ b).
Proof.
  revert k. induction a as [|x r IH]; intros k.
  - simpl. rewrite Nat.min_0_r. now destruct k.
  - destruct k as [|k]; [reflexivity|]. simpl. now rewrite IH.
Qed.

(** The directories on the way stay there when the next one is added. *)
Lemma dirs_ok_extend (f f' : gmap (list string) node) (A : list string) (c : string) :
  dirs_ok f A ->
  Path.node_at f' (A ++ [c]) = Some Dir ->
  f' = f \/ f' = <[(A ++ [c])%list := Dir]> f ->
  dirs_ok f' (A ++ [c]).
Proof.
  intros Ha Hn Hf k. destruct (Nat.le_gt_cases (length (A ++ [c])) k) as [Hk|Hk].
  - now rewrite firstn_all2.
  - rewrite length_app in Hk. simpl in Hk.
    assert (Ht : take k (A ++ [c]) = take k A).
    { rewrite (take_take_app k A [c]). f_equal. lia. }
    rewrite Ht. eapply (node_at_grown f f' (A ++ [c])); [|apply Ha].
    destruct Hf as [-> | ->]; [apply grown_refl|].
    rewrite <- (take_app_length (A ++ [c]) []) at 1. rewrite app_nil_r.
    apply grown_insert.
Qed.

Lemma append_snoc_assoc (pre : string) (x : ascii) (s : string) :
  pre ++ String x s = (pre ++ String x "") ++ s.
Proof. now rewrite append_assoc. Qed.

Lemma length_snoc (pre : string) (x : ascii) :
  String.length (pre ++ String x "") = S (String.length pre).
Proof. rewrite length_append. simpl. lia. Qed.

Lemma eqb_snoc_empty (pre : string) (x : ascii) :
  String.eqb (pre ++ String x "") "" = false.
Proof. destruct pre; reflexivity. Qed.

Lemma mem_cons_false (ch x : ascii) (s : string) :
  Str.mem ch (String x s) = false -> Ascii.eqb x ch = false /\ Str.mem ch s = false.
Proof. simpl. intros H. now apply orb_false_elim in H. Qed.

Lemma node_at_not_file (f : gmap (list string) node) (cs rest : list string) :
  no_files f (cs ++ rest) -> forall c, Path.node_at f cs <> Some (File c).
Proof.
  intros Hn c. destruct cs as [|x r]; [discriminate|].
  change (f !! (x :: r) <> Some (File c)).
  rewrite <- (take_app_length (x :: r) rest). apply Hn.
Qed.

(** The loop of [mkdir_recursive], from any place in a path without dots:
    it runs to its end, and every directory before the last slash is
    there afterwards. *)
Lemma mkdir_loop_ok (mode : nat) (s : string) :
  forall (pre : string) (A : list string) (c : string) (w : World),
    quiet w ->
    String.eqb pre "" = false ->
    Str.mem "." (pre ++ s) = false ->
    Str.mem Str.NUL (pre ++ s) = false ->
    Base.Split pre "/" = (A ++ [c])%list ->
    dirs_ok (fs w) (List.filter nonempty A) ->
    no_files (fs w) (comps (pre ++ s)) ->
    exists w' A' c',
      mkdir_recursive_loop (pre ++ s) mode (positions "/" (String.length pre) s) w
      = (inr tt, w')
      /\ Base.Split (pre ++ s) "/" = (A' ++ [c'])%list
      /\ dirs_ok (fs w') (List.filter nonempty A')
      /\ grown (fs w) (fs w') (comps (pre ++ s))
      /\ quiet w'.
Proof.
  induction s as [|x s' IH]; intros pre A c w Hq Hpre Hdot Hnul Hsplit Hdirs Hfiles.
  { exists w, A, c. rewrite append_nil_r. repeat split; trivial. apply grown_refl. }
  cbn [positions]. destruct (Ascii.eqb x "/") eqn:Hx.
  - apply Ascii.eqb_eq in Hx as ->.
    rewrite mem_append in Hdot, Hnul.
    apply orb_false_elim in Hdot as [Hd1 Hd2]. apply orb_false_elim in Hnul as [Hn1 Hn2].
    apply mem_cons_false in Hd2 as [_ Hd2]. apply mem_cons_false in Hn2 as [_ Hn2].
    assert (Hc : comps (pre ++ String "/" s') = (comps pre ++ comps s')%list)
      by now apply comps_app_slash.
    assert (Hcp : comps pre
                  = (List.filter nonempty A ++ if String.eqb c "" then [] else [c])%list).
    { now rewrite (comps_plain pre Hd1), Hsplit, filter_nonempty_last. }
    rewrite Hc in Hfiles.
    destruct (mkdir_loop_round (pre ++ String "/" s') mode (String.length pre)
                (positions "/" (S (String.length pre)) s') w)
      as (w1 & Hrun & Hnode & Hfs & Hq1).
    + exact Hq.
    + unfold Str.substr_to. now rewrite take_append.
    + unfold Str.substr_to. now rewrite take_append.
    + unfold Str.substr_to. now rewrite take_append.
    + unfold Str.substr_to. rewrite take_append. now apply (node_at_not_file _ _ (comps s')).
    + unfold Str.substr_to. rewrite take_append, Hcp.
      destruct (String.eqb c "").
      * left. rewrite app_nil_r. specialize (Hdirs (length (List.filter nonempty A))).
        now rewrite firstn_all in Hdirs.
      * right. unfold Path.parent. rewrite removelast_last.
        specialize (Hdirs (length (List.filter nonempty A))).
        now rewrite firstn_all in Hdirs.
    + unfold Str.substr_to in Hnode, Hfs. rewrite take_append in Hnode, Hfs.
      assert (Hg1 : grown (fs w) (fs w1) (comps pre ++ comps s')).
      { destruct Hfs as [-> | ->]; [apply grown_refl|].
        rewrite <- (take_app_length (comps pre) (comps s')) at 1. apply grown_insert. }
      destruct (IH (pre ++ "/") (A ++ [c])%list "" w1)
        as (w' & A' & c' & Hrun' & Hs' & Hd' & Hg' & Hq').
      * exact Hq1.
      * apply eqb_snoc_empty.
      * rewrite <- append_snoc_assoc, mem_append, Hd1. simpl. exact Hd2.
      * rewrite <- append_snoc_assoc, mem_append, Hn1. simpl. exact Hn2.
      * now rewrite Split_slash_end, Hsplit.
      * rewrite filter_nonempty_last. rewrite Hcp in Hnode, Hfs.
        destruct (String.eqb c "").
        -- rewrite app_nil_r in *. eapply dirs_ok_grown; [|exact Hdirs].
           destruct Hfs as [-> | ->]; [apply grown_refl|].
           rewrite <- (firstn_all (List.filter nonempty A)) at 1. apply grown_insert.
        -- now apply (dirs_ok_extend (fs w)).
      * rewrite <- append_snoc_assoc, Hc. now apply (no_files_grown (fs w)).
      * rewrite length_snoc, <- append_snoc_assoc in Hrun'.
        rewrite <- append_snoc_assoc in Hs', Hg'.
        exists w', A', c'. rewrite Hrun. repeat split; trivial.
        rewrite Hc in *. now apply (grown_trans _ (fs w1)).
  - destruct (IH (pre ++ String x "") A (c ++ String x "") w)
      as (w' & A' & c' & Hrun' & Hs' & Hd' & Hg' & Hq').
    + exact Hq.
    + apply eqb_snoc_empty.
    + now rewrite <- append_snoc_assoc.
    + now rewrite <- append_snoc_assoc.
    + now apply Split_snoc.
    + exact Hdirs.
    + now rewrite <- append_snoc_assoc.
    + rewrite length_snoc, <- append_snoc_assoc in Hrun'.
      rewrite <- append_snoc_assoc in Hs', Hg'.
      exists w', A', c'. repeat split; trivial.
Qed.

Lemma dirs_ok_nil (f : gmap (list string) node) : dirs_ok f [].
Proof. intros k. now destruct k. Qed.

Lemma dirs_ok_self (f : gmap (list string) node) (cs : list string) :
  dirs_ok f cs -> Path.node_at f cs = Some Dir.
Proof. intros H. specialize (H (length cs)). now rewrite firstn_all in H. Qed.

(** [mkdir_recursive] on a path without dots, with no regular file in the
    way: it returns 0 and the directory and all those above it are there. *)
Lemma mkdir_recursive_ok (D : string) (mode : nat) (w : World) :
  quiet w ->
  String.eqb D "" = false ->
  Str.mem "." D = false -> Str.mem Str.NUL D = false ->
  no_files (fs w) (comps D) ->
  exists w',
    mkdir_recursive D mode w = (0%Z, w')
    /\ dirs_ok (fs w') (comps D)
    /\ grown (fs w) (fs w') (comps D)
    /\ quiet w'.
Proof.
  intros Hq He Hdot Hnul Hfiles. destruct D as [|x0 s0]; [discriminate|].
  unfold mkdir_recursive. cbn [Str.next].
  change (String x0 s0) with (String x0 "" ++ s0) in *.
  change 1 with (String.length (String x0 "")).
  destruct (mkdir_loop_ok mode s0 (String x0 "")
              (if Ascii.eqb x0 "/" then [""] else [])
              (if Ascii.eqb x0 "/" then "" else String x0 "") w)
    as (w1 & A & c & Hrun & Hsplit & Hdirs & Hg & Hq1); trivial.
  { cbn [Base.Split]. rewrite mem_single. now destruct (Ascii.eqb x0 "/"). }
  { destruct (Ascii.eqb x0 "/"); apply dirs_ok_nil. }
  unfold bind at 1. rewrite Hrun. unfold bind, make_dir.
  rewrite (c_str_id _ Hnul).
  assert (Hcp : comps (String x0 "" ++ s0)
                = (List.filter nonempty A ++ if String.eqb c "" then [] else [c])%list).
  { now rewrite (comps_plain _ Hdot), Hsplit, filter_nonempty_last. }
  assert (Hf1 : no_files (fs w1) (comps (String x0 "" ++ s0)))
    by now apply (no_files_grown (fs w)).
  destruct (mkdir_ensures (String x0 "" ++ s0) mode w1 Hq1 He Hdot)
    as (r & w' & Hm & Hr & Hnode & Hfs & Hrf).
  - apply (node_at_not_file _ _ []). now rewrite app_nil_r.
  - rewrite Hcp. destruct (String.eqb c "").
    + left. rewrite app_nil_r. now apply dirs_ok_self.
    + right. unfold Path.parent. rewrite removelast_last. now apply dirs_ok_self.
  - rewrite Hm. exists w'.
    assert (Hg2 : grown (fs w1) (fs w') (comps (String x0 "" ++ s0))).
    { destruct Hfs as [-> | ->]; [apply grown_refl|].
      rewrite <- (firstn_all (comps (String x0 "" ++ s0))) at 1. apply grown_insert. }
    split; [now destruct Hr as [-> | ->]|]. split; [|split].
    + rewrite Hcp in *. destruct (String.eqb c "").
      * rewrite app_nil_r in *. now apply (dirs_ok_grown (fs w1) _ _ _ Hg2).
      * now apply (dirs_ok_extend (fs w1)).
    + now apply (grown_trans _ (fs w1)).
    + intros e. rewrite Hrf. apply Hq1.
Qed.

End MkdirRecursive.

(** ** [dirname] of a path without dots *)

Section DirnameFacts.

Lemma rstrip_no_trailing (s : string) :
  Path.ends_with_slash s = false -> Libc.rstrip_slash s = s.
Proof.
  induction s as [|a r IH]; [reflexivity|].
  cbn [Path.ends_with_slash Libc.rstrip_slash]. destruct r as [|b r'].
  - simpl. now intros ->.
  - intros H. rewrite (IH H). reflexivity.
Qed.

(** A path with a slash is a directory part, a slash and a name. *)
Lemma last_slash_split (t : string) :
  Str.mem "/" t = true ->
  exists base name, t = base ++ String "/" name /\ Str.mem "/" name = false.
Proof.
  induction t as [|x r IH]; [discriminate|].
  destruct (Str.mem "/" r) eqn:E.
  - intros _. destruct (IH eq_refl) as (b & n & -> & Hn).
    exists (String x b), n. now rewrite append_cons.
  - simpl. rewrite E, orb_false_r. intros H. apply Ascii.eqb_eq in H as ->.
    now exists "", r.
Qed.

Lemma mem_head (ch : ascii) (s : string) : Str.mem ch (String ch s) = true.
Proof. simpl. now rewrite Ascii.eqb_refl. Qed.

Lemma upto_last_slash_app (base name : string) :
  Str.mem "/" name = false ->
  Libc.upto_last_slash (base ++ String "/" name) = base ++ "/".
Proof.
  intros Hn. induction base as [|y r IH].
  - rewrite !append_nil_l. cbn [Libc.upto_last_slash]. now rewrite Hn.
  - rewrite !append_cons. cbn [Libc.upto_last_slash].
    rewrite mem_append, mem_head, orb_true_r. now rewrite IH.
Qed.

Lemma rstrip_slash_end (base : string) :
  Libc.rstrip_slash (base ++ "/") = Libc.rstrip_slash base.
Proof.
  induction base as [|y r IH]; [reflexivity|].
  rewrite append_cons. cbn [Libc.rstrip_slash]. now rewrite IH.
Qed.

Lemma rstrip_decomp (base : string) :
  exists n, base = Libc.rstrip_slash base ++ slashes n.
Proof.
  induction base as [|y r [n IH]]; [now exists 0|].
  cbn [Libc.rstrip_slash]. destruct (Libc.rstrip_slash r) as [|z t] eqn:E.
  - rewrite append_nil_l in IH. destruct (Ascii.eqb y "/") eqn:Ey.
    + apply Ascii.eqb_eq in Ey as ->. exists (S n). now rewrite IH.
    + exists n. now rewrite append_cons, append_nil_l, <- IH.
  - exists n. now rewrite append_cons, <- IH.
Qed.

Lemma slashes_no_dot (n : nat) : Str.mem "." (slashes n) = false.
Proof. induction n; simpl; trivial. Qed.

Lemma comps_slashes (core : string) (n : nat) :
  Str.mem "." core = false -> comps (core ++ slashes n) = comps core.
Proof.
  intros Hc. destruct n as [|n]; [now rewrite append_nil_r|].
  cbn [slashes]. rewrite (comps_app_slash core (slashes n) Hc (slashes_no_dot n)).
  assert (H0 : comps (slashes n) = []).
  { induction n as [|n IHn]; [reflexivity|]. cbn [slashes].
    change (String "/" (slashes n)) with ("" ++ String "/" (slashes n)).
    rewrite (comps_app_slash "" (slashes n) eq_refl (slashes_no_dot n)).
    now rewrite IHn. }
  now rewrite H0, app_nil_r.
Qed.

Lemma ends_with_slash_end (base : string) : Path.ends_with_slash (base ++ "/") = true.
Proof.
  induction base as [|y r IH]; [reflexivity|].
  rewrite append_cons. cbn [Path.ends_with_slash].
  destruct (r ++ "/") eqn:E; [|exact IH].
  destruct r; discriminate E.
Qed.

Lemma eqb_app_slash (base name : string) :
  String.eqb (base ++ String "/" name) "" = false.
Proof. destruct base; reflexivity. Qed.

(** The directory of a file path without dots: not empty, without dots,
    and resolving to the components before the name. *)
Lemma dirname_file (base name : string) :
  Str.mem "/" name = false ->
  Path.ends_with_slash (base ++ String "/" name) = false ->
  Str.mem "." base = false -> Str.mem Str.NUL base = false ->
  String.eqb (Libc.dirname (base ++ String "/" name)) "" = false
  /\ Str.mem "." (Libc.dirname (base ++ String "/" name)) = false
  /\ Str.mem Str.NUL (Libc.dirname (base ++ String "/" name)) = false
  /\ comps (Libc.dirname (base ++ String "/" name)) = comps base.
Proof.
  intros Hn He Hd Hz. unfold Libc.dirname.
  rewrite (rstrip_no_trailing _ He), eqb_app_slash, mem_append, mem_head, orb_true_r.
  cbn [negb]. rewrite (upto_last_slash_app base name Hn), rstrip_slash_end.
  destruct (rstrip_decomp base) as [n Hb].
  assert (Hd' : Str.mem "." (Libc.rstrip_slash base) = false).
  { rewrite Hb, mem_append in Hd. now apply orb_false_elim in Hd as [Hd _]. }
  assert (Hz' : Str.mem Str.NUL (Libc.rstrip_slash base) = false).
  { rewrite Hb, mem_append in Hz. now apply orb_false_elim in Hz as [Hz _]. }
  assert (Hc : comps base = comps (Libc.rstrip_slash base)).
  { rewrite Hb at 1. now apply comps_slashes. }
  rewrite Hc.
  destruct (Libc.rstrip_slash base) as [|y t] eqn:E; repeat split; trivial.
Qed.

End DirnameFacts.

(** ** The synthesizer under a root without dots *)

Section Synthesis.

Lemma replace_append (o n : ascii) (a b : string) :
  Str.replace o n (a ++ b) = Str.replace o n a ++ Str.replace o n b.
Proof.
  induction a as [|x r IH]; [reflexivity|].
  rewrite append_cons. cbn [Str.replace]. now rewrite IH, append_cons.
Qed.

Lemma replace_id (o n : ascii) (a : string) :
  Str.mem o a = false -> Str.replace o n a = a.
Proof.
  induction a as [|x r IH]; [reflexivity|]. intros H.
  apply mem_cons_false in H as [H1 H2]. cbn [Str.replace].
  now rewrite H1, (IH H2).
Qed.

Lemma mem_replace_old (o n : ascii) (s : string) :
  Ascii.eqb n o = false -> Str.mem o (Str.replace o n s) = false.
Proof.
  intros Hn. induction s as [|x r IH]; [reflexivity|].
  cbn [Str.replace Str.mem]. rewrite IH, orb_false_r.
  destruct (Ascii.eqb x o) eqn:E; [exact Hn|exact E].
Qed.

Lemma mem_replace_other (ch o n : ascii) (s : string) :
  Ascii.eqb n ch = false -> Str.mem ch s = false ->
  Str.mem ch (Str.replace o n s) = false.
Proof.
  intros Hn. induction s as [|x r IH]; [reflexivity|]. intros H.
  apply mem_cons_false in H as [H1 H2].
  cbn [Str.replace Str.mem]. rewrite (IH H2), orb_false_r.
  now destruct (Ascii.eqb x o).
Qed.

Lemma clear_way_no_files (f : gmap (list string) node) (cs : list string) (x : string) :
  clear_way f (cs ++ [x]) = true -> no_files f cs.
Proof.
  unfold clear_way. intros H. apply andb_prop in H as [H _].
  rewrite forallb_forall in H. intros k c Hk.
  specialize (H (Nat.min k (length cs))).
  rewrite <- (take_take_app k cs [x]), Hk in H.
  assert (Hin : In (Nat.min k (length cs)) (seq 0 (length (cs ++ [x])))).
  { apply in_seq. rewrite length_app. simpl. lia. }
  specialize (H Hin). discriminate H.
Qed.

Lemma clear_way_no_dir (f : gmap (list string) node) (cs : list string) :
  clear_way f cs = true -> f !! cs <> Some Dir.
Proof.
  unfold clear_way. intros H. apply andb_prop in H as [_ H].
  intros E. rewrite E in H. discriminate H.
Qed.

Lemma node_at_snoc (f : gmap (list string) node) (l : list string) (x : string) :
  Path.node_at f (l ++ [x]) = f !! (l ++ [x])%list.
Proof. now destruct l. Qed.

(** [WriteFile] on a path whose directory is there and which is no
    directory itself: the file holds the content afterwards. *)
Lemma WriteFile_creates (F content : string) (w : World) (l : list string) (x : string) :
  quiet w ->
  String.eqb F "" = false ->
  Str.mem "." F = false ->
  Str.mem Str.NUL F = false ->
  Path.ends_with_slash F = false ->
  comps F = (l ++ [x])%list ->
  fs w !! (l ++ [x])%list <> Some Dir ->
  Path.node_at (fs w) l = Some Dir ->
  fst (WriteFile F content w) = (true, "")
  /\ fs (snd (WriteFile F content w))
     = <[(l ++ [x])%list := File content]> (<[(l ++ [x])%list := File ""]> (fs w)).
Proof.
  intros Hq He Hd Hn Hs Hc Hnd Hp.
  unfold WriteFile, open_wr, WriteStringToFd, bind, emit, refusal, get_fs, put, ret.
  rewrite (c_str_id F Hn). cbn [fs trace refused written].
  rewrite (Hq (EvOpen F)). cbn [fs trace refused written].
  rewrite (resolve_comps _ F He Hd), Hc, node_at_snoc, Hs.
  unfold Path.parent. rewrite removelast_last, Hp.
  destruct (fs w !! (l ++ [x])%list) as [[|c]|] eqn:E.
  - now destruct Hnd.
  - cbn [fs trace refused written fst snd]. rewrite (Hq (EvWrite (l ++ [x])%list content)).
    destruct (String.eqb content ""); cbn [fs trace fst snd]; auto.
  - cbn [fs trace refused written fst snd]. rewrite (Hq (EvWrite (l ++ [x])%list content)).
    destruct (String.eqb content ""); cbn [fs trace fst snd]; auto.
Qed.

Lemma take_shorter {X : Type} (k : nat) (l : list X) (x : X) : take k l <> (l ++ [x])%list.
Proof.
  intros H. apply (f_equal length) in H.
  rewrite length_take, length_app in H. simpl in H. lia.
Qed.

(** The general case of the synthesizer: when the system refuses no
    call, for a key with the prefix, under a root without dots, with no
    NUL in the strings, a key that names a file, no regular file above the
    file and no directory in its place, the directories above the file are
    created and the file holds the value followed by one newline. *)
Lemma synthesis_under_plain_root (rest value rootdir : string) (for_emulator : bool)
    (w : World) :
  quiet w ->
  Str.mem "." rootdir = false -> Str.mem Str.NUL rootdir = false ->
  Str.mem Str.NUL rest = false -> Str.mem Str.NUL value = false ->
  Path.ends_with_slash (rootdir ++ "/" ++ Str.replace "." "/" rest) = false ->
  clear_way (fs w) (comps (rootdir ++ "/" ++ Str.replace "." "/" rest)) = true ->
  Path.lookup
    (fs (snd (create_dt_file_by_cmdline ("android.fw." ++ rest) value for_emulator
                rootdir w)))
    (rootdir ++ "/" ++ Str.replace "." "/" rest)
  = Some (File (value ++ newline))
  /\ dirs_ok
       (fs (snd (create_dt_file_by_cmdline ("android.fw." ++ rest) value for_emulator
                   rootdir w)))
       (removelast (comps (rootdir ++ "/" ++ Str.replace "." "/" rest))).
Proof.
  intros Hq Hrd Hrn Hn Hv Hs Hclear.
  set (F := rootdir ++ "/" ++ Str.replace "." "/" rest) in *.
  assert (HFd : Str.mem "." F = false).
  { unfold F. rewrite !mem_append, Hrd, (mem_replace_old "." "/" rest eq_refl).
    reflexivity. }
  assert (HFd0 := HFd).
  assert (HFn : Str.mem Str.NUL F = false).
  { unfold F. rewrite !mem_append, Hrn, (mem_replace_other Str.NUL "." "/" rest eq_refl Hn).
    reflexivity. }
  assert (HFs : Str.mem "/" F = true).
  { unfold F. rewrite mem_append. change ("/" ++ Str.replace "." "/" rest)
      with (String "/" (Str.replace "." "/" rest)).
    now rewrite mem_head, orb_true_r. }
  destruct (last_slash_split F HFs) as (base & name & HF & Hname).
  assert (Hne : String.eqb name "" = false).
  { destruct name; [|reflexivity]. rewrite HF, ends_with_slash_end in Hs. discriminate. }
  rewrite HF, mem_append in HFd, HFn.
  apply orb_false_elim in HFd as [Hbd Hnd]. apply orb_false_elim in HFn as [Hbn Hnn].
  apply mem_cons_false in Hnd as [_ Hnd]. apply mem_cons_false in Hnn as [_ Hnn].
  assert (Hc : comps F = (comps base ++ [name])%list).
  { rewrite HF, (comps_app_slash base name Hbd Hnd), (comps_component name Hname Hnd).
    now rewrite Hne. }
  assert (HFe : String.eqb F "" = false) by (rewrite HF; apply eqb_app_slash).
  assert (HFz : Str.mem Str.NUL F = false).
  { rewrite HF, mem_append, Hbn. simpl. exact Hnn. }
  rewrite HF in Hs.
  destruct (dirname_file base name Hname Hs Hbd Hbn) as (HDe & HDd & HDn & HDc).
  rewrite <- HF in Hs, HDe, HDd, HDn, HDc.
  (* the strings the function computes *)
  assert (Hrun : create_dt_file_by_cmdline ("android.fw." ++ rest) value for_emulator
                   rootdir w
                 = (mkdir_recursive (Libc.dirname F) 448 ;;;
                    WriteFile F (value ++ newline) ;;; ret tt) w).
  { unfold create_dt_file_by_cmdline, Base.StartsWith.
    rewrite starts_with_append.
    change (String.eqb ("android.fw." ++ rest) "") with false. cbv iota.
    rewrite (c_str_id rootdir Hrn).
    rewrite (c_str_id ("android.fw." ++ rest)) by (rewrite mem_append, Hn; reflexivity).
    change 11 with (String.length "android.fw."). rewrite advance_append.
    rewrite !replace_append, (replace_id "." "/" rootdir Hrd).
    change (Str.replace "." "/" "/") with "/". fold F.
    unfold Dirname. rewrite (c_str_id F HFz), (c_str_id _ HDn).
    rewrite (c_str_id (value ++ String "010" "")) by (rewrite mem_append, Hv; reflexivity).
    reflexivity. }
  destruct (mkdir_recursive_ok (Libc.dirname F) 448 w Hq HDe HDd HDn)
    as (w1 & Hm & Hdirs & Hg & Hq1).
  { rewrite HDc. apply (clear_way_no_files _ _ name). now rewrite <- Hc. }
  rewrite HDc in Hdirs, Hg.
  assert (Hsame : fs w1 !! (comps base ++ [name])%list = fs w !! (comps base ++ [name])%list).
  { destruct (Hg (comps base ++ [name])%list) as [E|[_ [k E]]]; [exact E|].
    symmetry in E. now destruct (take_shorter k (comps base) name). }
  destruct (WriteFile_creates F (value ++ newline) w1 (comps base) name Hq1 HFe HFd0 HFz Hs
              Hc) as [_ Hfs].
  { rewrite Hsame, <- Hc. now apply clear_way_no_dir. }
  { now apply dirs_ok_self. }
  assert (Hfinal :
    fs (snd (create_dt_file_by_cmdline ("android.fw." ++ rest) value for_emulator
               rootdir w))
    = <[(comps base ++ [name])%list := File (value ++ newline)]>
        (<[(comps base ++ [name])%list := File ""]> (fs w1))).
  { rewrite Hrun. unfold bind, ret. rewrite Hm.
    now destruct (WriteFile F (value ++ newline) w1). }
  rewrite Hfinal, Hc. split.
  - unfold Path.lookup.
    rewrite (resolve_comps _ F HFe HFd0), Hc, node_at_snoc, lookup_insert_eq.
    now rewrite Hs.
  - unfold Path.parent. rewrite removelast_last. intros k.
    specialize (Hdirs k). destruct (take k (comps base)) as [|y t] eqn:E; [reflexivity|].
    cbn [Path.node_at] in *. rewrite <- E in *.
    rewrite !lookup_insert_ne; trivial; intros H; symmetry in H;
      now destruct (take_shorter k (comps base) name).
Qed.

End Synthesis.

(** ** The claims about the resolver and the synthesizer *)

(** C2, as the specification states it, fails: with the canonical
    directory absent and the override key on the command line, the value of
    the key does not become the candidate when it is the canonical path;
    the resolver returns the secondary default. *)
Lemma canonical_override_not_adopted :
  dir_exists canonical_override_world kDefaultAndroidDtDir = false
  /\ accepted_pairs (content_of "/proc/cmdline" canonical_override_world)
     = [("androidboot.android_dt_dir", "/proc/device-tree/firmware/android/")]
  /\ fst (init_android_dt_dir canonical_override_world)
     = "/dev/device-tree/firmware/android/"
  /\ fst (init_android_dt_dir canonical_override_world)
     <> "/proc/device-tree/firmware/android/".
Proof. vm_compute. repeat split. discriminate. Qed.

(** C2, amended. If the canonical procfs directory is an existing
    directory it is returned after that one check and nothing else is done.
    Otherwise the candidate is the value of the last accepted pair of the
    command line with the key [androidboot.android_dt_dir], or the
    secondary default when there is no such pair or when that value is the
    canonical path; if the candidate is not an existing directory the ACPI
    import is run with the synthesizer and the candidate as target; and the
    candidate is returned in every case, whatever the import did. *)
Theorem android_dt_dir_priority_chain (w : World) :
  init_android_dt_dir w
  = if dir_exists w kDefaultAndroidDtDir
    then (kDefaultAndroidDtDir, add_events w [EvStat kDefaultAndroidDtDir])
    else
      let candidate := candidate_of (content_of "/proc/cmdline" w) in
      let w' := add_events w [EvStat kDefaultAndroidDtDir; EvRead "/proc/cmdline";
                              EvStat (Str.c_str candidate)] in
      if dir_exists w (Str.c_str candidate) then (candidate, w')
      else (candidate, snd (import_acpi_cmdline false synthesize candidate tt w')).
Proof. apply init_android_dt_dir_run. Qed.

(** C10. With the canonical directory absent, the resolver returns the
    value of the last accepted pair with the override key, unless that
    value is the canonical path, for which it returns the secondary
    default, exactly as it does for a command line without the key. *)
Theorem canonical_override_same_as_none (w : World) :
  dir_exists w kDefaultAndroidDtDir = false ->
  (forall (before after : list (string * string)) (v : string),
      accepted_pairs (content_of "/proc/cmdline" w)
      = (before ++ ("androidboot.android_dt_dir", v) :: after)%list ->
      forallb (fun kv => negb (is_override kv)) after = true ->
      fst (init_android_dt_dir w)
      = if String.eqb v "/proc/device-tree/firmware/android/"
        then "/dev/device-tree/firmware/android/" else v)
  /\ (forallb (fun kv => negb (is_override kv))
              (accepted_pairs (content_of "/proc/cmdline" w)) = true ->
      fst (init_android_dt_dir w) = "/dev/device-tree/firmware/android/").
Proof.
  intros Hd.
  assert (Hfst : fst (init_android_dt_dir w)
                 = candidate_of (content_of "/proc/cmdline" w)).
  { rewrite init_android_dt_dir_run, Hd. cbv zeta.
    now destruct (dir_exists w (Str.c_str (candidate_of (content_of "/proc/cmdline" w)))). }
  rewrite Hfst. unfold candidate_of. split.
  - intros before after v Hp Ha. now rewrite (override_of_last _ _ _ _ Hp Ha).
  - intros Ha. now rewrite (override_of_none _ Ha).
Qed.

Lemma canonical_override_same_as_none_witness :
  fst (init_android_dt_dir two_overrides_world) = "/dev/device-tree/firmware/android/".
Proof.
  exact (proj1 (canonical_override_same_as_none two_overrides_world eq_refl)
           [("androidboot.android_dt_dir", "/a")] []
           "/proc/device-tree/firmware/android/" eq_refl eq_refl).
Defined.

(** Keys without the prefix [android.fw.] are ignored: nothing is called,
    nothing is created. *)
Lemma synthesis_ignores_other_keys (key value : string) (for_emulator : bool)
    (rootdir : string) (w : World) :
  Base.StartsWith key "android.fw." = false ->
  create_dt_file_by_cmdline key value for_emulator rootdir w = (tt, w).
Proof.
  intros H. unfold create_dt_file_by_cmdline. rewrite H.
  now destruct (String.eqb key "").
Qed.

(** The example of the specification, in every world where the system
    refuses no call, no regular file is above [/tmp/dt/display/panel] and
    no directory is in its place: the directories [/tmp], [/tmp/dt] and
    [/tmp/dt/display] are there afterwards and the file holds the value
    and a newline. *)
Lemma synthesis_example (w : World) :
  quiet w ->
  clear_way (fs w) ["tmp"; "dt"; "display"; "panel"] = true ->
  Path.lookup
    (fs (snd (create_dt_file_by_cmdline "android.fw.display.panel" "oled" false
                "/tmp/dt" w)))
    "/tmp/dt/display/panel"
  = Some (File ("oled" ++ newline))
  /\ dirs_ok
       (fs (snd (create_dt_file_by_cmdline "android.fw.display.panel" "oled" false
                   "/tmp/dt" w)))
       ["tmp"; "dt"; "display"].
Proof.
  intros Hq H.
  exact (synthesis_under_plain_root "display.panel" "oled" "/tmp/dt" false w
           Hq eq_refl eq_refl eq_refl eq_refl eq_refl H).
Qed.

Lemma synthesis_example_empty :
  Path.lookup
    (fs (snd (create_dt_file_by_cmdline "android.fw.display.panel" "oled" false
                "/tmp/dt" (world_of []))))
    "/tmp/dt/display/panel"
  = Some (File ("oled" ++ newline)).
Proof. apply synthesis_example; [intros e|]; reflexivity. Qed.

(** C5, at a target root with a dot. Keys without the prefix are ignored
    and under a root without dots the file is written as the claim says
    (the lemmas above); but the dots of the root are replaced together
    with those of the key: for the root [/tmp/dt.d] the file is not
    created under the root but at [/tmp/dt/d/display/panel]. A device that
    sets its directory to [/tmp/dt.d/] on the command line gets that
    directory back from the resolver, and the reader finds no
    [display/panel] in it. *)
Theorem synthesis_rewrites_dots_of_root :
  Path.lookup
    (fs (snd (create_dt_file_by_cmdline "android.fw.display.panel" "oled" false
                "/tmp/dt.d" (world_of []))))
    "/tmp/dt.d/display/panel" = None
  /\ Path.lookup
       (fs (snd (create_dt_file_by_cmdline "android.fw.display.panel" "oled" false
                   "/tmp/dt.d" (world_of []))))
       "/tmp/dt/d/display/panel" = Some (File ("oled" ++ newline))
  /\ fst (init_android_dt_dir dotted_root_world) = "/tmp/dt.d/"
  /\ fst (fst (fst (read_android_dt_file "display/panel" None dotted_root_world)))
     = false.
Proof. vm_compute. repeat split. Qed.

(** ** [bytes_to_hex] *)

Section HexFacts.

Lemma StringAppendF_02x_append (hex : string) (b : Byte.byte) :
  StringAppendF_02x hex b = hex ++ StringAppendF_02x "" b.
Proof. reflexivity. Qed.

Lemma bytes_to_hex_digits (bytes : list Byte.byte) (hex : string) :
  fold_left StringAppendF_02x bytes hex = hex ++ hex_digits bytes.
Proof.
  revert hex. induction bytes as [|b r IH]; intros hex; cbn [fold_left hex_digits].
  - now rewrite append_nil_r.
  - now rewrite IH, StringAppendF_02x_append, append_assoc.
Qed.

(** The two digits written for a byte give the byte back. *)
Lemma hex_decode_byte (b : Byte.byte) (r : string) :
  hex_decode (StringAppendF_02x "" b ++ r)
  = match hex_decode r with
    | Some bs => Some (b :: bs)
    | None => None
    end.
Proof.
  unfold StringAppendF_02x. rewrite append_nil_l, !append_cons, append_nil_l.
  cbn [hex_decode].
  assert (H : hex_value (hex_digit (N.div (Byte.to_N b) 16)) = Some (N.div (Byte.to_N b) 16)
              /\ hex_value (hex_digit (N.modulo (Byte.to_N b) 16))
                 = Some (N.modulo (Byte.to_N b) 16)
              /\ Byte.of_N (16 * N.div (Byte.to_N b) 16 + N.modulo (Byte.to_N b) 16)
                 = Some b).
  { destruct b; vm_compute; auto. }
  destruct H as (-> & -> & Hb). destruct (hex_decode r); [|reflexivity].
  now rewrite Hb.
Qed.

Lemma hex_decode_digits (bytes : list Byte.byte) :
  hex_decode (hex_digits bytes) = Some bytes.
Proof.
  induction bytes as [|b r IH]; [reflexivity|]. cbn [hex_digits].
  now rewrite hex_decode_byte, IH.
Qed.

Lemma length_hex_digits (bytes : list Byte.byte) :
  String.length (hex_digits bytes) = 2 * length bytes.
Proof.
  induction bytes as [|b r IH]; [reflexivity|]. cbn [hex_digits length].
  rewrite length_append, IH. unfold StringAppendF_02x. rewrite append_nil_l.
  cbn [String.length]. lia.
Qed.

(** X18. [bytes_to_hex] loses nothing: the string it returns is [0x]
    followed by two digits a byte, so of length [2 + 2 * bytes_len]; read
    as hexadecimal digits it gives the bytes back, and so two sequences of
    bytes with the same string are the same. *)
Theorem bytes_to_hex_round_trip (bytes : list Byte.byte) :
  hex_to_bytes (bytes_to_hex bytes) = Some bytes
  /\ String.length (bytes_to_hex bytes) = 2 + 2 * length bytes
  /\ forall other, bytes_to_hex other = bytes_to_hex bytes -> other = bytes.
Proof.
  assert (Hrt : forall l, hex_to_bytes (bytes_to_hex l) = Some l).
  { intros l. unfold bytes_to_hex. rewrite bytes_to_hex_digits.
    change ("0x" ++ hex_digits l) with (String "0" (String "x" (hex_digits l))).
    cbn [hex_to_bytes]. apply hex_decode_digits. }
  split; [apply Hrt|]. split.
  - unfold bytes_to_hex. rewrite bytes_to_hex_digits, length_append, length_hex_digits.
    reflexivity.
  - intros other H. pose proof (Hrt other) as Ho. rewrite H, Hrt in Ho. congruence.
Qed.

End HexFacts.

(** ** Further properties of the tokenizer *)

Section TokenFacts.

Variable ch : ascii.

Lemma mem_before (t : string) : Str.mem ch (Str.before ch t) = false.
Proof.
  induction t as [|a r IH]; [reflexivity|]. cbn [Str.before].
  destruct (Ascii.eqb a ch) eqn:E; [reflexivity|]. simpl. now rewrite E.
Qed.

Lemma count_0_mem (t : string) : Str.count ch t = 0 -> Str.mem ch t = false.
Proof.
  induction t as [|a r IH]; [reflexivity|]. simpl.
  destruct (Ascii.eqb a ch); simpl; [discriminate|exact IH].
Qed.

Lemma mem_after (t : string) : Str.count ch t = 1 -> Str.mem ch (Str.after ch t) = false.
Proof.
  induction t as [|a r IH]; [reflexivity|]. simpl.
  destruct (Ascii.eqb a ch); simpl; intros H.
  - apply count_0_mem. lia.
  - now apply IH.
Qed.

Lemma before_after (t : string) :
  Str.count ch t = 1 -> t = Str.before ch t ++ String ch (Str.after ch t).
Proof.
  induction t as [|a r IH]; [discriminate|]. simpl.
  destruct (Ascii.eqb a ch) eqn:E; simpl; intros H.
  - apply Ascii.eqb_eq in E as ->. reflexivity.
  - rewrite append_cons. f_equal. now apply IH.
Qed.

Lemma mem_before_other (c : ascii) (t : string) :
  Str.mem c t = false -> Str.mem c (Str.before ch t) = false.
Proof.
  induction t as [|a r IH]; [reflexivity|]. intros H.
  apply mem_cons_false in H as [H1 H2]. cbn [Str.before].
  destruct (Ascii.eqb a ch); [reflexivity|]. simpl. now rewrite H1, (IH H2).
Qed.

Lemma mem_after_other (c : ascii) (t : string) :
  Str.mem c t = false -> Str.mem c (Str.after ch t) = false.
Proof.
  induction t as [|a r IH]; [reflexivity|]. intros H.
  apply mem_cons_false in H as [H1 H2]. cbn [Str.after].
  destruct (Ascii.eqb a ch); [exact H2|now apply IH].
Qed.

(** The pieces [Split] gives hold no delimiter. *)
Lemma Split_pieces (s : string) :
  Forall (fun p => Str.mem ch p = false) (Base.Split s (String ch "")).
Proof.
  induction s as [|a r IH]; [repeat constructor|].
  cbn [Base.Split]. rewrite mem_single.
  destruct (Ascii.eqb a ch) eqn:E; [now constructor|].
  destruct (Base.Split r (String ch "")) as [|p ps]; [repeat constructor; simpl; now rewrite E|].
  inversion IH as [|? ? Hp Hps]; subst. constructor; [|exact Hps].
  simpl. now rewrite E, Hp.
Qed.

Lemma Split_app_char (a b : string) :
  Base.Split (a ++ String ch b) (String ch "")
  = (Base.Split a (String ch "") ++ Base.Split b (String ch ""))%list.
Proof.
  induction a as [|x r IH].
  - rewrite append_nil_l. cbn [Base.Split]. rewrite mem_single, Ascii.eqb_refl.
    reflexivity.
  - rewrite append_cons. cbn [Base.Split]. rewrite mem_single, IH.
    destruct (Ascii.eqb x ch); [reflexivity|].
    destruct (Base.Split r (String ch "")) as [|p ps] eqn:E; [|reflexivity].
    now destruct (Split_nonempty r (String ch "")).
Qed.

Lemma Split_without (c : string) :
  Str.mem ch c = false -> Base.Split c (String ch "") = [c].
Proof.
  induction c as [|x r IH]; [reflexivity|]. intros H.
  apply mem_cons_false in H as [H1 H2].
  cbn [Base.Split]. rewrite mem_single, H1, (IH H2). reflexivity.
Qed.

End TokenFacts.

Section MoreTokenizer.

(** What an accepted pair is made of. *)
Lemma accepted_pair_parts (t k v : string) :
  Str.mem " " t = false ->
  accepted_pair t = Some (k, v) ->
  Str.mem "=" k = false /\ Str.mem "=" v = false
  /\ Str.mem " " k = false /\ Str.mem " " v = false
  /\ t = k ++ "=" ++ v.
Proof.
  unfold accepted_pair. intros Ht.
  destruct (Nat.eqb (Str.count "=" t) 1) eqn:E; [|discriminate].
  apply Nat.eqb_eq in E. intros [= <- <-].
  split; [apply mem_before|]. split; [now apply mem_after|].
  split; [now apply mem_before_other|]. split; [now apply mem_after_other|].
  now apply before_after.
Qed.

(** X1. Whatever the command line, every call [import_kernel_cmdline]
    makes passes the flag it was given, a key and a value without [=] and
    without a space, and the key, [=] and the value together are one of
    the space-separated tokens of the trimmed command line. *)
Theorem tokenizer_calls_are_assignments (in_qemu : bool) (w : World) :
  Forall (fun call =>
            snd call = in_qemu
            /\ Str.mem "=" (fst (fst call)) = false
            /\ Str.mem "=" (snd (fst call)) = false
            /\ Str.mem " " (fst (fst call)) = false
            /\ Str.mem " " (snd (fst call)) = false
            /\ In (fst (fst call) ++ "=" ++ snd (fst call))
                  (Base.Split (Base.Trim (content_of "/proc/cmdline" w)) " "))
         (fst (import_kernel_cmdline in_qemu record_call [] w)).
Proof.
  rewrite import_kernel_cmdline_run. unfold bind.
  rewrite ReadFileToString_run, foldM_record. cbn [fst snd app].
  fold (content_of "/proc/cmdline" w). unfold accepted_pairs.
  apply Forall_forall. intros [[k v] q] Hin.
  apply list_elem_of_fmap in Hin as ([k' v'] & [= -> -> ->] & Hin).
  apply list_elem_of_omap in Hin as (t & Ht & Hacc).
  pose proof (Split_pieces " " (Base.Trim (content_of "/proc/cmdline" w))) as Hp.
  rewrite Forall_forall in Hp. specialize (Hp t Ht).
  destruct (accepted_pair_parts t k' v' Hp Hacc) as (H1 & H2 & H3 & H4 & H5).
  cbn [fst snd]. repeat split; trivial.
  apply list_elem_of_In. now rewrite <- H5.
Qed.

Lemma ltrim_blank (s : string) : blank s = true -> Base.ltrim s = "".
Proof.
  induction s as [|a r IH]; [reflexivity|]. unfold blank. simpl.
  intros H. apply andb_prop in H as [H1 H2]. rewrite H1. now apply IH.
Qed.

Lemma accepted_pairs_blank (c : string) : blank c = true -> accepted_pairs c = [].
Proof.
  intros H. unfold accepted_pairs, Base.Trim. now rewrite (ltrim_blank c H).
Qed.

(** X2. When the command line read is empty or holds only whitespace (an
    unreadable [/proc/cmdline] reads as empty), [import_kernel_cmdline]
    never calls the callback: what the callback captures comes back
    unchanged and the only external call is the read. *)
Theorem blank_cmdline_calls_nothing {A : Type} (in_qemu : bool)
    (fn : string -> string -> bool -> A -> M A) (env : A) (w : World) :
  blank (content_of "/proc/cmdline" w) = true ->
  import_kernel_cmdline in_qemu fn env w
  = (env, add_events w [EvRead "/proc/cmdline"]).
Proof.
  intros H. rewrite import_kernel_cmdline_run. unfold bind.
  rewrite ReadFileToString_run. fold (content_of "/proc/cmdline" w).
  now rewrite (accepted_pairs_blank _ H).
Qed.

Lemma blank_cmdline_calls_nothing_witness :
  import_kernel_cmdline true record_call [] (world_of [])
  = ([], add_events (world_of []) [EvRead "/proc/cmdline"]).
Proof.
  exact (blank_cmdline_calls_nothing true record_call [] (world_of []) eq_refl).
Defined.

Lemma all_chars_mem (p : ascii -> bool) (c : ascii) (s : string) :
  p c = false -> all_chars p s = true -> Str.mem c s = false.
Proof.
  intros Hc. induction s as [|a r IH]; [reflexivity|]. simpl.
  intros H. apply andb_prop in H as [H1 H2]. rewrite (IH H2), orb_false_r.
  destruct (Ascii.eqb a c) eqn:E; [|reflexivity].
  apply Ascii.eqb_eq in E as ->. congruence.
Qed.

Lemma no_space_mem (t : string) : no_space t = true -> Str.mem " " t = false.
Proof. apply all_chars_mem. reflexivity. Qed.

Lemma rtrim_no_space (t : string) : no_space t = true -> Base.rtrim t = t.
Proof.
  induction t as [|a r IH]; [reflexivity|]. unfold no_space. simpl.
  intros H. apply andb_prop in H as [H1 H2]. apply negb_true_iff in H1.
  fold (no_space r) in H2. rewrite (IH H2), H1. now destruct r.
Qed.

Lemma rtrim_append (a b : string) :
  Base.rtrim b = b -> String.eqb b "" = false -> Base.rtrim (a ++ b) = a ++ b.
Proof.
  intros Hb Hne. induction a as [|x r IH]; [exact Hb|].
  rewrite append_cons. cbn [Base.rtrim]. rewrite IH.
  destruct (r ++ b) eqn:E; [|reflexivity].
  destruct r; [|discriminate E]. rewrite append_nil_l in E. now rewrite E in Hne.
Qed.

Lemma ltrim_token (t s : string) :
  token_ok t = true -> Base.ltrim (t ++ s) = t ++ s.
Proof.
  unfold token_ok, no_space. intros H. apply andb_prop in H as [H1 H2].
  destruct t as [|a r]; [discriminate H1|]. simpl in H2.
  apply andb_prop in H2 as [H2 _]. apply negb_true_iff in H2.
  rewrite append_cons. cbn [Base.ltrim]. now rewrite H2.
Qed.

Lemma join_cons (t : string) (r : list string) :
  r <> [] -> join (t :: r) = t ++ String " " (join r).
Proof. destruct r; [contradiction|reflexivity]. Qed.

Lemma join_not_empty (ts : list string) :
  ts <> [] -> forallb token_ok ts = true -> String.eqb (join ts) "" = false.
Proof.
  destruct ts as [|t r]; [contradiction|]. intros _ H. simpl in H.
  apply andb_prop in H as [H _]. unfold token_ok in H. apply andb_prop in H as [H _].
  destruct t; [discriminate H|]. now destruct r.
Qed.

Lemma rtrim_join (ts : list string) :
  forallb token_ok ts = true -> Base.rtrim (join ts) = join ts.
Proof.
  induction ts as [|t r IH]; [reflexivity|]. intros H. simpl in H.
  apply andb_prop in H as [Ht Hr].
  destruct r as [|t' r'].
  - unfold token_ok in Ht. apply andb_prop in Ht as [_ Ht]. now apply rtrim_no_space.
  - rewrite join_cons by discriminate.
    change (t ++ String " " (join (t' :: r'))) with (t ++ " " ++ join (t' :: r')).
    rewrite <- append_assoc. apply rtrim_append; [now apply IH|].
    now apply join_not_empty.
Qed.

Lemma Trim_join (ts : list string) :
  forallb token_ok ts = true -> Base.Trim (join ts) = join ts.
Proof.
  intros H. unfold Base.Trim.
  assert (Hl : Base.ltrim (join ts) = join ts).
  { destruct ts as [|t r]; [reflexivity|]. simpl in H. apply andb_prop in H as [Ht _].
    destruct r as [|t' r'].
    - rewrite <- (append_nil_r t). now apply ltrim_token.
    - rewrite join_cons by discriminate. now apply ltrim_token. }
  rewrite Hl. now apply rtrim_join.
Qed.

Lemma Split_join (ts : list string) :
  ts <> [] -> forallb token_ok ts = true -> Base.Split (join ts) " " = ts.
Proof.
  induction ts as [|t r IH]; [contradiction|]. intros _ H. simpl in H.
  apply andb_prop in H as [Ht Hr].
  assert (Hs : Str.mem " " t = false).
  { unfold token_ok in Ht. apply andb_prop in Ht as [_ Ht]. now apply no_space_mem. }
  destruct r as [|t' r'].
  - now apply (Split_without " ").
  - rewrite join_cons by discriminate.
    rewrite (Split_app_char " "), (Split_without " " t Hs), IH; trivial. discriminate.
Qed.

(** X3. A command line that is a list of tokens (not empty, without
    whitespace) separated by single spaces is taken apart into just these
    tokens: the calls made are, in order, those of the tokens with exactly
    one [=]. *)
Theorem tokenizer_of_joined_tokens (in_qemu : bool) (ts : list string) (w : World) :
  forallb token_ok ts = true ->
  content_of "/proc/cmdline" w = join ts ->
  fst (import_kernel_cmdline in_qemu record_call [] w)
  = map (fun kv => (fst kv, snd kv, in_qemu)) (omap accepted_pair ts).
Proof.
  intros Hts Hc. rewrite import_kernel_cmdline_run. unfold bind.
  rewrite ReadFileToString_run, foldM_record. cbn [fst snd app].
  fold (content_of "/proc/cmdline" w). rewrite Hc. unfold accepted_pairs.
  rewrite (Trim_join ts Hts). destruct ts as [|t r]; [reflexivity|].
  now rewrite Split_join.
Qed.

Lemma tokenizer_of_joined_tokens_witness :
  fst (import_kernel_cmdline false record_call []
         (cmdline_world (join ["ro"; "console=ttyS0"; "a=b=c"; "=x"; "y="])))
  = [("console", "ttyS0", false); ("", "x", false); ("y", "", false)].
Proof.
  exact (tokenizer_of_joined_tokens false ["ro"; "console=ttyS0"; "a=b=c"; "=x"; "y="]
           (cmdline_world (join ["ro"; "console=ttyS0"; "a=b=c"; "=x"; "y="]))
           eq_refl eq_refl).
Defined.

End MoreTokenizer.

(** ** Further properties of [expand_props] *)

Section MoreExpand.

Variable props : string -> string.

(** One iteration only appends to the destination, when the rest of the
    loop does. *)
Lemma expand_step_prepend (f : string -> string -> option outcome) (x p d : string) :
  (forall q d', f q (x ++ d') = prepend x (f q d')) ->
  expand_step props f p (x ++ d) = prepend x (expand_step props f p d).
Proof.
  intros H. unfold expand_step.
  destruct (Str.strchr p "$") as [c|]; [|cbn [prepend]; now rewrite append_assoc].
  cbv zeta.
  repeat first
    [ progress (rewrite ?append_assoc, ?H); reflexivity
    | reflexivity
    | case_match ].
Qed.

Lemma expand_loop_prepend (fuel : nat) (x p d : string) :
  expand_loop props fuel p (x ++ d) = prepend x (expand_loop props fuel p d).
Proof.
  revert p d. induction fuel as [|n IH]; intros p d; [reflexivity|].
  cbn [expand_loop]. destruct (Ascii.eqb (Str.deref p) Str.NUL); [reflexivity|].
  apply expand_step_prepend. exact IH.
Qed.

(** X19. [expand_props] only appends to its destination, and what it
    appends and what it returns do not depend on what the destination
    held: for every source there are a result and a text such that, from
    any content of the destination, the call returns that result and
    leaves the former content followed by that text. *)
Theorem expand_props_appends (src : string) :
  exists (ok : bool) (e : string),
    forall d, expand_props props src (Some d) = Some (ok, Some (d ++ e)).
Proof.
  destruct (expand_from_total props (Str.c_str src) "") as [[ok e] He].
  exists ok, e. intros d. unfold expand_props, expand_from in *.
  rewrite <- (append_nil_r d) at 1. rewrite expand_loop_prepend, He. reflexivity.
Qed.

(** X20. A template of literal text, [$$] escapes and braced references
    that have a substitution expands piece by piece: the expansion goes on
    after the pieces with their substitutions appended, which are not
    scanned again; a template of such pieces alone succeeds with exactly
    their substitutions appended, and so does one with a single [$] after
    them, which is dropped. *)
Theorem expand_props_sequence (items : list item) (e rest d : string) :
  forallb item_ok items = true ->
  expansion_all props items = Some e ->
  expand_props props (render_all items ++ rest) (Some d)
  = expand_props props rest (Some (d ++ e))
  /\ expand_props props (render_all items) (Some d) = Some (true, Some (d ++ e))
  /\ expand_props props (render_all items ++ "$") (Some d) = Some (true, Some (d ++ e)).
Proof.
  intros Hok He.
  assert (Hseq : forall r, expand_props props (render_all items ++ r) (Some d)
                           = expand_props props r (Some (d ++ e))).
  { intros r. unfold expand_props.
    rewrite (c_str_append _ _ (render_all_no_nul items Hok)).
    now rewrite (expand_items props items e _ d Hok He (c_str_no_nul r)). }
  split; [apply Hseq|]. split.
  - rewrite <- (append_nil_r (render_all items)). now rewrite Hseq.
  - rewrite Hseq. unfold expand_props. cbn [Str.c_str].
    change (Ascii.eqb "$" Str.NUL) with false. cbv iota. cbn [Str.c_str].
    now rewrite expand_dollar_end.
Qed.

End MoreExpand.

Lemma expand_props_sequence_witness :
  expand_props x_props ("a$$${x}${y:-b}" ++ "$") (Some "d")
  = Some (true, Some ("d" ++ "a$VALb")).
Proof.
  exact (proj2 (proj2 (expand_props_sequence x_props
                         [Lit "a"; Escape; Ref "x"; Ref "y:-b"] "a$VALb" "" "d"
                         eq_refl eq_refl))).
Defined.

(** ** Further properties of the ACPI importer and the resolver *)

Section MoreAcpi.

Lemma acpi_cfg_path_of_find (entries : list string) :
  acpi_cfg_path_of entries
  = match List.find is_acpi_root (omap accepted_pair entries) with
    | Some kv => snd kv
    | None => default_acpi_root
    end.
Proof.
  induction entries as [|e r IH]; [reflexivity|].
  cbn [acpi_cfg_path_of omap list_omap]. pose proof (entry_accepted e) as He.
  cbv zeta in *. destruct (Nat.eqb (length (Base.Split e "=")) 2).
  - rewrite <- He. cbn [List.find]. unfold is_acpi_root at 1. cbn [fst snd andb].
    now destruct (String.eqb "android.acpi.cfg.root" (nth 0 (Base.Split e "=") "")).
  - rewrite <- He. exact IH.
Qed.

(** X4. The ACPI sysfs root is the value of the first accepted pair of the
    command line with the key [android.acpi.cfg.root] (later ones are not
    looked at, unlike the directory override, whose last one counts), and
    the fixed default path when there is none; finding it costs one read
    of the command line. *)
Theorem acpi_root_is_first_match (w : World) :
  get_acpi_cfg_path_from_cmdline w
  = (match List.find is_acpi_root (accepted_pairs (content_of "/proc/cmdline" w)) with
     | Some kv => snd kv
     | None => "/sys/devices/system/container/ACPI0004:00/firmware_node"
     end,
     add_events w [EvRead "/proc/cmdline"]).
Proof.
  rewrite get_acpi_cfg_path_run. unfold acpi_root.
  now rewrite acpi_cfg_path_of_find.
Qed.

Lemma foldM_record_acpi (in_qemu : bool) (rootdir : string)
    (kvs : list (string * string)) (calls : list (string * string * bool * string))
    (w : World) :
  foldM (fun env kv => record_acpi_call (fst kv) (snd kv) in_qemu rootdir env) calls kvs w
  = ((calls ++ map (fun kv => (fst kv, snd kv, in_qemu, rootdir)) kvs)%list, w).
Proof.
  revert calls. induction kvs as [|kv r IH]; intros calls; simpl.
  - now rewrite app_nil_r.
  - unfold bind, record_acpi_call, ret. rewrite IH. now rewrite <- app_assoc.
Qed.

(** X5. When the [path] attribute of the ACPI node contains [CFG0],
    [import_acpi_cmdline] returns true and calls the callback once for
    each accepted pair of the description, its newlines read as spaces, in
    their order, each time with the flag and the target root it was
    given; it reads the command line, [path] and [description], in this
    order, and nothing else. *)
Theorem acpi_import_delivers_pairs (in_qemu : bool) (rootdir : string) (w : World) :
  contains "CFG0" (content_of (acpi_root w ++ "/path") w) = true ->
  import_acpi_cmdline in_qemu record_acpi_call rootdir [] w
  = ((true,
      map (fun kv => (fst kv, snd kv, in_qemu, rootdir))
          (accepted_pairs
             (Str.replace "010" " " (content_of (acpi_root w ++ "/description") w)))),
     add_events w [EvRead "/proc/cmdline";
                   EvRead (Str.c_str (acpi_root w ++ "/path"));
                   EvRead (Str.c_str (acpi_root w ++ "/description"))]).
Proof.
  intros H. rewrite import_acpi_cmdline_run. cbv zeta. rewrite H.
  now rewrite foldM_record_acpi, add_events_app.
Qed.

Lemma acpi_import_delivers_pairs_witness :
  fst (import_acpi_cmdline false record_acpi_call "/tmp/dt" [] two_lines_world)
  = (true, [("android.fw.a", "1", false, "/tmp/dt");
            ("android.fw.b", "2", false, "/tmp/dt")]).
Proof.
  exact (f_equal fst
           (acpi_import_delivers_pairs false "/tmp/dt" two_lines_world eq_refl)).
Defined.

End MoreAcpi.

Section MoreResolver.

Lemma candidate_not_canonical (c : string) :
  String.eqb (candidate_of c) kDefaultAndroidDtDir = false.
Proof.
  unfold candidate_of. destruct (override_of c) as [v|]; [|reflexivity].
  destruct (String.eqb v kDefaultAndroidDtDir) eqn:E; [reflexivity|exact E].
Qed.

(** X6. The resolver returns the canonical procfs path exactly when that
    path is an existing directory: with the directory absent the result
    is never the canonical path, whatever the command line says. *)
Theorem canonical_returned_iff_present (w : World) :
  String.eqb (fst (init_android_dt_dir w)) kDefaultAndroidDtDir
  = dir_exists w kDefaultAndroidDtDir.
Proof.
  rewrite init_android_dt_dir_run.
  destruct (dir_exists w kDefaultAndroidDtDir); [reflexivity|]. cbv zeta.
  destruct (dir_exists w (Str.c_str (candidate_of (content_of "/proc/cmdline" w))));
    apply candidate_not_canonical.
Qed.

(** X7. The resolver changes no file unless it gets as far as the
    synthesis with an ACPI node that is there: when the canonical
    directory exists, or the candidate directory exists, or the [path]
    attribute of the ACPI node does not contain [CFG0], the file system
    after the call is the one before it. *)
Theorem resolver_changes_no_file (w : World) :
  dir_exists w kDefaultAndroidDtDir
  || dir_exists w (Str.c_str (candidate_of (content_of "/proc/cmdline" w)))
  || negb (contains "CFG0" (content_of (acpi_root w ++ "/path") w)) = true ->
  fs (snd (init_android_dt_dir w)) = fs w.
Proof.
  intros H. rewrite init_android_dt_dir_run.
  destruct (dir_exists w kDefaultAndroidDtDir); [reflexivity|]. cbv zeta.
  destruct (dir_exists w (Str.c_str (candidate_of (content_of "/proc/cmdline" w))));
    [reflexivity|].
  cbn [orb] in H. apply negb_true_iff in H.
  rewrite import_acpi_cmdline_run. cbv zeta. unfold acpi_root.
  rewrite !content_of_add_events. fold (acpi_root w). now rewrite H.
Qed.

Lemma resolver_changes_no_file_witness :
  fs (snd (init_android_dt_dir canonical_override_world)) = fs canonical_override_world.
Proof. exact (resolver_changes_no_file canonical_override_world eq_refl). Defined.

(** A read with the static filled: one read of the file under the stored
    directory. *)
Lemma read_android_dt_file_run (dir sub : string) (w : World) :
  read_android_dt_file sub (Some dir) w
  = (let rd := fst (ReadFileToString (dir ++ sub) w) in
     if fst rd then
       if negb (String.eqb (snd rd) "") then (true, pop_back (snd rd), Some dir)
       else (false, snd rd, Some dir)
     else (false, snd rd, Some dir),
     add_events w [EvRead (Str.c_str (dir ++ sub))]).
Proof.
  unfold read_android_dt_file. unfold bind at 1.
  rewrite get_android_dt_dir_later. unfold bind. cbn [fst snd].
  rewrite ReadFileToString_run. cbv zeta.
  destruct (fst (ReadFileToString (dir ++ sub) w)) as [ok c]. cbn [fst snd].
  destruct ok; [|reflexivity]. now destruct (negb (String.eqb c "")).
Qed.

(** X8. Once [get_android_dt_dir] has run, a read through
    [read_android_dt_file] does not run the resolver again: with the static
    filled, the directory used is the stored one and the only external
    call is the read of the file; the first read fills the static with
    what the resolver returns. *)
Theorem reads_resolve_once (sub_path : string) (w : World) :
  snd (fst (read_android_dt_file sub_path None w)) = Some (fst (init_android_dt_dir w))
  /\ forall (dir sub : string) (w' : World),
       snd (fst (read_android_dt_file sub (Some dir) w')) = Some dir
       /\ snd (read_android_dt_file sub (Some dir) w')
          = add_events w' [EvRead (Str.c_str (dir ++ sub))].
Proof.
  split.
  - unfold read_android_dt_file. unfold bind at 1. rewrite get_android_dt_dir_first.
    unfold bind. cbn [fst snd].
    destruct (ReadFileToString _ _) as [[ok c] w1]. cbn [fst snd].
    destruct ok; [|reflexivity]. now destruct (negb (String.eqb c "")).
  - intros dir sub w'. rewrite read_android_dt_file_run. cbv zeta. cbn [fst snd].
    split; [|reflexivity].
    destruct (fst (ReadFileToString (dir ++ sub) w')) as [ok c]. cbn [fst snd].
    destruct ok; [|reflexivity]. now destruct (negb (String.eqb c "")).
Qed.

End MoreResolver.

(** ** Further properties of [mkdir_recursive] *)

Section MoreMkdir.

Lemma take_beyond {X : Type} (k : nat) (l : list X) :
  take k l = take (Nat.min k (length l)) l.
Proof.
  destruct (Nat.le_gt_cases (length l) k) as [H|H].
  - rewrite Nat.min_r by lia. now rewrite !firstn_all2 by lia.
  - now rewrite Nat.min_l by lia.
Qed.

Lemma no_files_b_spec (f : gmap (list string) node) (cs : list string) :
  no_files_b f cs = true -> no_files f cs.
Proof.
  unfold no_files_b. rewrite forallb_forall. intros H k c Hk.
  rewrite take_beyond in Hk. specialize (H (Nat.min k (length cs))).
  rewrite Hk in H. assert (Hin : In (Nat.min k (length cs)) (seq 0 (S (length cs)))).
  { apply in_seq. lia. }
  specialize (H Hin). discriminate H.
Qed.

Lemma all_exist_b_spec (f : gmap (list string) node) (cs : list string) :
  all_exist_b f cs = true -> forall k, Path.node_at f (take k cs) <> None.
Proof.
  unfold all_exist_b. rewrite forallb_forall. intros H k Hk.
  rewrite take_beyond in Hk. specialize (H (Nat.min k (length cs))).
  rewrite Hk in H. assert (Hin : In (Nat.min k (length cs)) (seq 0 (S (length cs)))).
  { apply in_seq. lia. }
  specialize (H Hin). discriminate H.
Qed.

Lemma lookup_dir (f : gmap (list string) node) (p : string) :
  String.eqb p "" = false -> Str.mem "." p = false ->
  Path.node_at f (comps p) = Some Dir ->
  Path.lookup f p = Some Dir.
Proof.
  intros He Hd Hn. unfold Path.lookup. now rewrite (resolve_comps f p He Hd), Hn.
Qed.

(** X9. When the system refuses no call (no name or path too long, no
    missing permission, no full or read-only device), for a non-empty
    path without the characters [.] and NUL, with no regular file at the
    path or above it: [mkdir_recursive] returns 0; afterwards the path is
    a directory ([is_dir] holds), and so is everything above it; and it
    has changed the file system only by adding directories at the path
    and above it. *)
Theorem mkdir_recursive_makes_the_way (D : string) (mode : nat) (w : World) :
  quiet w ->
  String.eqb D "" = false ->
  Str.mem "." D = false -> Str.mem Str.NUL D = false ->
  no_files_b (fs w) (comps D) = true ->
  fst (mkdir_recursive D mode w) = 0%Z
  /\ dir_exists (snd (mkdir_recursive D mode w)) D = true
  /\ dirs_ok (fs (snd (mkdir_recursive D mode w))) (comps D)
  /\ grown (fs w) (fs (snd (mkdir_recursive D mode w))) (comps D).
Proof.
  intros Hq He Hd Hn Hf.
  destruct (mkdir_recursive_ok D mode w Hq He Hd Hn (no_files_b_spec _ _ Hf))
    as (w' & Hrun & Hdirs & Hg & _).
  rewrite Hrun. cbn [fst snd]. repeat split; trivial.
  unfold dir_exists. now rewrite (lookup_dir _ _ He Hd (dirs_ok_self _ _ Hdirs)).
Qed.

Lemma mkdir_recursive_makes_the_way_witness :
  fst (mkdir_recursive "/tmp/dt/display" 448 (world_of [])) = 0%Z
  /\ dir_exists (snd (mkdir_recursive "/tmp/dt/display" 448 (world_of [])))
       "/tmp/dt/display" = true.
Proof.
  destruct (mkdir_recursive_makes_the_way "/tmp/dt/display" 448 (world_of [])
              (fun _ => eq_refl) eq_refl eq_refl eq_refl eq_refl) as (H1 & H2 & _).
  exact (conj H1 H2).
Defined.

(** One round of the loop on a directory that exists, as whatever. *)
Lemma mkdir_loop_round_existing (path : string) (mode slash : nat) (rest : list nat)
    (w : World) :
  quiet w ->
  Str.mem Str.NUL (Str.substr_to slash path) = false ->
  String.eqb (Str.substr_to slash path) "" = false ->
  Str.mem "." (Str.substr_to slash path) = false ->
  Path.node_at (fs w) (comps (Str.substr_to slash path)) <> None ->
  exists w',
    mkdir_recursive_loop path mode (slash :: rest) w
    = mkdir_recursive_loop path mode rest w'
    /\ fs w' = fs w
    /\ quiet w'.
Proof.
  intros Hq Hn He Hd Hx. cbn [mkdir_recursive_loop].
  rewrite (c_str_id _ Hn). unfold bind at 1. rewrite stat_run.
  destruct (Path.lookup (fs w) (Str.substr_to slash path)) as [n|] eqn:El.
  - eexists. split; [reflexivity|]. split; [reflexivity|exact Hq].
  - unfold make_dir, mkdir. unfold bind, emit, refusal, get_fs, ret.
    cbn [fs trace refused written add_events].
    rewrite (Hq (EvMkdir (Str.substr_to slash path))).
    cbn [fs trace refused written]. rewrite (resolve_comps _ _ He Hd).
    destruct (Path.node_at (fs w) (comps (Str.substr_to slash path))) as [n|];
      [|contradiction].
    cbv beta iota. eexists. split; [reflexivity|]. split; [reflexivity|exact Hq].
Qed.

Lemma mkdir_loop_existing (mode : nat) (s : string) :
  forall (pre : string) (w : World),
    quiet w ->
    String.eqb pre "" = false ->
    Str.mem "." (pre ++ s) = false ->
    Str.mem Str.NUL (pre ++ s) = false ->
    (forall k, Path.node_at (fs w) (take k (comps (pre ++ s))) <> None) ->
    exists w',
      mkdir_recursive_loop (pre ++ s) mode (positions "/" (String.length pre) s) w
      = (inr tt, w')
      /\ fs w' = fs w
      /\ quiet w'.
Proof.
  induction s as [|x s' IH]; intros pre w Hq Hpre Hdot Hnul Hall.
  { exists w. split; [reflexivity|]. split; [reflexivity|exact Hq]. }
  cbn [positions]. destruct (Ascii.eqb x "/") eqn:Hx.
  - apply Ascii.eqb_eq in Hx as ->.
    assert (Hdot' := Hdot). assert (Hnul' := Hnul).
    rewrite mem_append in Hdot', Hnul'.
    apply orb_false_elim in Hdot' as [Hd1 Hd2]. apply orb_false_elim in Hnul' as [Hn1 Hn2].
    apply mem_cons_false in Hd2 as [_ Hd2].
    assert (Hc : comps (pre ++ String "/" s') = (comps pre ++ comps s')%list)
      by now apply comps_app_slash.
    destruct (mkdir_loop_round_existing (pre ++ String "/" s') mode (String.length pre)
                (positions "/" (S (String.length pre)) s') w) as (w1 & Hrun & Hfs & Hq1).
    + exact Hq.
    + unfold Str.substr_to. now rewrite take_append.
    + unfold Str.substr_to. now rewrite take_append.
    + unfold Str.substr_to. now rewrite take_append.
    + unfold Str.substr_to. rewrite take_append.
      specialize (Hall (length (comps pre))). rewrite Hc in Hall.
      now rewrite take_app_length in Hall.
    + destruct (IH (pre ++ "/") w1) as (w' & Hrun' & Hfs' & Hq').
      * exact Hq1.
      * apply eqb_snoc_empty.
      * now rewrite <- append_snoc_assoc.
      * now rewrite <- append_snoc_assoc.
      * rewrite <- append_snoc_assoc, Hfs. exact Hall.
      * rewrite length_snoc, <- append_snoc_assoc in Hrun'.
        exists w'. rewrite Hrun. split; [exact Hrun'|]. split; [congruence|exact Hq'].
  - destruct (IH (pre ++ String x "") w) as (w' & Hrun' & Hfs' & Hq').
    + exact Hq.
    + apply eqb_snoc_empty.
    + now rewrite <- append_snoc_assoc.
    + now rewrite <- append_snoc_assoc.
    + now rewrite <- append_snoc_assoc.
    + rewrite length_snoc, <- append_snoc_assoc in Hrun'.
      exists w'. repeat split; assumption.
Qed.

(** X10. When the system refuses no call, for a non-empty path without
    the characters [.] and NUL: if the path and everything above it exist
    already, [mkdir_recursive] returns 0 and changes no file, for what
    exists is no error. This holds also when the path itself is a regular
    file, so the result 0 does not tell that the path is a directory. *)
Theorem mkdir_recursive_on_existing (D : string) (mode : nat) (w : World) :
  quiet w ->
  String.eqb D "" = false ->
  Str.mem "." D = false -> Str.mem Str.NUL D = false ->
  all_exist_b (fs w) (comps D) = true ->
  fst (mkdir_recursive D mode w) = 0%Z
  /\ fs (snd (mkdir_recursive D mode w)) = fs w.
Proof.
  intros Hq He Hd Hn Hall. pose proof (all_exist_b_spec _ _ Hall) as Hx.
  destruct D as [|x0 s0]; [discriminate|].
  unfold mkdir_recursive. cbn [Str.next].
  change (String x0 s0) with (String x0 "" ++ s0) in *.
  change 1 with (String.length (String x0 "")).
  destruct (mkdir_loop_existing mode s0 (String x0 "") w Hq eq_refl Hd Hn Hx)
    as (w1 & Hrun & Hfs & Hq1).
  unfold bind at 1 3. rewrite Hrun.
  unfold make_dir, mkdir. unfold bind, emit, refusal, get_fs, ret.
  cbn [fs trace refused written].
  rewrite (c_str_id _ Hn), (Hq1 (EvMkdir (String x0 "" ++ s0))).
  cbn [fs trace refused written]. rewrite (resolve_comps _ _ He Hd), Hfs.
  specialize (Hx (length (comps (String x0 "" ++ s0)))). rewrite firstn_all in Hx.
  destruct (Path.node_at (fs w) (comps (String x0 "" ++ s0))); [|contradiction].
  cbn [fst snd fs]. now split.
Qed.

Lemma mkdir_recursive_on_existing_witness :
  fst (mkdir_recursive "/tmp/dt" 448 tmp_file_world) = 0%Z
  /\ fs (snd (mkdir_recursive "/tmp/dt" 448 tmp_file_world)) = fs tmp_file_world.
Proof.
  exact (mkdir_recursive_on_existing "/tmp/dt" 448 tmp_file_world
           (fun _ => eq_refl) eq_refl eq_refl eq_refl eq_refl).
Defined.

Lemma positions_tail (ch : ascii) (a c : string) (i : nat) :
  Str.mem ch c = false -> positions ch i (a ++ c) = positions ch i a.
Proof.
  intros Hc. revert i. induction a as [|x r IH]; intros i.
  - rewrite append_nil_l. revert i. induction c as [|y c' IH]; intros i; [reflexivity|].
    apply mem_cons_false in Hc as [Hy Hc]. cbn [positions]. rewrite Hy. now apply IH.
  - rewrite append_cons. cbn [positions]. rewrite IH. reflexivity.
Qed.

Lemma positions_bound (ch : ascii) (s : string) (i : nat) :
  Forall (fun j => j < i + String.length s) (positions ch i s).
Proof.
  revert i. induction s as [|x r IH]; intros i; [constructor|].
  cbn [positions String.length]. specialize (IH (S i)).
  assert (H : Forall (fun j => j < i + S (String.length r)) (positions ch (S i) r)).
  { eapply Forall_impl; [exact IH|]. cbv beta. intros j Hj. lia. }
  destruct (Ascii.eqb x ch); [constructor; [lia|exact H]|exact H].
Qed.

Lemma take_append_le (j : nat) (a b : string) :
  j <= String.length a -> Str.take j (a ++ b) = Str.take j a.
Proof.
  revert j. induction a as [|x r IH]; intros j Hj.
  - cbn [String.length] in Hj. assert (j = 0) as -> by lia. now destruct b.
  - destruct j as [|j]; [reflexivity|]. rewrite append_cons. cbn [Str.take].
    rewrite IH; [reflexivity|]. cbn [String.length] in Hj. lia.
Qed.

(** The loop looks at the path up to the last position it is given. *)
Lemma mkdir_loop_path (mode : nat) (a b : string) (l : list nat) :
  Forall (fun j => j <= String.length a) l ->
  forall w, mkdir_recursive_loop (a ++ b) mode l w = mkdir_recursive_loop a mode l w.
Proof.
  induction l as [|j l IH]; intros Hl w; [reflexivity|].
  inversion Hl as [|? ? Hj Hl']; subst. specialize (IH Hl').
  cbn [mkdir_recursive_loop]. unfold Str.substr_to. rewrite (take_append_le j a b Hj).
  unfold bind. destruct (stat (Str.c_str (Str.take j a)) w) as [[n|] w1]; [apply IH|].
  destruct (make_dir (Str.c_str (Str.take j a)) mode w1) as [[|[]] w2];
    first [apply IH | reflexivity].
Qed.

(** X21. A regular file in the place of the parent directory is an
    error. When the system refuses no call, for a path [P/c] without the
    characters [.] and NUL, with [P] and [c] not empty and no slash in
    [c]: if [P] is a regular file, everything above it exists and nothing
    is at the path, [mkdir_recursive] returns -1 and has changed no
    file. *)
Theorem mkdir_recursive_under_file (P c : string) (mode : nat) (w : World) :
  quiet w ->
  String.eqb P "" = false -> String.eqb c "" = false ->
  Str.mem "/" c = false ->
  Str.mem "." (P ++ "/" ++ c) = false -> Str.mem Str.NUL (P ++ "/" ++ c) = false ->
  all_exist_b (fs w) (comps P) = true ->
  is_file (fs w) (comps P) = true ->
  Path.node_at (fs w) (comps P ++ [c]) = None ->
  fst (mkdir_recursive (P ++ "/" ++ c) mode w) = (-1)%Z
  /\ fs (snd (mkdir_recursive (P ++ "/" ++ c) mode w)) = fs w.
Proof.
  intros Hq HP Hc Hsl Hdot Hnul Hall Hfile Hnone.
  pose proof (all_exist_b_spec _ _ Hall) as Hx.
  assert (Hdot' := Hdot). assert (Hnul' := Hnul).
  rewrite mem_append in Hdot', Hnul'.
  apply orb_false_elim in Hdot' as [Hd1 Hd2]. apply orb_false_elim in Hnul' as [Hn1 Hn2].
  change ("/" ++ c) with (String "/" c) in *.
  apply mem_cons_false in Hd2 as [_ Hd2]. apply mem_cons_false in Hn2 as [_ Hn2].
  assert (Hcomps : comps (P ++ String "/" c) = (comps P ++ [c])%list).
  { rewrite (comps_app_slash P c Hd1 Hd2), (comps_component c Hsl Hd2). now rewrite Hc. }
  assert (Hcomps' : comps (P ++ "/") = comps P).
  { rewrite (comps_app_slash P "" Hd1 eq_refl). apply app_nil_r. }
  destruct P as [|x0 p0]; [discriminate|].
  unfold mkdir_recursive. rewrite append_cons. cbn [Str.next].
  rewrite (append_snoc_assoc p0 "/" c), (positions_tail "/" _ c 1 Hsl).
  rewrite <- append_cons.
  assert (Hrun : exists w1,
             mkdir_recursive_loop (String x0 (p0 ++ "/") ++ c) mode
               (positions "/" 1 (p0 ++ "/")) w = (inr tt, w1)
             /\ fs w1 = fs w /\ quiet w1).
  { rewrite mkdir_loop_path.
    - change (String x0 (p0 ++ "/")) with (String x0 "" ++ (p0 ++ "/")).
      change 1 with (String.length (String x0 "")).
      apply mkdir_loop_existing; [exact Hq|reflexivity| | |].
      + change (String x0 "" ++ p0 ++ "/") with (String x0 p0 ++ "/").
        rewrite mem_append, Hd1. reflexivity.
      + change (String x0 "" ++ p0 ++ "/") with (String x0 p0 ++ "/").
        rewrite mem_append, Hn1. reflexivity.
      + change (String x0 "" ++ p0 ++ "/") with (String x0 p0 ++ "/").
        now rewrite Hcomps'.
    - eapply Forall_impl; [apply positions_bound|]. cbv beta.
      cbn [String.length]. intros j Hj. lia. }
  destruct Hrun as (w1 & Hrun & Hfs & Hq1).
  unfold bind at 1 3. rewrite Hrun.
  unfold make_dir, mkdir. unfold bind, emit, refusal, get_fs, ret.
  cbn [fs trace refused written].
  rewrite append_cons, <- (append_snoc_assoc p0 "/" c).
  change (String x0 (p0 ++ String "/" c)) with (String x0 p0 ++ String "/" c).
  rewrite (c_str_id _ Hnul), (Hq1 (EvMkdir (String x0 p0 ++ String "/" c))).
  cbn [fs trace refused written].
  rewrite (resolve_comps _ (String x0 p0 ++ String "/" c)),
    Hcomps, Hfs, Hnone by (trivial; destruct p0; reflexivity).
  unfold Path.parent. rewrite removelast_last.
  unfold is_file in Hfile.
  destruct (Path.node_at (fs w) (comps (String x0 p0))) as [[|x]|]; try discriminate.
  cbn [fst snd fs]. now split.
Qed.

Lemma mkdir_recursive_under_file_witness :
  fst (mkdir_recursive ("/tmp/dt" ++ "/" ++ "display") 448 tmp_file_world) = (-1)%Z
  /\ fs (snd (mkdir_recursive ("/tmp/dt" ++ "/" ++ "display") 448 tmp_file_world))
     = fs tmp_file_world.
Proof.
  exact (mkdir_recursive_under_file "/tmp/dt" "display" 448 tmp_file_world
           (fun _ => eq_refl) eq_refl eq_refl eq_refl eq_refl eq_refl eq_refl eq_refl
           eq_refl).
Defined.

End MoreMkdir.

(** ** Further properties of the synthesizer and the reader *)

Section MoreSynthesis.

Lemma c_str_append_any (a b : string) :
  Str.c_str (a ++ b) = if Str.mem Str.NUL a then Str.c_str a else a ++ Str.c_str b.
Proof.
  induction a as [|x r IH]; [reflexivity|].
  rewrite append_cons. simpl. destruct (Ascii.eqb x Str.NUL); [reflexivity|].
  simpl. rewrite IH. now destruct (Str.mem Str.NUL r).
Qed.

Lemma c_str_value_line (value : string) :
  Str.c_str (value ++ String "010" "")
  = if Str.mem Str.NUL value then Str.c_str value else value ++ newline.
Proof. now rewrite c_str_append_any. Qed.

(** The run of the synthesizer for a key with the prefix under a root
    without dots, when the system refuses no call: the directories
    [mkdir_recursive] leaves, then the file. *)
Lemma synthesis_run (rest value rootdir : string) (for_emulator : bool) (w : World) :
  quiet w ->
  Str.mem "." rootdir = false -> Str.mem Str.NUL rootdir = false ->
  Str.mem Str.NUL rest = false ->
  Path.ends_with_slash (rootdir ++ "/" ++ Str.replace "." "/" rest) = false ->
  clear_way (fs w) (comps (rootdir ++ "/" ++ Str.replace "." "/" rest)) = true ->
  exists (f1 : gmap (list string) node) (above : list string) (name : string),
    comps (rootdir ++ "/" ++ Str.replace "." "/" rest) = (above ++ [name])%list
    /\ fs (snd (create_dt_file_by_cmdline ("android.fw." ++ rest) value for_emulator
                  rootdir w))
       = <[(above ++ [name])%list := File (Str.c_str (value ++ String "010" ""))]>
           (<[(above ++ [name])%list := File ""]> f1)
    /\ dirs_ok f1 above
    /\ grown (fs w) f1 above.
Proof.
  intros Hq Hrd Hrn Hn Hs Hclear.
  set (F := rootdir ++ "/" ++ Str.replace "." "/" rest) in *.
  assert (HFd : Str.mem "." F = false).
  { unfold F. rewrite !mem_append, Hrd, (mem_replace_old "." "/" rest eq_refl).
    reflexivity. }
  assert (HFz : Str.mem Str.NUL F = false).
  { unfold F. rewrite !mem_append, Hrn, (mem_replace_other Str.NUL "." "/" rest eq_refl Hn).
    reflexivity. }
  assert (HFs : Str.mem "/" F = true).
  { unfold F. rewrite mem_append. change ("/" ++ Str.replace "." "/" rest)
      with (String "/" (Str.replace "." "/" rest)).
    now rewrite mem_head, orb_true_r. }
  destruct (last_slash_split F HFs) as (base & name & HF & Hname).
  assert (Hne : String.eqb name "" = false).
  { destruct name; [|reflexivity]. rewrite HF, ends_with_slash_end in Hs. discriminate. }
  assert (HFd' := HFd). assert (HFz' := HFz).
  rewrite HF, mem_append in HFd', HFz'.
  apply orb_false_elim in HFd' as [Hbd Hnd]. apply orb_false_elim in HFz' as [Hbn Hnn].
  apply mem_cons_false in Hnd as [_ Hnd].
  assert (Hc : comps F = (comps base ++ [name])%list).
  { rewrite HF, (comps_app_slash base name Hbd Hnd), (comps_component name Hname Hnd).
    now rewrite Hne. }
  assert (HFe : String.eqb F "" = false) by (rewrite HF; apply eqb_app_slash).
  assert (Hs' := Hs). rewrite HF in Hs'.
  destruct (dirname_file base name Hname Hs' Hbd Hbn) as (HDe & HDd & HDn & HDc).
  rewrite <- HF in HDe, HDd, HDn, HDc.
  assert (Hrun : create_dt_file_by_cmdline ("android.fw." ++ rest) value for_emulator
                   rootdir w
                 = (mkdir_recursive (Libc.dirname F) 448 ;;;
                    WriteFile F (Str.c_str (value ++ String "010" "")) ;;; ret tt) w).
  { unfold create_dt_file_by_cmdline, Base.StartsWith.
    rewrite starts_with_append.
    change (String.eqb ("android.fw." ++ rest) "") with false. cbv iota.
    rewrite (c_str_id rootdir Hrn).
    rewrite (c_str_id ("android.fw." ++ rest)) by (rewrite mem_append, Hn; reflexivity).
    change 11 with (String.length "android.fw."). rewrite advance_append.
    rewrite !replace_append, (replace_id "." "/" rootdir Hrd).
    change (Str.replace "." "/" "/") with "/". fold F.
    unfold Dirname. rewrite (c_str_id F HFz), (c_str_id _ HDn).
    reflexivity. }
  destruct (mkdir_recursive_ok (Libc.dirname F) 448 w Hq HDe HDd HDn)
    as (w1 & Hm & Hdirs & Hg & Hq1).
  { rewrite HDc. apply (clear_way_no_files _ _ name). now rewrite <- Hc. }
  rewrite HDc in Hdirs, Hg.
  assert (Hsame : fs w1 !! (comps base ++ [name])%list = fs w !! (comps base ++ [name])%list).
  { destruct (Hg (comps base ++ [name])%list) as [E|[_ [k E]]]; [exact E|].
    symmetry in E. now destruct (take_shorter k (comps base) name). }
  destruct (WriteFile_creates F (Str.c_str (value ++ String "010" "")) w1 (comps base) name
              Hq1 HFe HFd HFz Hs Hc) as [_ Hfs].
  { rewrite Hsame, <- Hc. now apply clear_way_no_dir. }
  { now apply dirs_ok_self. }
  exists (fs w1), (comps base), name. split; [exact Hc|]. split; [|now split].
  rewrite Hrun. unfold bind, ret. rewrite Hm.
  now destruct (WriteFile F (Str.c_str (value ++ String "010" "")) w1).
Qed.

Lemma take_removelast {X : Type} (k : nat) (l : list X) (x : X) :
  take k l = take (Nat.min k (length l)) (l ++ [x]).
Proof. apply take_take_app. Qed.

(** X11. The synthesizer for a key [android.fw.] followed by [rest],
    whose target is the path [rootdir/rest] with the dots of [rest] as
    slashes. Under these conditions: the system refuses no call; the root
    has neither [.] nor NUL in it and [rest] has no NUL; the target does
    not end in a slash (so [rest] is not empty and does not end in a dot
    or a slash);
    no regular file is above the target and no directory is in its place.
    Then afterwards the target holds the value followed by one newline,
    or, for a value with a NUL in it, only the part of the value before
    the NUL and no newline; every directory above the target exists; and
    no path other than the target and those above it has changed. *)
Theorem synthesized_file_and_frame (rest value rootdir : string) (for_emulator : bool)
    (w : World) :
  quiet w ->
  Str.mem "." rootdir = false -> Str.mem Str.NUL rootdir = false ->
  Str.mem Str.NUL rest = false ->
  Path.ends_with_slash (rootdir ++ "/" ++ Str.replace "." "/" rest) = false ->
  clear_way (fs w) (comps (rootdir ++ "/" ++ Str.replace "." "/" rest)) = true ->
  Path.lookup
    (fs (snd (create_dt_file_by_cmdline ("android.fw." ++ rest) value for_emulator
                rootdir w)))
    (rootdir ++ "/" ++ Str.replace "." "/" rest)
  = Some (File (if Str.mem Str.NUL value then Str.c_str value else value ++ newline))
  /\ dirs_ok
       (fs (snd (create_dt_file_by_cmdline ("android.fw." ++ rest) value for_emulator
                   rootdir w)))
       (removelast (comps (rootdir ++ "/" ++ Str.replace "." "/" rest)))
  /\ forall q : list string,
       (forall k, q <> take k (comps (rootdir ++ "/" ++ Str.replace "." "/" rest))) ->
       fs (snd (create_dt_file_by_cmdline ("android.fw." ++ rest) value for_emulator
                  rootdir w)) !! q
       = fs w !! q.
Proof.
  intros Hq0 Hrd Hrn Hn Hs Hclear.
  destruct (synthesis_run rest value rootdir for_emulator w Hq0 Hrd Hrn Hn Hs Hclear)
    as (f1 & above & name & Hc & Hfs & Hdirs & Hg).
  rewrite Hfs, Hc, <- c_str_value_line. split; [|split].
  - unfold Path.lookup. rewrite resolve_comps.
    + now rewrite Hc, node_at_snoc, lookup_insert_eq, Hs.
    + destruct (String.eqb (rootdir ++ "/" ++ Str.replace "." "/" rest) "") eqn:E;
        [|reflexivity].
      apply String.eqb_eq in E. rewrite E in Hc. now destruct above.
    + rewrite !mem_append, Hrd, (mem_replace_old "." "/" rest eq_refl). reflexivity.
  - rewrite removelast_last. intros k. specialize (Hdirs k).
    destruct (take k above) as [|y t] eqn:E; [reflexivity|].
    cbn [Path.node_at] in *. rewrite <- E in *.
    rewrite !lookup_insert_ne; trivial; intros H; symmetry in H;
      now destruct (take_shorter k above name).
  - intros q Hq.
    assert (Hq1 : (above ++ [name])%list <> q).
    { intros <-. apply (Hq (length (above ++ [name])%list)). now rewrite firstn_all. }
    rewrite !lookup_insert_ne by exact Hq1.
    destruct (Hg q) as [E|[_ [k E]]]; [exact E|].
    destruct (Hq (Nat.min k (length above))). rewrite E. apply take_removelast.
Qed.

Lemma synthesized_file_and_frame_witness :
  Path.lookup
    (fs (snd (create_dt_file_by_cmdline ("android.fw." ++ "display.panel")
                (String "o" (String "000" "led")) false "/tmp/dt" tmp_dt_world)))
    ("/tmp/dt" ++ "/" ++ Str.replace "." "/" "display.panel")
  = Some (File "o").
Proof.
  exact (proj1 (synthesized_file_and_frame "display.panel"
                  (String "o" (String "000" "led")) "/tmp/dt" false tmp_dt_world
                  (fun _ => eq_refl) eq_refl eq_refl eq_refl eq_refl eq_refl)).
Defined.

Lemma ends_with_slash_split (s : string) :
  Path.ends_with_slash s = true -> exists r, s = r ++ "/".
Proof.
  induction s as [|a t IH]; [discriminate|]. cbn [Path.ends_with_slash].
  destruct t as [|b t'].
  - intros H. apply Ascii.eqb_eq in H as ->. now exists "".
  - intros H. destruct (IH H) as [r Hr]. exists (String a r).
    now rewrite append_cons, <- Hr.
Qed.

Lemma ends_with_slash_append (a b : string) :
  String.eqb b "" = false ->
  Path.ends_with_slash (a ++ b) = Path.ends_with_slash b.
Proof.
  intros Hb. induction a as [|x r IH]; [reflexivity|].
  rewrite append_cons. cbn [Path.ends_with_slash].
  destruct (r ++ b) eqn:E; [|exact IH].
  destruct r; [|discriminate E]. rewrite append_nil_l in E. now rewrite E in Hb.
Qed.

Lemma lookup_same_file (f : gmap (list string) node) (p q : string) :
  String.eqb p "" = false -> String.eqb q "" = false ->
  Str.mem "." p = false -> Str.mem "." q = false ->
  comps p = comps q -> Path.ends_with_slash p = Path.ends_with_slash q ->
  Path.lookup f p = Path.lookup f q.
Proof.
  intros Hp Hq Hpd Hqd Hc Hs. unfold Path.lookup.
  now rewrite (resolve_comps f p Hp Hpd), (resolve_comps f q Hq Hqd), Hc, Hs.
Qed.

Lemma pop_back_line (value : string) : pop_back (value ++ newline) = value.
Proof.
  unfold pop_back. rewrite length_append. simpl.
  replace (String.length value + 1 - 1) with (String.length value) by lia.
  apply take_append.
Qed.

(** What the reader finds after the synthesizer has run under a root
    that ends in a slash. *)
Lemma synthesized_then_read (rest value rootdir : string) (for_emulator : bool)
    (w : World) :
  quiet w ->
  Str.mem "." rootdir = false -> Str.mem Str.NUL rootdir = false ->
  Path.ends_with_slash rootdir = true ->
  Str.mem Str.NUL rest = false -> Str.mem Str.NUL value = false ->
  Path.ends_with_slash (rootdir ++ "/" ++ Str.replace "." "/" rest) = false ->
  clear_way (fs w) (comps (rootdir ++ "/" ++ Str.replace "." "/" rest)) = true ->
  fst (read_android_dt_file (Str.replace "." "/" rest) (Some rootdir)
         (snd (create_dt_file_by_cmdline ("android.fw." ++ rest) value for_emulator
                 rootdir w)))
  = (true, value, Some rootdir).
Proof.
  intros Hq Hrd Hrn Hre Hn Hv Hs Hclear.
  destruct (synthesis_under_plain_root rest value rootdir for_emulator w
              Hq Hrd Hrn Hn Hv Hs Hclear) as [Hfile _].
  set (w' := snd (create_dt_file_by_cmdline ("android.fw." ++ rest) value for_emulator
                    rootdir w)) in *.
  set (sub := Str.replace "." "/" rest) in *.
  assert (Hsd : Str.mem "." sub = false) by apply (mem_replace_old "." "/" rest eq_refl).
  assert (Hsn : Str.mem Str.NUL sub = false)
    by apply (mem_replace_other Str.NUL "." "/" rest eq_refl Hn).
  assert (Hsub : String.eqb sub "" = false).
  { destruct sub; [|reflexivity]. rewrite ends_with_slash_end in Hs. discriminate. }
  destruct (ends_with_slash_split rootdir Hre) as [r Hr].
  assert (Hr' := Hrd). rewrite Hr, mem_append in Hr'.
  apply orb_false_elim in Hr' as [Hrd' _].
  assert (Hlook : Path.lookup (fs w') (rootdir ++ sub)
                  = Path.lookup (fs w') (rootdir ++ "/" ++ sub)).
  { apply lookup_same_file.
    - rewrite Hr. destruct r; reflexivity.
    - rewrite Hr. destruct r; reflexivity.
    - now rewrite mem_append, Hrd, Hsd.
    - now rewrite !mem_append, Hrd, Hsd.
    - rewrite Hr, (append_assoc r "/" sub).
      change ("/" ++ sub) with (String "/" sub).
      rewrite (comps_app_slash r sub Hrd' Hsd).
      rewrite (append_assoc r "/" (String "/" sub)).
      change ("/" ++ String "/" sub) with (String "/" ("" ++ String "/" sub)).
      rewrite (comps_app_slash r ("" ++ String "/" sub) Hrd' Hsd).
      now rewrite (comps_app_slash "" sub eq_refl Hsd).
    - rewrite (ends_with_slash_append rootdir sub Hsub).
      rewrite (ends_with_slash_append rootdir ("/" ++ sub)) by reflexivity.
      now rewrite (ends_with_slash_append "/" sub Hsub). }
  rewrite read_android_dt_file_run. cbv zeta. cbn [fst].
  unfold ReadFileToString, bind, emit, get_fs, ret. cbn [fs trace fst snd].
  rewrite (c_str_id (rootdir ++ sub)) by (rewrite mem_append, Hrn, Hsn; reflexivity).
  rewrite Hlook, Hfile. cbn [fst snd].
  replace (String.eqb (value ++ newline) "") with false.
  - cbn [negb]. now rewrite pop_back_line.
  - symmetry. destruct value; reflexivity.
Qed.

(** X12. What the synthesizer writes, the reader reads. Under these
    conditions: the system refuses no call; the root has neither [.] nor
    NUL in it and ends in a slash; [rest] and the value have no NUL; the
    target, the path [rootdir/rest] with the dots of [rest] as slashes,
    does not end in a slash; no regular file is above the target and no
    directory is in its place. Then after the synthesizer has run for the
    key [android.fw.] followed by [rest], [read_android_dt_file] with the
    root as the directory and [rest] with its dots as slashes as the
    sub-path returns true and the value unchanged: the character the
    reader drops is the newline the synthesizer appended. Accordingly
    [is_android_dt_value_expected] holds for exactly the value written. *)
Theorem synthesized_value_read_back (rest value rootdir : string) (for_emulator : bool)
    (w : World) :
  quiet w ->
  Str.mem "." rootdir = false -> Str.mem Str.NUL rootdir = false ->
  Path.ends_with_slash rootdir = true ->
  Str.mem Str.NUL rest = false -> Str.mem Str.NUL value = false ->
  Path.ends_with_slash (rootdir ++ "/" ++ Str.replace "." "/" rest) = false ->
  clear_way (fs w) (comps (rootdir ++ "/" ++ Str.replace "." "/" rest)) = true ->
  fst (read_android_dt_file (Str.replace "." "/" rest) (Some rootdir)
         (snd (create_dt_file_by_cmdline ("android.fw." ++ rest) value for_emulator
                 rootdir w)))
  = (true, value, Some rootdir)
  /\ forall expected : string,
       fst (fst (is_android_dt_value_expected (Str.replace "." "/" rest) expected
                   (Some rootdir)
                   (snd (create_dt_file_by_cmdline ("android.fw." ++ rest) value
                           for_emulator rootdir w))))
       = String.eqb value expected.
Proof.
  intros Hq Hrd Hrn Hre Hn Hv Hs Hclear.
  pose proof (synthesized_then_read rest value rootdir for_emulator w
                Hq Hrd Hrn Hre Hn Hv Hs Hclear) as Hread.
  split; [exact Hread|]. intros expected.
  unfold is_android_dt_value_expected, bind.
  destruct (read_android_dt_file _ _ _) as [[[ok c] st] w2].
  cbn [fst snd] in *. injection Hread as -> -> ->.
  now destruct (String.eqb value expected).
Qed.

Lemma synthesized_value_read_back_witness :
  fst (read_android_dt_file (Str.replace "." "/" "display.panel")
         (Some "/dev/device-tree/firmware/android/")
         (snd (create_dt_file_by_cmdline ("android.fw." ++ "display.panel") "oled" false
                 "/dev/device-tree/firmware/android/" (world_of []))))
  = (true, "oled", Some "/dev/device-tree/firmware/android/").
Proof.
  exact (proj1 (synthesized_value_read_back "display.panel" "oled"
                  "/dev/device-tree/firmware/android/" false (world_of [])
                  (fun _ => eq_refl) eq_refl eq_refl eq_refl eq_refl eq_refl eq_refl
                  eq_refl)).
Defined.

End MoreSynthesis.

(** ** [ReadFile] and [WriteFile] *)

Section FileFacts.

Lemma testbit_18 (n : Z) :
  Z.testbit 18 n = (Z.eqb n 1 || Z.eqb n 4).
Proof.
  destruct (Z_lt_le_dec n 0) as [Hn|Hn]; [rewrite Z.testbit_neg_r by lia; lia|].
  destruct (Z_lt_le_dec n 5) as [H5|H5].
  - assert (H : (n = 0 \/ n = 1 \/ n = 2 \/ n = 3 \/ n = 4)%Z) by lia.
    destruct H as [-> | [-> | [-> | [-> | ->]]]]; reflexivity.
  - rewrite Z.bits_above_log2; [lia|lia|]. change (Z.log2 18) with 4%Z. lia.
Qed.

(** The test of [ReadFile] on the mode, bit by bit. *)
Lemma mode_test (mode : Z) :
  negb (Z.eqb (Z.land mode (Z.lor S_IWGRP S_IWOTH)) 0) = insecure mode.
Proof.
  change (Z.lor S_IWGRP S_IWOTH) with 18%Z. unfold insecure.
  destruct (Z.testbit mode 1) eqn:E1; destruct (Z.testbit mode 4) eqn:E4; cbn [orb].
  1-3: apply negb_true_iff, Z.eqb_neq; intros H.
  - apply (f_equal (fun z => Z.testbit z 1)) in H.
    rewrite Z.land_spec, E1, Z.bits_0 in H. discriminate H.
  - apply (f_equal (fun z => Z.testbit z 1)) in H.
    rewrite Z.land_spec, E1, Z.bits_0 in H. discriminate H.
  - apply (f_equal (fun z => Z.testbit z 4)) in H.
    rewrite Z.land_spec, E4, Z.bits_0 in H. discriminate H.
  - apply negb_false_iff, Z.eqb_eq, Z.bits_inj'. intros n Hn.
    rewrite Z.land_spec, Z.bits_0, testbit_18.
    destruct (Z.eqb n 1) eqn:F1; [apply Z.eqb_eq in F1 as ->; now rewrite E1|].
    destruct (Z.eqb n 4) eqn:F4; [apply Z.eqb_eq in F4 as ->; now rewrite E4|].
    apply andb_false_r.
Qed.

(** The run of [ReadFile], by what the path names. *)
Lemma ReadFile_run (st_mode : list string -> Z) (path : string) (w : World) :
  fst (ReadFile st_mode path w)
  = match Path.lookup (fs w) (Str.c_str path) with
    | None =>
        (false, "",
         "Unable to open '" ++ path ++ "': "
         ++ strerror (match fst (open_rd (Str.c_str path) w) with
                      | inl e => e
                      | inr _ => ENOENT
                      end))
    | Some n =>
        if insecure (st_mode (comps (Str.c_str path)))
        then (false, "", "Skipping insecure file '" ++ path ++ "'")
        else match n with
             | File c => (true, c, "")
             | Dir => (false, "", "Unable to read '" ++ path ++ "': " ++ strerror EISDIR)
             end
    end
  /\ fs (snd (ReadFile st_mode path w)) = fs w.
Proof.
  unfold ReadFile, open_rd, fstat, ReadFdToString, Path.lookup.
  unfold bind, emit, get_fs, ret. cbn [fs trace fst snd].
  destruct (Path.resolve (fs w) (Str.c_str path)) as [e|cs] eqn:Er; [now split|].
  apply resolve_inr in Er as [-> Ee].
  destruct (Path.node_at (fs w) (comps (Str.c_str path))) as [[|c]|] eqn:En.
  - cbn [fst snd fs trace]. rewrite mode_test.
    destruct (insecure (st_mode (comps (Str.c_str path))));
      cbn [fst snd fs trace]; [now split|].
    rewrite En. now split.
  - destruct (Path.ends_with_slash (Str.c_str path)).
    + now split.
    + cbn [fst snd fs trace]. rewrite mode_test.
      destruct (insecure (st_mode (comps (Str.c_str path))));
        cbn [fst snd fs trace]; [now split|].
      rewrite En. now split.
  - destruct (Path.node_at (fs w) (Path.parent (comps (Str.c_str path)))) as [[|c]|];
      now split.
Qed.

(** X13. [ReadFile] never hands out a file that its group or others may
    write: when the path names a file or directory whose mode has the
    group-write or the other-write bit, the result is false, the content
    is empty and the error names the file as insecure; and whenever the
    result is true, neither bit is set in the mode of the file read. *)
Theorem ReadFile_refuses_writable (st_mode : list string -> Z) (path : string)
    (w : World) :
  (path_exists w (Str.c_str path)
   && insecure (st_mode (comps (Str.c_str path))) = true ->
   fst (ReadFile st_mode path w)
   = (false, "", "Skipping insecure file '" ++ path ++ "'"))
  /\ (fst (fst (fst (ReadFile st_mode path w))) = true ->
      Z.testbit (st_mode (comps (Str.c_str path))) 1 = false
      /\ Z.testbit (st_mode (comps (Str.c_str path))) 4 = false).
Proof.
  destruct (ReadFile_run st_mode path w) as [Hrun _]. rewrite Hrun.
  unfold path_exists. split.
  - intros H. apply andb_prop in H as [H1 H2].
    destruct (Path.lookup (fs w) (Str.c_str path)); [|discriminate H1].
    now rewrite H2.
  - destruct (Path.lookup (fs w) (Str.c_str path)) as [n|]; [|discriminate].
    unfold insecure.
    destruct (Z.testbit (st_mode (comps (Str.c_str path))) 1);
      destruct (Z.testbit (st_mode (comps (Str.c_str path))) 4);
      cbn [orb fst]; try discriminate. now split.
Qed.

Lemma ReadFile_refuses_writable_witness :
  fst (ReadFile modes_0664 "/proc/cmdline" (cmdline_world "quiet"))
  = (false, "", "Skipping insecure file '" ++ "/proc/cmdline" ++ "'").
Proof.
  exact (proj1 (ReadFile_refuses_writable modes_0664 "/proc/cmdline"
                  (cmdline_world "quiet")) eq_refl).
Defined.


(** A file written where no directory was leaves the directories what
    they were, and so the paths that resolve resolve as before. *)
Lemma dirs_after_write (f : gmap (list string) node) (cs q : list string)
    (c0 c1 : string) :
  Path.node_at f cs <> Some Dir ->
  Path.node_at (<[cs := File c1]> (<[cs := File c0]> f)) q = Some Dir
  <-> Path.node_at f q = Some Dir.
Proof.
  intros Hnd. destruct q as [|x r]; [now split|]. cbn [Path.node_at].
  destruct (decide (x :: r = cs)) as [E|E].
  - rewrite <- E in *. rewrite lookup_insert_eq. cbn [Path.node_at] in Hnd.
    split; [discriminate|]. intros H. now destruct Hnd.
  - now rewrite !lookup_insert_ne by (intros H; now destruct E).
Qed.

Lemma walk_same_dirs (f f' : gmap (list string) node) (l acc x : list string) :
  (forall q, Path.node_at f' q = Some Dir <-> Path.node_at f q = Some Dir) ->
  Path.walk f l acc = inr x -> Path.walk f' l acc = inr x.
Proof.
  intros Hd. revert acc. induction l as [|c r IH]; intros acc; cbn [Path.walk]; [trivial|].
  destruct (String.eqb c ""); [apply IH|].
  destruct (String.eqb c "." || String.eqb c ".."); [|apply IH].
  destruct (Path.node_at f (rev acc)) as [[|c0]|] eqn:E; [|discriminate..].
  apply Hd in E. rewrite E. apply IH.
Qed.

Lemma resolve_after_write (f : gmap (list string) node) (p : string)
    (cs cs' : list string) (c0 c1 : string) :
  Path.node_at f cs' <> Some Dir ->
  Path.resolve f p = inr cs ->
  Path.resolve (<[cs' := File c1]> (<[cs' := File c0]> f)) p = inr cs.
Proof.
  intros Hnd. unfold Path.resolve. destruct (String.eqb p ""); [trivial|].
  apply walk_same_dirs. intros q. now apply dirs_after_write.
Qed.

(** The runs of [WriteFile]: the open fails and nothing has changed, or
    the file is opened, created or emptied, and then written, wholly or,
    when a write is refused, in part. *)
Lemma WriteFile_cases (path content : string) (w : World) :
  (fs (snd (WriteFile path content w)) = fs w
   /\ exists e, fst (WriteFile path content w)
                = (false, "Unable to open '" ++ path ++ "': " ++ strerror e))
  \/ (Path.resolve (fs w) (Str.c_str path) = inr (comps (Str.c_str path))
      /\ Path.ends_with_slash (Str.c_str path) = false
      /\ Path.node_at (fs w) (comps (Str.c_str path)) <> Some Dir
      /\ exists c1,
           fs (snd (WriteFile path content w))
           = <[comps (Str.c_str path) := File c1]>
               (<[comps (Str.c_str path) := File ""]> (fs w))
           /\ ((c1 = content /\ fst (WriteFile path content w) = (true, ""))
               \/ exists e k,
                    c1 = Str.take k content /\ k < String.length content
                    /\ fst (WriteFile path content w)
                       = (false, "Unable to write to '" ++ path ++ "': " ++ strerror e))).
Proof.
  assert (Hwrite : forall w1 : World,
    exists c1,
      fs (snd (WriteStringToFd content (comps (Str.c_str path)) w1))
      = <[comps (Str.c_str path) := File c1]> (fs w1)
      /\ ((c1 = content
           /\ fst (WriteStringToFd content (comps (Str.c_str path)) w1) = Ok)
          \/ exists e k,
               c1 = Str.take k content /\ k < String.length content
               /\ fst (WriteStringToFd content (comps (Str.c_str path)) w1) = Err e)).
  { intros w1. unfold WriteStringToFd, bind, emit, refusal, short, put, ret.
    cbn [fs trace refused written].
    destruct (String.eqb content "") eqn:Ec.
    - eexists. split; [reflexivity|]. now left.
    - destruct (refused w1 (EvWrite (comps (Str.c_str path)) content)) as [e|].
      + eexists. split; [reflexivity|]. right. eexists e, _. split; [reflexivity|].
        split; [|reflexivity]. destruct content; [discriminate Ec|].
        cbn [String.length Nat.pred]. lia.
      + eexists. split; [reflexivity|]. now left. }
  unfold WriteFile. unfold bind at 1. unfold open_wr, bind, emit, refusal, get_fs, ret.
  cbn [fs trace refused written].
  destruct (refused w (EvOpen (Str.c_str path))) as [e|]; [left; split; eauto|].
  cbn [fs trace refused written].
  destruct (Path.resolve (fs w) (Str.c_str path)) as [e|cs] eqn:Er;
    [left; split; eauto|].
  apply resolve_inr in Er as [-> Ee]. cbn [fs trace refused written].
  destruct (Path.node_at (fs w) (comps (Str.c_str path))) as [[|c]|] eqn:En.
  - left; split; eauto.
  - destruct (Path.ends_with_slash (Str.c_str path)) eqn:Es; [left; split; eauto|].
    right. split; [reflexivity|]. split; [reflexivity|]. split; [discriminate|].
    unfold put. cbn [fs trace refused written].
    match goal with
    | |- context [WriteStringToFd content _ ?w1] =>
        destruct (Hwrite w1) as (c1 & Hfs & Hr);
        destruct (WriteStringToFd content (comps (Str.c_str path)) w1) as [r w2]
    end.
    cbn [fst snd fs] in *. exists c1.
    destruct Hr as [[-> ->]|(e & k & -> & Hk & ->)].
    + split; [exact Hfs|]. now left.
    + split; [exact Hfs|]. right. now exists e, k.
  - destruct (Path.ends_with_slash (Str.c_str path)) eqn:Es; [left; split; eauto|].
    destruct (Path.node_at (fs w) (Path.parent (comps (Str.c_str path)))) as [[|c]|];
      [|left; split; eauto|left; split; eauto].
    right. split; [reflexivity|]. split; [reflexivity|]. split; [discriminate|].
    unfold put. cbn [fs trace refused written].
    match goal with
    | |- context [WriteStringToFd content _ ?w1] =>
        destruct (Hwrite w1) as (c1 & Hfs & Hr);
        destruct (WriteStringToFd content (comps (Str.c_str path)) w1) as [r w2]
    end.
    cbn [fst snd fs] in *. exists c1.
    destruct Hr as [[-> ->]|(e & k & -> & Hk & ->)].
    + split; [exact Hfs|]. now left.
    + split; [exact Hfs|]. right. now exists e, k.
Qed.

(** X15. What [WriteFile] has written can be read: when it returns true
    its error is empty and [ReadFileToString] at the same path gives
    exactly the content written, whatever the file held before. *)
Theorem WriteFile_then_read (path content : string) (w : World) :
  fst (fst (WriteFile path content w)) = true ->
  snd (fst (WriteFile path content w)) = ""
  /\ fst (ReadFileToString path (snd (WriteFile path content w))) = (true, content).
Proof.
  intros Hok.
  destruct (WriteFile_cases path content w)
    as [[_ [e He]]|(Hres & Hs & Hnd & c1 & Hfs & Hr)].
  { rewrite He in Hok. discriminate Hok. }
  destruct Hr as [[-> Hr]|(e & k & _ & _ & Hr)]; [|rewrite Hr in Hok; discriminate Hok].
  rewrite Hr. split; [reflexivity|].
  unfold ReadFileToString, bind, emit, get_fs, ret. cbn [fs trace fst snd].
  unfold Path.lookup. rewrite Hfs, (resolve_after_write _ _ _ _ _ _ Hnd Hres).
  destruct (comps (Str.c_str path)) as [|x r] eqn:Ec; [now destruct Hnd|].
  cbn [Path.node_at]. now rewrite lookup_insert_eq, Hs.
Qed.

Lemma WriteFile_then_read_witness :
  fst (ReadFileToString "/proc/cmdline"
         (snd (WriteFile "/proc/cmdline" "a=1" (cmdline_world "quiet"))))
  = (true, "a=1").
Proof.
  exact (proj2 (WriteFile_then_read "/proc/cmdline" "a=1" (cmdline_world "quiet")
                  eq_refl)).
Defined.

(** X16. A [WriteFile] that returns false has failed in one of two ways.
    Either the open has failed: then no file has changed and the error is
    the message for a failed open, with the path and the text of the
    error number. Or a write has failed: then the error is the message
    for a failed write, with the path and the text of the error number,
    and the file is there, created or emptied by the open, and holds less
    than the content, its first bytes. *)
Theorem WriteFile_failure (path content : string) (w : World) :
  fst (fst (WriteFile path content w)) = false ->
  (fs (snd (WriteFile path content w)) = fs w
   /\ exists e, snd (fst (WriteFile path content w))
                = "Unable to open '" ++ path ++ "': " ++ strerror e)
  \/ (exists e k,
        snd (fst (WriteFile path content w))
        = "Unable to write to '" ++ path ++ "': " ++ strerror e
        /\ k < String.length content
        /\ Path.lookup (fs (snd (WriteFile path content w))) (Str.c_str path)
           = Some (File (Str.take k content))).
Proof.
  intros Hno.
  destruct (WriteFile_cases path content w)
    as [[Hfs [e He]]|(Hres & Hs & Hnd & c1 & Hfs & Hr)].
  { left. split; [exact Hfs|]. exists e. now rewrite He. }
  destruct Hr as [[_ Hr]|(e & k & -> & Hk & Hr)]; [rewrite Hr in Hno; discriminate Hno|].
  right. exists e, k. rewrite Hr. split; [reflexivity|]. split; [exact Hk|].
  unfold Path.lookup. rewrite Hfs, (resolve_after_write _ _ _ _ _ _ Hnd Hres).
  destruct (comps (Str.c_str path)) as [|x r] eqn:Ec; [now destruct Hnd|].
  cbn [Path.node_at]. now rewrite lookup_insert_eq, Hs.
Qed.

Lemma WriteFile_failure_witness :
  (fs (snd (WriteFile "/tmp/dt/panel" "oled" full_disk_world)) = fs full_disk_world
   /\ exists e, snd (fst (WriteFile "/tmp/dt/panel" "oled" full_disk_world))
                = "Unable to open '" ++ "/tmp/dt/panel" ++ "': " ++ strerror e)
  \/ (exists e k,
        snd (fst (WriteFile "/tmp/dt/panel" "oled" full_disk_world))
        = "Unable to write to '" ++ "/tmp/dt/panel" ++ "': " ++ strerror e
        /\ k < String.length "oled"
        /\ Path.lookup (fs (snd (WriteFile "/tmp/dt/panel" "oled" full_disk_world)))
             (Str.c_str "/tmp/dt/panel")
           = Some (File (Str.take k "oled"))).
Proof.
  exact (WriteFile_failure "/tmp/dt/panel" "oled" full_disk_world eq_refl).
Defined.

(** X17. [WriteFile] touches its own path only: every other path holds
    after it what it held before, and a path is a directory after it
    exactly when it was one before, so that it neither creates nor
    replaces a directory. *)
Theorem WriteFile_frame (path content : string) (w : World) (cs : list string) :
  (cs <> comps (Str.c_str path) ->
   Path.node_at (fs (snd (WriteFile path content w))) cs = Path.node_at (fs w) cs)
  /\ (Path.node_at (fs (snd (WriteFile path content w))) cs = Some Dir
      <-> Path.node_at (fs w) cs = Some Dir).
Proof.
  destruct (WriteFile_cases path content w)
    as [[Hfs _]|(_ & _ & Hnd & c1 & Hfs & _)]; rewrite Hfs; [now split|].
  split; [|now apply dirs_after_write].
  intros Hne. destruct cs as [|x r]; [reflexivity|]. cbn [Path.node_at].
  now rewrite !lookup_insert_ne by (intros H; now destruct Hne).
Qed.

Lemma WriteFile_frame_witness :
  Path.node_at (fs (snd (WriteFile "/proc/cmdline" "a=1" (cmdline_world "quiet"))))
    ["proc"]
  = Path.node_at (fs (cmdline_world "quiet")) ["proc"].
Proof.
  refine (proj1 (WriteFile_frame "/proc/cmdline" "a=1" (cmdline_world "quiet")
                   ["proc"]) _).
  discriminate.
Defined.

End FileFacts.

(** ** What the functions never do to the tree *)

Section Safety.

Lemma only_adds_refl (f : gmap (list string) node) : only_adds f f.
Proof. intros q. now left. Qed.

Lemma only_adds_trans (f f' f'' : gmap (list string) node) :
  only_adds f f' -> only_adds f' f'' -> only_adds f f''.
Proof.
  intros H1 H2 q. destruct (H2 q) as [E|[E2 E]].
  - rewrite E. apply H1.
  - destruct (H1 q) as [E1|[E1 E1']]; [|congruence].
    right. split; [congruence|exact E].
Qed.

Lemma mkdir_only_adds (p : string) (mode : nat) (w : World) :
  only_adds (fs w) (fs (snd (mkdir p mode w))).
Proof.
  unfold mkdir, bind, emit, refusal, get_fs, put, ret. cbn [fs trace refused written].
  destruct (refused w (EvMkdir p)); [apply only_adds_refl|].
  cbn [fs trace refused written].
  destruct (Path.resolve (fs w) p) as [e|cs]; [apply only_adds_refl|].
  destruct (Path.node_at (fs w) cs) as [n|] eqn:En; [apply only_adds_refl|].
  destruct (Path.node_at (fs w) (Path.parent cs)) as [[|c]|];
    [|apply only_adds_refl..].
  cbn [fs snd]. intros q. destruct (decide (cs = q)) as [<-|Hne].
  - right. rewrite lookup_insert_eq. split; [|reflexivity].
    destruct cs; [discriminate En|exact En].
  - left. now rewrite lookup_insert_ne.
Qed.

Lemma mkdir_loop_only_adds (path : string) (mode : nat) (l : list nat) :
  forall w, only_adds (fs w) (fs (snd (mkdir_recursive_loop path mode l w))).
Proof.
  induction l as [|slash rest IH]; intros w; [apply only_adds_refl|].
  cbn [mkdir_recursive_loop]. unfold bind at 1. rewrite stat_run.
  destruct (Path.lookup (fs w) (Str.c_str (Str.substr_to slash path))) as [n|].
  - apply (IH (add_events w _)).
  - unfold bind, make_dir.
    pose proof (mkdir_only_adds (Str.c_str (Str.substr_to slash path)) mode
                  (add_events w [EvStat (Str.c_str (Str.substr_to slash path))])) as Hm.
    destruct (mkdir _ _ _) as [r w1]. cbn [snd add_events fs] in Hm.
    destruct r as [|[]]; first [exact Hm | exact (only_adds_trans _ _ _ Hm (IH w1))].
Qed.

(** X22. Whatever the path, the tree and what the system refuses,
    [mkdir_recursive] only adds directories: after it every path holds
    what it held before, or held nothing and is a directory now. It
    removes nothing and changes no file, also when it returns -1. *)
Theorem mkdir_recursive_only_adds (path : string) (mode : nat) (w : World) :
  only_adds (fs w) (fs (snd (mkdir_recursive path mode w))).
Proof.
  unfold mkdir_recursive. unfold bind at 1.
  pose proof (mkdir_loop_only_adds path mode (positions "/" 1 (Str.next path)) w) as Hl.
  destruct (mkdir_recursive_loop _ _ _ _) as [[r|[]] w1]; cbn [snd] in Hl; [exact Hl|].
  unfold bind, make_dir.
  pose proof (mkdir_only_adds (Str.c_str path) mode w1) as Hm.
  destruct (mkdir _ _ _) as [r w2]. cbn [snd] in Hm.
  destruct r as [|[]]; exact (only_adds_trans _ _ _ Hl Hm).
Qed.

Lemma keeps_kinds_refl (f : gmap (list string) node) : keeps_kinds f f.
Proof. intros q. destruct (f !! q) as [[|c]|]; eauto. Qed.

Lemma keeps_kinds_trans (f f' f'' : gmap (list string) node) :
  keeps_kinds f f' -> keeps_kinds f' f'' -> keeps_kinds f f''.
Proof.
  intros H1 H2 q. specialize (H1 q). specialize (H2 q).
  destruct (f !! q) as [[|c]|]; [| |exact I].
  - now rewrite H1 in H2.
  - destruct H1 as [c' H1]. now rewrite H1 in H2.
Qed.

Lemma only_adds_keeps (f f' : gmap (list string) node) :
  only_adds f f' -> keeps_kinds f f'.
Proof.
  intros H q. destruct (H q) as [E|[E _]].
  - rewrite E. destruct (f !! q) as [[|c]|]; eauto.
  - now rewrite E.
Qed.

Lemma WriteFile_keeps (path content : string) (w : World) :
  keeps_kinds (fs w) (fs (snd (WriteFile path content w))).
Proof.
  destruct (WriteFile_cases path content w)
    as [[Hfs _]|(_ & _ & Hnd & c1 & Hfs & _)]; rewrite Hfs; [apply keeps_kinds_refl|].
  intros q. destruct (decide (comps (Str.c_str path) = q)) as [<-|Hne].
  - rewrite lookup_insert_eq.
    destruct (comps (Str.c_str path)) as [|x r]; [now destruct Hnd|].
    cbn [Path.node_at] in Hnd.
    destruct (fs w !! (x :: r)) as [[|c]|]; [now destruct Hnd|eauto|exact I].
  - rewrite !lookup_insert_ne by exact Hne. apply keeps_kinds_refl.
Qed.

Lemma synthesis_keeps (key value : string) (for_emulator : bool) (rootdir : string)
    (w : World) :
  keeps_kinds (fs w)
    (fs (snd (create_dt_file_by_cmdline key value for_emulator rootdir w))).
Proof.
  unfold create_dt_file_by_cmdline.
  destruct (String.eqb key ""); [apply keeps_kinds_refl|].
  destruct (Base.StartsWith key "android.fw."); [|apply keeps_kinds_refl].
  cbv zeta. unfold bind at 1.
  match goal with
  | |- context [mkdir_recursive ?p ?m w] =>
      pose proof (only_adds_keeps _ _ (mkdir_recursive_only_adds p m w)) as Hm;
      destruct (mkdir_recursive p m w) as [r w1]
  end.
  cbn [snd] in Hm. unfold bind at 1.
  match goal with
  | |- context [WriteFile ?p ?c w1] =>
      pose proof (WriteFile_keeps p c w1) as Hw; destruct (WriteFile p c w1) as [r2 w2]
  end.
  cbn [snd ret] in *. exact (keeps_kinds_trans _ _ _ Hm Hw).
Qed.

Lemma foldM_keeps {A B : Type} (f : A -> B -> M A) (l : list B) :
  (forall a b w, keeps_kinds (fs w) (fs (snd (f a b w)))) ->
  forall a w, keeps_kinds (fs w) (fs (snd (foldM f a l w))).
Proof.
  intros Hf. induction l as [|b r IH]; intros a w; [apply keeps_kinds_refl|].
  cbn [foldM]. unfold bind. specialize (Hf a b w).
  destruct (f a b w) as [a' w1]. cbn [snd] in Hf.
  exact (keeps_kinds_trans _ _ _ Hf (IH a' w1)).
Qed.

(** X23. Whatever the command line, the ACPI node, the tree and what the
    system refuses, the synthesizer and the resolver destroy nothing:
    after [create_dt_file_by_cmdline], and after [init_android_dt_dir]
    with the synthesis it may run, every directory that was there is a
    directory still and every regular file that was there is a regular
    file still. *)
Theorem synthesis_never_destroys (key value : string) (for_emulator : bool)
    (rootdir : string) (w : World) :
  keeps_kinds (fs w)
    (fs (snd (create_dt_file_by_cmdline key value for_emulator rootdir w)))
  /\ keeps_kinds (fs w) (fs (snd (init_android_dt_dir w))).
Proof.
  split; [apply synthesis_keeps|].
  rewrite init_android_dt_dir_run.
  destruct (dir_exists w kDefaultAndroidDtDir); [apply keeps_kinds_refl|].
  cbv zeta.
  destruct (dir_exists w _); [apply keeps_kinds_refl|].
  rewrite import_acpi_cmdline_run. cbv zeta.
  destruct (contains "CFG0" _); [|apply keeps_kinds_refl].
  cbn [snd].
  match goal with
  | |- keeps_kinds _ (fs (snd (foldM ?f0 ?a0 ?l0 ?w0))) =>
      apply (foldM_keeps f0 l0 (fun _ kv w1 => synthesis_keeps (fst kv) (snd kv) _ _ w1)
               a0 w0)
  end.
Qed.

End Safety.
